(** * geoApi layer records: a shallow embedding of the layerRec classes

    The development follows the JavaScript sources
    [basicFC.js], [layerInterface.js], [dynamicRecord.js], the WMS feature
    class ([getWMSLayerTitle], [WmsFC.loadSymbology]), the feature record
    ([FeatureRecord.constructor], [FeatureRecord.getProxy],
    [FeatureRecord.onLoad]) and the hover listeners of the simple record.

    Conventions of the embedding:
    - a JavaScript object used as a table keyed by strings is a [gmap string];
      the one table the code enumerates with [Object.keys] is kept as an
      association list in own-property order;
    - a property that may be absent is an [option]; truthiness tests are the
      functions of module [JS];
    - a function that can throw returns a [JS.Result]; what a handler that
      threw has written to its record by then is not described, except for
      the feature record, whose handler returns the record as well;
    - proxy objects are shared and mutated in place, so they live in a store
      addressed by handles;
    - numbers that are scales or opacities are finite and embedded in [Q];
      sub-layer ids are integers. *)

From Stdlib Require Import QArith DecimalString DecimalZ.
From stdpp Require Import gmap strings list fin_maps sorting.

Open Scope string_scope.

#[local] Set Warnings "-register-all".

(** ** JavaScript values and effects *)

Module JS.

Inductive Error : Type :=
| TypeError (msg : string)
| Error_ (msg : string).

(** Outcome of a call: a value, a thrown exception, or the recursion budget
    of the model exhausted (only [processLayerInfo] recurses on data that
    the type does not bound). *)
Inductive Result (A : Type) : Type :=
| Return (a : A)
| Throw (e : Error)
| OutOfFuel.
Arguments Return {A} a.
Arguments Throw {A} e.
Arguments OutOfFuel {A}.

Definition bind {A B} (r : Result A) (k : A -> Result B) : Result B :=
  match r with
  | Return a => k a
  | Throw e => Throw e
  | OutOfFuel => OutOfFuel
  end.

(** A settled promise; the embedding does not model scheduling. *)
Inductive Promise (A : Type) : Type :=
| Fulfilled (a : A)
| Rejected (e : Error).
Arguments Fulfilled {A} a.
Arguments Rejected {A} e.

Definition resolve {A} (a : A) : Promise A := Fulfilled a.

(** [p.then(f)] for a handler that does not throw. *)
Definition then_ {A B} (p : Promise A) (f : A -> B) : Promise B :=
  match p with
  | Fulfilled a => Fulfilled (f a)
  | Rejected e => Rejected e
  end.

(** Integer-valued numbers and NaN, the only numbers [parseInt] yields. *)
Inductive Number : Type :=
| Int (z : Z)
| NaN.

(** [n.toString()] of an integer: its decimal rendering. *)
Definition toString (z : Z) : string :=
  NilEmpty.string_of_int (Z.to_int z).

Definition Number_toString (n : Number) : string :=
  match n with
  | Int z => toString z
  | NaN => "NaN"
  end.

(** [parseInt(s)] on strings made of an optional minus sign and decimal
    digits (the shape of every key [toString] produces); any other string
    is NaN here, where JavaScript would still read a numeric prefix. *)
Definition parseInt (s : string) : Number :=
  if decide (s = "" \/ s = "-") then NaN
  else match NilEmpty.int_of_string s with
       | Some d => Int (Z.of_int d)
       | None => NaN
       end.

(** Truthiness of a value that is a string or undefined. *)
Definition truthy (v : option string) : bool :=
  match v with
  | Some s => negb (String.eqb s "")
  | None => false
  end.

(** [a || b] where [a] is a string or undefined and [b] a string. *)
Definition or_else (a : option string) (b : string) : string :=
  match a with
  | Some s => if String.eqb s "" then b else s
  | None => b
  end.

(** An object whose own properties are enumerated: the pairs are kept in
    own-property order, array-index keys (canonical decimal strings below
    2^32 - 1) ascending first, then the other keys in insertion order. *)
Definition arrayIndex (k : string) : option Z :=
  match parseInt k with
  | Int z => if decide ((0 <= z < 4294967295)%Z /\ toString z = k) then Some z else None
  | NaN => None
  end.

Definition precedes (k k' : string) : bool :=
  match arrayIndex k, arrayIndex k' with
  | Some a, Some b => (a <? b)%Z
  | Some _, None => true
  | None, _ => false
  end.

Fixpoint obj_get {V} (o : list (string * V)) (k : string) : option V :=
  match o with
  | [] => None
  | (k', v) :: rest => if decide (k = k') then Some v else obj_get rest k
  end.

Fixpoint obj_replace {V} (k : string) (v : V) (o : list (string * V)) : list (string * V) :=
  match o with
  | [] => []
  | (k', v') :: rest =>
      if decide (k = k') then (k, v) :: rest else (k', v') :: obj_replace k v rest
  end.

Fixpoint obj_add {V} (k : string) (v : V) (o : list (string * V)) : list (string * V) :=
  match o with
  | [] => [(k, v)]
  | (k', v') :: rest =>
      if precedes k k' then (k, v) :: o else (k', v') :: obj_add k v rest
  end.

(** [o[k] = v] *)
Definition obj_set {V} (k : string) (v : V) (o : list (string * V)) : list (string * V) :=
  match obj_get o k with
  | Some _ => obj_replace k v o
  | None => obj_add k v o
  end.

(** [Object.keys(o)] *)
Definition Object_keys {V} (o : list (string * V)) : list string := map fst o.

(** [arr[i]] for an array and a number: undefined off the array. *)
Definition array_get {A} (arr : list A) (i : Number) : option A :=
  match i with
  | Int z => if decide (0 <= z)%Z then arr !! Z.to_nat z else None
  | NaN => None
  end.

Global Arguments array_get : simpl never.

(** Strict comparisons on finite numbers. *)
Definition lt (x y : Q) : bool := negb (Qle_bool y x).
Definition gt (x y : Q) : bool := lt y x.
Definition strict_neq (x y : Q) : bool := negb (Qeq_bool x y).

End JS.

Global Instance Result_ret : MRet JS.Result := fun _ a => JS.Return a.
Global Instance Result_bind : MBind JS.Result := fun _ _ k r => JS.bind r k.

(** ** Layer configuration *)

Module Config.

(** [state] of a layer entry. *)
Record LayerState : Type := mkState {
  opacity : Q;
  visibility : bool;
  query : bool
}.

Record Extent : Type := mkExtent { xmin : Q; ymin : Q; xmax : Q; ymax : Q }.

(** A layer entry of a dynamic layer's configuration, with the
    properties the code reads or writes. [None] is an absent property;
    an absent [stateOnly] is read as false. *)
Record LayerEntry : Type := mkEntry {
  index : JS.Number;
  name : option string;
  state : option LayerState;
  outfields : option string;
  stateOnly : bool;
  extent : option Extent
}.

(** [le.config] on a layer entry: the entries of the config, their copies
    and the entries [fetchSubConfig] creates have no property of that name,
    so the read yields undefined. *)
Definition entry_config (le : LayerEntry) : option LayerEntry := None.

(** The config of a feature layer, as far as the feature record and its
    feature class read it. *)
Record LayerConfig : Type := mkLayerConfig {
  lc_name : option string;
  lc_state : option LayerState;
  lc_extent : option Extent;
  nameField : option string
}.

(** The properties the constructor of [BasicFC] reads from the config
    object it is handed, whatever the kind of config. *)
Class FCConfig (C : Type) : Type := {
  config_name : C -> option string;
  config_state : C -> option LayerState;
  config_extent : C -> option Extent
}.

Global Instance LayerEntry_FCConfig : FCConfig LayerEntry :=
  {| config_name := name; config_state := state; config_extent := extent |}.

Global Instance LayerConfig_FCConfig : FCConfig LayerConfig :=
  {| config_name := lc_name; config_state := lc_state; config_extent := lc_extent |}.

End Config.

(** ** basicFC.js *)

Module BasicFC.

Record ScaleSet : Type := mkScaleSet { minScale : Q; maxScale : Q }.

(** The part of the parent's esri layer that a feature class reads. *)
Record Layer : Type := mkLayer {
  layer_minScale : Q;
  layer_maxScale : Q
}.

Record OffScale : Type := mkOffScale { offScale : bool; zoomIn : bool }.

(** The object state the constructor of [BasicFC] sets up. *)
Record t : Type := mkBasicFC {
  fc_name : string;
  _idx : option string;
  queryable : bool;
  fc_extent : option Config.Extent
}.

(** [constructor (parent, idx, config)]: [config.state.query] is read
    through [config.state], which throws when the state is absent. [idx]
    is a string, or undefined when the caller had none. *)
Definition constructor `{Config.FCConfig C} (idx : option string) (config : C)
  : JS.Result t :=
  match Config.config_state config with
  | None => JS.Throw (JS.TypeError "Cannot read property 'query' of undefined")
  | Some st =>
      JS.Return {| fc_name := JS.or_else (Config.config_name config) "";
                   _idx := idx;
                   queryable := Config.query st;
                   fc_extent := Config.config_extent config |}
  end.

(** [getScaleSet ()], basic case: the bounds of the esri layer. *)
Definition getScaleSet (l : Layer) : JS.Promise ScaleSet :=
  JS.resolve {| minScale := layer_minScale l; maxScale := layer_maxScale l |}.

(** The handler [isOffScale] chains on the scale set. *)
Definition offScaleOf (mapScale : Q) (scaleSet : ScaleSet) : OffScale :=
  if JS.lt mapScale (maxScale scaleSet) && JS.strict_neq (maxScale scaleSet) 0 then
    {| offScale := true; zoomIn := false |}
  else if JS.gt mapScale (minScale scaleSet) && JS.strict_neq (minScale scaleSet) 0 then
    {| offScale := true; zoomIn := true |}
  else
    {| offScale := false; zoomIn := false |}.

(** [isOffScale (mapScale)]; [scaleSetP] is what [this.getScaleSet()]
    returns, so that subclasses overriding [getScaleSet] are covered. *)
Definition isOffScale (scaleSetP : JS.Promise ScaleSet) (mapScale : Q) : JS.Promise OffScale :=
  JS.then_ scaleSetP (offScaleOf mapScale).

(** The rule as the specification words it: the first branch asks to
    zoom in, the second to zoom out. *)
Definition spec_offScaleOf (mapScale : Q) (scaleSet : ScaleSet) : OffScale :=
  if JS.lt mapScale (maxScale scaleSet) && JS.strict_neq (maxScale scaleSet) 0 then
    {| offScale := true; zoomIn := true |}
  else if JS.gt mapScale (minScale scaleSet) && JS.strict_neq (minScale scaleSet) 0 then
    {| offScale := true; zoomIn := false |}
  else
    {| offScale := false; zoomIn := false |}.

End BasicFC.

(** ** The WMS feature class *)

Module WmsFC.

(** Entry of the nested [layerInfos] of a WMS layer; the WMS id of an
    entry is stored in [name]. *)
Inductive WMSLayerInfo : Type :=
| mkInfo (name : option string) (title : option string)
         (subLayers : option (list WMSLayerInfo)).

Definition name (li : WMSLayerInfo) : option string :=
  match li with mkInfo n _ _ => n end.
Definition title (li : WMSLayerInfo) : option string :=
  match li with mkInfo _ t _ => t end.
Definition subLayers (li : WMSLayerInfo) : option (list WMSLayerInfo) :=
  match li with mkInfo _ _ s => s end.

(** The callback handed to [.some] inside [crawlSubLayers]. It yields the
    value assigned to the enclosing call's [targetEntry] ([None] when the
    callback leaves it alone) and the truthiness of what it returns. The
    inner [fix] is the recursive call [crawlSubLayers(layerInfo.subLayers)]:
    it runs [.some] over the children and returns its own [targetEntry]. *)
Fixpoint someCallback (wmsLayerId : string) (layerInfo : WMSLayerInfo)
  : option WMSLayerInfo * bool :=
  match layerInfo with
  | mkInfo n _ subs =>
      if decide (n = Some wmsLayerId) then (Some layerInfo, true)
      else match subs with
           | Some children =>
               let found :=
                 (fix crawl (l : list WMSLayerInfo) : option WMSLayerInfo :=
                    match l with
                    | [] => None
                    | li :: rest =>
                        let '(targetEntry, stop) := someCallback wmsLayerId li in
                        if stop then targetEntry else crawl rest
                    end) children in
               (None, bool_decide (is_Some found))
           | None => (None, false)
           end
  end.

(** [crawlSubLayers (subLayerInfos, wmsLayerId)]: [targetEntry] starts as
    null, [.some] stops at the first truthy callback result, and the
    function returns [targetEntry]. *)
Fixpoint crawlSubLayers (subLayerInfos : list WMSLayerInfo) (wmsLayerId : string)
  : option WMSLayerInfo :=
  match subLayerInfos with
  | [] => None
  | layerInfo :: rest =>
      let '(targetEntry, stop) := someCallback wmsLayerId layerInfo in
      if stop then targetEntry else crawlSubLayers rest wmsLayerId
  end.

(** [getWMSLayerTitle (wmsLayer, wmsLayerId)] on [wmsLayer.layerInfos]. *)
Definition getWMSLayerTitle (layerInfos : list WMSLayerInfo) (wmsLayerId : string) : string :=
  match crawlSubLayers layerInfos wmsLayerId with
  | Some m => JS.or_else (title m) ""
  | None => ""
  end.

(** The lookup as the specification words it: the nodes in pre-order,
    the first one named [wmsLayerId], its title or the empty string. *)
Fixpoint preorder (li : WMSLayerInfo) : list WMSLayerInfo :=
  match li with
  | mkInfo _ _ subs =>
      li :: match subs with
            | Some children => flat_map preorder children
            | None => []
            end
  end.

Definition spec_title (layerInfos : list WMSLayerInfo) (wmsLayerId : string) : string :=
  match List.find (fun li => bool_decide (name li = Some wmsLayerId))
                  (flat_map preorder layerInfos) with
  | Some m => JS.or_else (title m) ""
  | None => ""
  end.

(** A layer entry of a WMS layer's configuration. *)
Record WmsLayerEntry : Type := mkWmsEntry {
  id : string;
  entry_name : option string
}.

(** The name computed for a legend entry in [loadSymbology]:
    [configLayerEntries[idx].name || getWMSLayerTitle(...) || configLayerEntries[idx].id]. *)
Definition symbologyName (layerInfos : list WMSLayerInfo) (le : WmsLayerEntry) : string :=
  JS.or_else (entry_name le)
    (JS.or_else (Some (getWMSLayerTitle layerInfos (id le))) (id le)).

(** [loadSymbology ()]: [legendUrls] is the array returned by
    [gApi.layer.ogc.getLegendUrls]; the result lists, per legend url, the
    arguments handed to [gApi.symbology.generateWMSSymbology]. Reading
    [configLayerEntries[idx]] past the end yields undefined, whose [name]
    cannot be read. *)
Fixpoint loadSymbology_from (layerInfos : list WMSLayerInfo)
    (configLayerEntries : list WmsLayerEntry) (idx : nat) (legendUrls : list string)
  : JS.Result (list (string * string)) :=
  match legendUrls with
  | [] => JS.Return []
  | imageUri :: rest =>
      match configLayerEntries !! idx with
      | None => JS.Throw (JS.TypeError "Cannot read property 'name' of undefined")
      | Some le =>
          items ← loadSymbology_from layerInfos configLayerEntries (S idx) rest;
          JS.Return ((symbologyName layerInfos le, imageUri) :: items)
      end
  end.

Definition loadSymbology (layerInfos : list WMSLayerInfo)
    (configLayerEntries : list WmsLayerEntry) (legendUrls : list string)
  : JS.Result (list (string * string)) :=
  loadSymbology_from layerInfos configLayerEntries 0 legendUrls.

(** The fallback chain as the specification words it: the server title
    first, then the configured name, then the raw id. *)
Definition spec_symbologyName (layerInfos : list WMSLayerInfo) (le : WmsLayerEntry) : string :=
  JS.or_else (Some (getWMSLayerTitle layerInfos (id le)))
    (JS.or_else (entry_name le) (id le)).

End WmsFC.

(** ** Feature classes held by a dynamic record *)

Module PlaceholderFC.

(** Modelled from the spec: placeholderFC.js is not among the sources. A
    placeholder is the data-less stand-in built by
    [new PlaceholderFC(parent, name)]; it keeps the name it was given
    (undefined when the caller had none). *)
Record t : Type := mkPlaceholderFC { name : option string }.

End PlaceholderFC.

Module DynamicFC.

(** Modelled from the spec: dynamicFC.js and attribFC.js are not among the
    sources. A feature class state is "constructed from a parent Record,
    an index, and a Resolved Sub-Config"; the object is what the base
    constructor of [BasicFC] sets up, together with the sub-config it was
    built from. *)
Record t : Type := mkDynamicFC {
  base : BasicFC.t;
  config : Config.LayerEntry
}.

Definition constructor (idx : string) (config : Config.LayerEntry) : JS.Result t :=
  b ← BasicFC.constructor (Some idx) config;
  JS.Return {| base := b; config := config |}.

End DynamicFC.

(** ** layerInterface.js *)

Module LayerInterface.

(** What [_source] may point at. *)
Inductive Source : Type :=
| NullSource
| PlaceholderSource (pfc : PlaceholderFC.t)
| DynamicSource (dFC : DynamicFC.t)
| RecordSource.

Inductive PropName : Type :=
| symbology | name | layerType | geometryType | featureCount | extent
| state | visibility | opacity | query | snapshot | formattedAttributes.

Inductive MethodName : Type :=
| setVisibility | setOpacity | setQuery | setSnapshot | zoomToBoundary.

Global Instance PropName_eq_dec : EqDecision PropName.
Proof. solve_decision. Defined.
Global Instance MethodName_eq_dec : EqDecision MethodName.
Proof. solve_decision. Defined.

(** The functions that can sit behind a get property: the error stub of
    the class body, or one of the module-level getters. *)
Inductive Getter : Type :=
| iAmError
| standardGetState | dynamicLeafGetState
| standardGetVisibility | dynamicLeafGetVisibility
| standardGetName | dynamicLeafGetName
| standardGetOpacity | dynamicLeafGetOpacity
| standardGetLayerType | dynamicLeafGetLayerType
| standardGetExtent | dynamicLeafGetExtent
| standardGetQuery | dynamicLeafGetQuery
| standardGetFormattedAttributes | dynamicLeafGetFormattedAttributes
| standardGetSymbology | dynamicLeafGetSymbology
| standardGetGeometryType | featureGetGeometryType | dynamicLeafGetGeometryType
| standardGetFeatureCount | featureGetFeatureCount | dynamicLeafGetFeatureCount
| featureGetSnapshot.

(** The functions that can sit behind a method slot. *)
Inductive Method : Type :=
| iAmErrorMethod
| standardSetVisibility | dynamicLeafSetVisibility
| standardSetOpacity | dynamicLeafSetOpacity
| standardSetQuery | dynamicLeafSetQuery
| featureSetSnapshot
| standardZoomToBoundary | dynamicLeafZoomToBoundary.

(** What an accessor does with the source: the feature classes and
    records behind a proxy are collaborators, so an access is described by
    the member of the source it goes to. *)
Inductive Access : Type :=
| ReadProperty (src : Source) (prop : string)
| WriteProperty (src : Source) (prop : string)
| CallMethod (src : Source) (meth : string)
| ReturnUndefined
| ConsoleLog.

Record t : Type := mkInterface {
  _source : Source;
  _isPlaceholder : bool;
  getters : PropName -> Getter;
  methods : MethodName -> Method
}.

Definition constructor (source : Source) : t :=
  {| _source := source;
     _isPlaceholder := true;
     getters := fun _ => iAmError;
     methods := fun _ => iAmErrorMethod |}.

Definition isPlaceholder (i : t) : bool := _isPlaceholder i.

(** [newProp (target, propName, getter)] *)
Definition newProp (target : t) (propName : PropName) (getter : Getter) : t :=
  {| _source := _source target;
     _isPlaceholder := _isPlaceholder target;
     getters := fun p => if decide (p = propName) then getter else getters target p;
     methods := methods target |}.

(** [this.m = f] for a method slot. *)
Definition setMethod (target : t) (m : MethodName) (f : Method) : t :=
  {| _source := _source target;
     _isPlaceholder := _isPlaceholder target;
     getters := getters target;
     methods := fun m' => if decide (m' = m) then f else methods target m' |}.

Definition setSource (target : t) (source : Source) (placeholder : bool) : t :=
  {| _source := source;
     _isPlaceholder := placeholder;
     getters := getters target;
     methods := methods target |}.

(** [updateSource (newSource)] *)
Definition updateSource (newSource : Source) (this : t) : t :=
  setSource this newSource (_isPlaceholder this).

Definition convertToSingleLayer (layerRecord : Source) (this : t) : t :=
  let this := setSource this layerRecord false in
  let this := newProp this symbology standardGetSymbology in
  let this := newProp this state standardGetState in
  let this := newProp this visibility standardGetVisibility in
  let this := newProp this opacity standardGetOpacity in
  let this := newProp this query standardGetQuery in
  let this := newProp this name standardGetName in
  let this := newProp this geometryType standardGetGeometryType in
  let this := newProp this layerType standardGetLayerType in
  let this := newProp this featureCount standardGetFeatureCount in
  let this := newProp this extent standardGetExtent in
  let this := setMethod this setVisibility standardSetVisibility in
  let this := setMethod this setOpacity standardSetOpacity in
  let this := setMethod this setQuery standardSetQuery in
  setMethod this zoomToBoundary standardZoomToBoundary.

Definition convertToFeatureLayer (layerRecord : Source) (this : t) : t :=
  let this := convertToSingleLayer layerRecord this in
  let this := newProp this snapshot featureGetSnapshot in
  let this := newProp this formattedAttributes standardGetFormattedAttributes in
  let this := newProp this geometryType featureGetGeometryType in
  let this := newProp this featureCount featureGetFeatureCount in
  setMethod this setSnapshot featureSetSnapshot.

Definition convertToDynamicLeaf (dynamicFC : DynamicFC.t) (this : t) : t :=
  let this := setSource this (DynamicSource dynamicFC) false in
  let this := newProp this symbology dynamicLeafGetSymbology in
  let this := newProp this state dynamicLeafGetState in
  let this := newProp this name dynamicLeafGetName in
  let this := newProp this visibility dynamicLeafGetVisibility in
  let this := newProp this opacity dynamicLeafGetOpacity in
  let this := newProp this query dynamicLeafGetQuery in
  let this := newProp this formattedAttributes dynamicLeafGetFormattedAttributes in
  let this := newProp this geometryType dynamicLeafGetGeometryType in
  let this := newProp this layerType dynamicLeafGetLayerType in
  let this := newProp this featureCount dynamicLeafGetFeatureCount in
  let this := newProp this extent dynamicLeafGetExtent in
  let this := setMethod this setVisibility dynamicLeafSetVisibility in
  let this := setMethod this setOpacity dynamicLeafSetOpacity in
  let this := setMethod this setQuery dynamicLeafSetQuery in
  setMethod this zoomToBoundary dynamicLeafZoomToBoundary.

Definition convertToPlaceholder (placeholderFC : PlaceholderFC.t) (this : t) : t :=
  let this := setSource this (PlaceholderSource placeholderFC) true in
  let this := newProp this symbology standardGetSymbology in
  let this := newProp this name standardGetName in
  let this := newProp this state standardGetState in
  newProp this layerType standardGetLayerType.

(** Member access on the source; a null source has no members. A
    [JS.Return] says which member of which source the accessor reaches
    for; whether the source has that member, and what it does when
    called, is the business of the source. *)
Definition onSource (src : Source) (a : Access) : JS.Result Access :=
  match src with
  | NullSource => JS.Throw (JS.TypeError "Cannot read property of null")
  | _ => JS.Return a
  end.

Definition notSupported {A} : JS.Result A := JS.Throw (JS.Error_ "Call not supported.").

Definition runGetter (g : Getter) (src : Source) : JS.Result Access :=
  match g with
  | iAmError => notSupported
  | standardGetState | dynamicLeafGetState => onSource src (ReadProperty src "state")
  | standardGetVisibility => onSource src (ReadProperty src "visibility")
  | dynamicLeafGetVisibility => onSource src (CallMethod src "getVisibility")
  | standardGetName | dynamicLeafGetName => onSource src (ReadProperty src "name")
  | standardGetOpacity | dynamicLeafGetOpacity => onSource src (ReadProperty src "opacity")
  | standardGetLayerType | dynamicLeafGetLayerType => onSource src (ReadProperty src "layerType")
  | standardGetExtent | dynamicLeafGetExtent => onSource src (ReadProperty src "extent")
  | standardGetQuery => onSource src (CallMethod src "isQueryable")
  | dynamicLeafGetQuery => onSource src (ReadProperty src "queryable")
  | standardGetFormattedAttributes | dynamicLeafGetFormattedAttributes =>
      onSource src (CallMethod src "getFormattedAttributes")
  | standardGetSymbology | dynamicLeafGetSymbology => onSource src (ReadProperty src "symbology")
  | standardGetGeometryType => JS.Return ReturnUndefined
  | featureGetGeometryType => onSource src (CallMethod src "getGeomType")
  | dynamicLeafGetGeometryType => onSource src (ReadProperty src "geomType")
  | standardGetFeatureCount => JS.Return ReturnUndefined
  | featureGetFeatureCount | dynamicLeafGetFeatureCount =>
      onSource src (ReadProperty src "featureCount")
  | featureGetSnapshot => onSource src (ReadProperty src "isSnapshot")
  end.

Definition runMethod (f : Method) (src : Source) : JS.Result Access :=
  match f with
  | iAmErrorMethod => notSupported
  | standardSetVisibility => onSource src (WriteProperty src "visibility")
  | dynamicLeafSetVisibility => onSource src (CallMethod src "setVisibility")
  | standardSetOpacity | dynamicLeafSetOpacity => onSource src (WriteProperty src "opacity")
  | standardSetQuery => onSource src (CallMethod src "setQueryable")
  | dynamicLeafSetQuery => onSource src (WriteProperty src "queryable")
  | featureSetSnapshot => JS.Return ConsoleLog
  | standardZoomToBoundary | dynamicLeafZoomToBoundary =>
      onSource src (CallMethod src "zoomToBoundary")
  end.

(** Reading property [p] of the interface, and calling method [m]. *)
Definition get (this : t) (p : PropName) : JS.Result Access :=
  runGetter (getters this p) (_source this).

Definition call (this : t) (m : MethodName) : JS.Result Access :=
  runMethod (methods this m) (_source this).

End LayerInterface.

(** ** dynamicRecord.js *)

Module DynamicRecord.

Import Config.

(** An entry of [this._layer.layerInfos]: the server's flat list of
    sub-layers, each naming its children by id. *)
Record LayerInfo : Type := mkLayerInfo {
  id : Z;
  li_name : string;
  subLayerIds : option (list Z)
}.

(** The esri layer behind the record: what the load handler reads from
    it, and the calls of [setVisibleLayers] made on it, latest first. *)
Record EsriLayer : Type := mkEsriLayer {
  layerInfos : list LayerInfo;
  supportsDynamicLayers : bool;
  setVisibleLayers_calls : list (list JS.Number)
}.

(** An entry of the table [subConfigs] local to [onLoad]. *)
Record SubConfig : Type := mkSubConfig {
  config : LayerEntry;
  defaulted : bool
}.

(** A node of [_childTree]: [{ entryIndex, name, childs }] for a group,
    [{ entryIndex }] for a leaf. *)
Inductive TreeNode : Type :=
| Group (entryIndex : Z) (name : option string) (childs : list TreeNode)
| Leaf (entryIndex : Z).

(** What [loadLayerAttribs] returns, as far as the handler reads it. *)
Record AttributeBundle : Type := mkBundle { indexes : list string }.

(** A proxy is addressed by its position in the store. *)
Definition Handle : Type := nat.

(** The fields of a dynamic record that the modelled methods read or
    write. [layerEntries] is [this.config.layerEntries]; [store] holds the
    [LayerInterface] objects the record has created, and [_proxies] maps a
    key to the handle of its proxy. *)
Record t : Type := mkRecord {
  layerEntries : list LayerEntry;
  _configIsComplete : bool;
  _proxies : gmap string Handle;
  _isTrueDynamic : bool;
  _featClasses : list (string * DynamicFC.t);
  _childTree : option (list TreeNode);
  _layer : EsriLayer;
  store : list LayerInterface.t
}.

Definition with_proxies (r : t) (p : gmap string Handle) (s : list LayerInterface.t) : t :=
  {| layerEntries := layerEntries r; _configIsComplete := _configIsComplete r;
     _proxies := p; _isTrueDynamic := _isTrueDynamic r;
     _featClasses := _featClasses r; _childTree := _childTree r;
     _layer := _layer r; store := s |}.

Definition with_isTrueDynamic (r : t) (b : bool) : t :=
  {| layerEntries := layerEntries r; _configIsComplete := _configIsComplete r;
     _proxies := _proxies r; _isTrueDynamic := b;
     _featClasses := _featClasses r; _childTree := _childTree r;
     _layer := _layer r; store := store r |}.

Definition with_featClasses (r : t) (f : list (string * DynamicFC.t)) : t :=
  {| layerEntries := layerEntries r; _configIsComplete := _configIsComplete r;
     _proxies := _proxies r; _isTrueDynamic := _isTrueDynamic r;
     _featClasses := f; _childTree := _childTree r;
     _layer := _layer r; store := store r |}.

Definition with_childTree (r : t) (tree : option (list TreeNode)) : t :=
  {| layerEntries := layerEntries r; _configIsComplete := _configIsComplete r;
     _proxies := _proxies r; _isTrueDynamic := _isTrueDynamic r;
     _featClasses := _featClasses r; _childTree := tree;
     _layer := _layer r; store := store r |}.

Definition with_layer (r : t) (l : EsriLayer) : t :=
  {| layerEntries := layerEntries r; _configIsComplete := _configIsComplete r;
     _proxies := _proxies r; _isTrueDynamic := _isTrueDynamic r;
     _featClasses := _featClasses r; _childTree := _childTree r;
     _layer := l; store := store r |}.

(** [constructor (..., config, esriLayer, ..., configIsComplete = false)].
    The base constructor is not among the sources; it leaves the table of
    feature classes empty and the child tree unset. No proxy exists yet. *)
Definition constructor (config : list LayerEntry) (esriLayer : EsriLayer)
    (configIsComplete : bool) : t :=
  {| layerEntries := config; _configIsComplete := configIsComplete;
     _proxies := ∅; _isTrueDynamic := false;
     _featClasses := []; _childTree := None;
     _layer := esriLayer; store := [] |}.

(** [getChildProxy (featureIdx)]: the handle returned and the record
    after the call. A cached proxy is an object, hence truthy. *)
Definition getChildProxy (featureIdx : Z) (r : t) : Handle * t :=
  let strIdx := JS.toString featureIdx in
  match _proxies r !! strIdx with
  | Some h => (h, r)
  | None =>
      let pfc := {| PlaceholderFC.name := Some "" |} in
      let tProxy := LayerInterface.constructor (LayerInterface.PlaceholderSource pfc) in
      let tProxy := LayerInterface.convertToPlaceholder pfc tProxy in
      let h := length (store r) in
      (h, with_proxies r (<[strIdx := h]> (_proxies r)) (store r ++ [tProxy]))
  end.

Definition dummyState : LayerState :=
  {| opacity := 1; visibility := false; query := false |}.

Definition with_state (c : LayerEntry) (s : option LayerState) : LayerEntry :=
  {| index := index c; name := Config.name c; state := s;
     outfields := outfields c; stateOnly := stateOnly c; extent := extent c |}.

Definition with_outfields (c : LayerEntry) (o : option string) : LayerEntry :=
  {| index := index c; name := Config.name c; state := state c;
     outfields := o; stateOnly := stateOnly c; extent := extent c |}.

Definition with_name (c : LayerEntry) (n : option string) : LayerEntry :=
  {| index := index c; name := n; state := state c;
     outfields := outfields c; stateOnly := stateOnly c; extent := extent c |}.

(** The block of [fetchSubConfig] guarded by [!subC.defaulted]. *)
Definition applyDefaults (serverName : string) (c : LayerEntry) : LayerEntry :=
  let c := with_state c (Some dummyState) in
  let c := match outfields c with
           | Some _ => c
           | None => with_outfields c (Some "*")
           end in
  if JS.truthy (Config.name c) then c else with_name c (Some serverName).

(** [fetchSubConfig (id, serverName = '')]: the config returned and the
    table [subConfigs] after the call. *)
Definition fetchSubConfig (id : string) (serverName : string)
    (subConfigs : gmap string SubConfig) : LayerEntry * gmap string SubConfig :=
  match subConfigs !! id with
  | Some subC =>
      if defaulted subC then (config subC, subConfigs)
      else
        let c := applyDefaults serverName (config subC) in
        (c, <[id := {| config := c; defaulted := true |}]> subConfigs)
  | None =>
      let newConfig :=
        {| index := JS.parseInt id; name := Some serverName;
           state := Some dummyState; outfields := Some "*";
           stateOnly := true; extent := None |} in
      (newConfig, <[id := {| config := newConfig; defaulted := true |}]> subConfigs)
  end.

(** The table [subConfigs] as [onLoad] first builds it from the config:
    a later entry with the same index overwrites an earlier one.
    [JSON.parse(JSON.stringify(le))] copies the entry. *)
Definition collateSubConfigs (entries : list LayerEntry) (complete : bool)
  : gmap string SubConfig :=
  fold_left
    (fun subConfigs le =>
       <[JS.Number_toString (index le) := {| config := le; defaulted := complete |}]> subConfigs)
    entries ∅.

(** The leaf branch of [processLayerInfo]: an existing proxy gets the new
    placeholder as source, otherwise a proxy is created for it. *)
Definition leafProxy (sId : string) (pfc : PlaceholderFC.t) (r : t) : t :=
  match _proxies r !! sId with
  | Some h =>
      with_proxies r (_proxies r)
        (alter (LayerInterface.updateSource (LayerInterface.PlaceholderSource pfc)) h (store r))
  | None =>
      let p := LayerInterface.constructor LayerInterface.NullSource in
      let p := LayerInterface.convertToPlaceholder pfc p in
      with_proxies r (<[sId := length (store r)]> (_proxies r)) (store r ++ [p])
  end.

Definition undefinedLayerInfo {A} : JS.Result A :=
  JS.Throw (JS.TypeError "Cannot read property 'id' of undefined").

(** [layerInfo.subLayerIds.forEach(slid => processLayerInfo(
    this._layer.layerInfos[slid], treeGroup.childs))], with the recursive
    call as [process]: the nodes pushed on [treeGroup.childs]. *)
Fixpoint forEachChild
    (process : LayerInfo -> gmap string SubConfig -> t ->
               JS.Result (TreeNode * gmap string SubConfig * t))
    (slids : list Z) (subConfigs : gmap string SubConfig) (r : t)
  : JS.Result (list TreeNode * gmap string SubConfig * t) :=
  match slids with
  | [] => JS.Return ([], subConfigs, r)
  | slid :: rest =>
      match JS.array_get (layerInfos (_layer r)) (JS.Int slid) with
      | None => undefinedLayerInfo
      | Some child =>
          '(node, subConfigs, r) ← process child subConfigs r;
          '(nodes, subConfigs, r) ← forEachChild process rest subConfigs r;
          JS.Return (node :: nodes, subConfigs, r)
      end
  end.

(** [processLayerInfo (layerInfo, treeArray)]: the node pushed on
    [treeArray], with the table [subConfigs] and the record after the
    call. [fuel] bounds the depth of the recursion. *)
Fixpoint processLayerInfo (fuel : nat) (layerInfo : LayerInfo)
    (subConfigs : gmap string SubConfig) (r : t)
  : JS.Result (TreeNode * gmap string SubConfig * t) :=
  match fuel with
  | O => JS.OutOfFuel
  | S fuel' =>
      let sId := JS.toString (id layerInfo) in
      let '(subC, subConfigs) := fetchSubConfig sId (li_name layerInfo) subConfigs in
      match subLayerIds layerInfo with
      | Some ((_ :: _) as slids) =>
          '(childs, subConfigs, r) ←
            forEachChild (processLayerInfo fuel') slids subConfigs r;
          JS.Return (Group (id layerInfo) (Config.name subC) childs, subConfigs, r)
      | _ =>
          let pfc := {| PlaceholderFC.name := Config.name subC |} in
          JS.Return (Leaf (id layerInfo), subConfigs, leafProxy sId pfc r)
      end
  end.

(** The loop over the sub-layer ids of a group at a given budget. *)
Definition processChildren (fuel : nat) (slids : list Z)
    (subConfigs : gmap string SubConfig) (r : t)
  : JS.Result (list TreeNode * gmap string SubConfig * t) :=
  forEachChild (processLayerInfo fuel) slids subConfigs r.

(** The loop over [this.config.layerEntries] that starts the walk at
    every entry that is not [stateOnly]. *)
Fixpoint processEntries (fuel : nat) (entries : list LayerEntry)
    (subConfigs : gmap string SubConfig) (r : t)
  : JS.Result (list TreeNode * gmap string SubConfig * t) :=
  match entries with
  | [] => JS.Return ([], subConfigs, r)
  | le :: rest =>
      if stateOnly le then processEntries fuel rest subConfigs r
      else
        match JS.array_get (layerInfos (_layer r)) (index le) with
        | None => undefinedLayerInfo
        | Some layerInfo =>
            '(node, subConfigs, r) ← processLayerInfo fuel layerInfo subConfigs r;
            '(nodes, subConfigs, r) ← processEntries fuel rest subConfigs r;
            JS.Return (node :: nodes, subConfigs, r)
        end
  end.

(** The body of [attributeBundle.indexes.forEach]. Loading symbology and
    the deferred updates of layer type, geometry type and feature count
    belong to collaborators and leave the modelled fields alone. *)
Definition loadFeatureClass (idx : string) (subConfigs : gmap string SubConfig) (r : t)
  : JS.Result t :=
  match subConfigs !! idx with
  | Some subC =>
      if defaulted subC then
        dFC ← DynamicFC.constructor idx (config subC);
        let r := with_featClasses r (JS.obj_set idx dFC (_featClasses r)) in
        JS.Return
          match _proxies r !! idx with
          | Some h =>
              with_proxies r (_proxies r)
                (alter (LayerInterface.convertToDynamicLeaf dFC) h (store r))
          | None => r
          end
      else JS.Return r
  | None => JS.Return r
  end.

Fixpoint loadFeatureClasses (idxs : list string) (subConfigs : gmap string SubConfig) (r : t)
  : JS.Result t :=
  match idxs with
  | [] => JS.Return r
  | idx :: rest =>
      r ← loadFeatureClass idx subConfigs r;
      loadFeatureClasses rest subConfigs r
  end.

(** The callback of [.filter] in the block for a complete config:
    [fetchSubConfig(fcId).config.state.visibility]. [fetchSubConfig]
    returns the config object itself, so [.config] is read from a layer
    entry; reading [state] from undefined throws. *)
Definition initVisFilter (fcId : string) (subConfigs : gmap string SubConfig)
  : JS.Result (bool * gmap string SubConfig) :=
  let '(c, subConfigs) := fetchSubConfig fcId "" subConfigs in
  match entry_config c with
  | None => JS.Throw (JS.TypeError "Cannot read property 'state' of undefined")
  | Some inner =>
      match state inner with
      | None => JS.Throw (JS.TypeError "Cannot read property 'visibility' of undefined")
      | Some st => JS.Return (visibility st, subConfigs)
      end
  end.

Fixpoint filterKeys (keys : list string) (subConfigs : gmap string SubConfig)
  : JS.Result (list string * gmap string SubConfig) :=
  match keys with
  | [] => JS.Return ([], subConfigs)
  | fcId :: rest =>
      '(keep, subConfigs) ← initVisFilter fcId subConfigs;
      '(kept, subConfigs) ← filterKeys rest subConfigs;
      JS.Return (if keep : bool then fcId :: kept else kept, subConfigs)
  end.

(** The block guarded by [this._configIsComplete]. *)
Definition setInitialVisibility (subConfigs : gmap string SubConfig) (r : t) : JS.Result t :=
  '(kept, _) ← filterKeys (JS.Object_keys (_featClasses r)) subConfigs;
  let initVis := map JS.parseInt kept in
  let initVis := if decide (length initVis = 0) then (initVis ++ [JS.Int (-1)])%list else initVis in
  let l := _layer r in
  JS.Return (with_layer r
    {| layerInfos := layerInfos l; supportsDynamicLayers := supportsDynamicLayers l;
       setVisibleLayers_calls := initVis :: setVisibleLayers_calls l |}).

(** The handler up to the end of the loop over the attribute indexes:
    the record and the table [subConfigs] at that point. The source
    assigns an empty [_childTree] first and lets the walk push onto it;
    here the walk returns the nodes and the assignment follows it. *)
Definition resolve (fuel : nat) (attributeBundle : AttributeBundle) (r : t)
  : JS.Result (gmap string SubConfig * t) :=
  let r := with_isTrueDynamic r (supportsDynamicLayers (_layer r)) in
  let subConfigs := collateSubConfigs (layerEntries r) (_configIsComplete r) in
  '(tree, subConfigs, r) ← processEntries fuel (layerEntries r) subConfigs r;
  let r := with_childTree r (Some tree) in
  r ← loadFeatureClasses (indexes attributeBundle) subConfigs r;
  JS.Return (subConfigs, r).

(** [onLoad ()]; [attributeBundle] is what [loadLayerAttribs] returns.
    The base handler [super.onLoad()] is not among the sources and does
    not touch the fields modelled here. *)
Definition onLoad (fuel : nat) (attributeBundle : AttributeBundle) (r : t) : JS.Result t :=
  '(subConfigs, r) ← resolve fuel attributeBundle r;
  if _configIsComplete r then setInitialVisibility subConfigs r
  else JS.Return r.

(** [getChildTree ()]; an array, even an empty one, is truthy. *)
Definition getChildTree (r : t) : JS.Result (list TreeNode) :=
  match _childTree r with
  | Some tree => JS.Return tree
  | None => JS.Throw (JS.Error_ "Called getChildTree before layer is loaded")
  end.

End DynamicRecord.

(** ** The feature record *)

Module AttribFC.

(** Modelled from the spec: attribFC.js is not among the sources. The
    attributed feature class is a feature class state built by the base
    constructor of [BasicFC] from an index and the layer config; the
    record then sets its [nameField]. *)
Record t : Type := mkAttribFC {
  base : BasicFC.t;
  fc_nameField : option string
}.

Definition constructor (idx : option string) (config : Config.LayerConfig) : JS.Result t :=
  b ← BasicFC.constructor idx config;
  JS.Return {| base := b; fc_nameField := None |}.

Definition set_nameField (aFC : t) (nameField : option string) : t :=
  {| base := base aFC; fc_nameField := nameField |}.

End AttribFC.

Module FeatureRecord.

(** What the table [_featClasses] of a feature record holds. *)
Inductive FeatureClass : Type :=
| Placeholder (pfc : PlaceholderFC.t)
| Attrib (aFC : AttribFC.t).

Record t : Type := mkRecord {
  name : option string;
  config : Config.LayerConfig;
  _defaultFC : option string;
  _featClasses : gmap string FeatureClass
}.

(** The key a value that is a string or undefined names in [obj[v]]. *)
Definition propertyKey (v : option string) : string :=
  match v with
  | Some s => s
  | None => "undefined"
  end.

(** [constructor (...)]: [layerName] and [featClasses] are [this.name]
    and [this._featClasses] as the base constructor, which is not among
    the sources, leaves them. *)
Definition constructor (layerName : option string) (config : Config.LayerConfig)
    (featClasses : gmap string FeatureClass) : t :=
  {| name := layerName;
     config := config;
     _defaultFC := Some "0";
     _featClasses := <["0" := Placeholder {| PlaceholderFC.name := layerName |}]> featClasses |}.

(** [onLoad ()]: the record after the handler and the exception it
    raised, if any. [indexes] is [attributeBundle.indexes]. The
    constructor of the feature class is the one step of the modelled part
    that can throw, and it comes before the record is written to. The
    constructor does not recurse, so its budget never runs out; that case
    leaves the record alone. *)
Definition onLoad (indexes : list string) (r : t) : t * option JS.Error :=
  let idx := indexes !! 0 in
  match AttribFC.constructor idx (config r) with
  | JS.Return aFC =>
      let aFC := AttribFC.set_nameField aFC (Config.nameField (config r)) in
      ({| name := name r;
          config := config r;
          _defaultFC := idx;
          _featClasses := <[propertyKey idx := Attrib aFC]> (_featClasses r) |}, None)
  | JS.Throw e => (r, Some e)
  | JS.OutOfFuel => (r, None)
  end.

(** The feature class that dispatch through [this._defaultFC] finds. *)
Definition defaultFeatureClass (r : t) : option FeatureClass :=
  _featClasses r !! propertyKey (_defaultFC r).

End FeatureRecord.

(** ** Notions used to state the properties of a dynamic record *)

Module DynamicSpec.

Import DynamicRecord.

(** The table after a sequence of calls [fetchSubConfig (id, serverName)]. *)
Definition fetchAll (calls : list (string * string)) (subConfigs : gmap string SubConfig)
  : gmap string SubConfig :=
  fold_left (fun sc call => (fetchSubConfig call.1 call.2 sc).2) calls subConfigs.

(** The defaulted marker of an index in a table; false while there is no
    entry. *)
Definition marker (subConfigs : gmap string SubConfig) (id : string) : bool :=
  match subConfigs !! id with
  | Some subC => defaulted subC
  | None => false
  end.

(** The states a record goes through before its layer has loaded: as
    constructed, and after any calls of [getChildProxy]. *)
Inductive PreLoad : t -> Prop :=
| preload_constructed config esriLayer configIsComplete :
    PreLoad (constructor config esriLayer configIsComplete)
| preload_getChildProxy featureIdx r :
    PreLoad r -> PreLoad (getChildProxy featureIdx r).2.

(** The table of proxies names objects of the store, one per key. *)
Definition ProxiesOk (r : t) : Prop :=
  (forall k h, _proxies r !! k = Some h -> h < length (store r))
  /\ (forall k1 k2 h, _proxies r !! k1 = Some h -> _proxies r !! k2 = Some h -> k1 = k2).

(** [r'] comes from [r] by steps that create proxies or change what a
    proxy points at, and write nothing else. *)
Record Extends (r r' : t) : Prop := mkExtends {
  ext_entries : layerEntries r' = layerEntries r;
  ext_complete : _configIsComplete r' = _configIsComplete r;
  ext_trueDynamic : _isTrueDynamic r' = _isTrueDynamic r;
  ext_featClasses : _featClasses r' = _featClasses r;
  ext_childTree : _childTree r' = _childTree r;
  ext_layer : _layer r' = _layer r;
  ext_proxies : forall k h, _proxies r !! k = Some h -> _proxies r' !! k = Some h;
  ext_ok : ProxiesOk r -> ProxiesOk r'
}.

(** Defaulted entries of [sc] are entries of [sc']. *)
Definition Settled (sc sc' : gmap string SubConfig) : Prop :=
  forall k subC, sc !! k = Some subC -> defaulted subC = true -> sc' !! k = Some subC.

(** Every defaulted entry has a state. *)
Definition StateReady (sc : gmap string SubConfig) : Prop :=
  forall k subC, sc !! k = Some subC -> defaulted subC = true ->
                 is_Some (Config.state (config subC)).

(** The tree node the walk builds from a server node: a leaf with the
    index of a node without sub-layer ids, or a group with the index of the
    node, the name its sub-config has in the table [sc], and the nodes
    built from its children in the order of the server. A sub-layer id is
    resolved the way the code resolves it, [layerInfos[slid]], that is by
    position in the list; it is the node carrying that id when the server
    numbers its sub-layers by position. *)
Inductive Mirrors (infos : list LayerInfo) (sc : gmap string SubConfig)
  : LayerInfo -> TreeNode -> Prop :=
| mirrors_leaf layerInfo :
    subLayerIds layerInfo = None \/ subLayerIds layerInfo = Some [] ->
    Mirrors infos sc layerInfo (Leaf (id layerInfo))
| mirrors_group layerInfo slids subC childs :
    subLayerIds layerInfo = Some slids ->
    slids <> [] ->
    sc !! JS.toString (id layerInfo) = Some subC ->
    Forall2 (fun slid node =>
               exists child, JS.array_get infos (JS.Int slid) = Some child
                             /\ Mirrors infos sc child node) slids childs ->
    Mirrors infos sc layerInfo (Group (id layerInfo) (Config.name (config subC)) childs).

(** The tree of a config: one mirror per entry that is not [stateOnly],
    in the order of the config. *)
Definition MirrorsConfig (infos : list LayerInfo) (sc : gmap string SubConfig)
    (entries : list Config.LayerEntry) (tree : list TreeNode) : Prop :=
  Forall2 (fun le node =>
             exists layerInfo, JS.array_get infos (Config.index le) = Some layerInfo
                               /\ Mirrors infos sc layerInfo node)
          (List.filter (fun le => negb (Config.stateOnly le)) entries) tree.

(** A hierarchy as map services report it: the sub-layer ids of the node
    at a position are positions of the list further down. *)
Definition Hierarchy (infos : list LayerInfo) : Prop :=
  forall p layerInfo slids slid,
    infos !! p = Some layerInfo -> subLayerIds layerInfo = Some slids -> slid ∈ slids ->
    (Z.of_nat p < slid < Z.of_nat (length infos))%Z.

(** Every entry of the config that starts a walk names a position of the
    server's list. *)
Definition ConfigOnServer (entries : list Config.LayerEntry) (infos : list LayerInfo) : Prop :=
  forall le, le ∈ entries -> Config.stateOnly le = false ->
             is_Some (JS.array_get infos (Config.index le)).

(** The source an access goes to. *)
Definition accessedSource (a : LayerInterface.Access) : option LayerInterface.Source :=
  match a with
  | LayerInterface.ReadProperty src _
  | LayerInterface.WriteProperty src _
  | LayerInterface.CallMethod src _ => Some src
  | LayerInterface.ReturnUndefined | LayerInterface.ConsoleLog => None
  end.

(** How the table [sc] derives from the table [sc0] built from the
    config: an index has an entry in [sc] if it had one in [sc0]; and an
    entry of [sc] is the entry of [sc0], or it is defaulted and holds what
    a first fetch on [sc0] returns for that index with the name of a
    server node of that id. *)
Definition ResolvedFrom (sc0 : gmap string SubConfig) (infos : list LayerInfo)
    (sc : gmap string SubConfig) : Prop :=
  (forall k, sc !! k = None -> sc0 !! k = None)
  /\ forall k subC, sc !! k = Some subC ->
       sc0 !! k = Some subC
       \/ (defaulted subC = true
           /\ exists layerInfo, layerInfo ∈ infos /\ JS.toString (id layerInfo) = k
                /\ config subC = (fetchSubConfig k (li_name layerInfo) sc0).1).

(** What a call of the walk that returns establishes: the record is
    extended, defaulted entries are kept, states stay in place, and the
    result satisfies [P] against any later table. *)
Definition WalkOk {A} (P : gmap string SubConfig -> list LayerInfo -> A -> Prop)
    (sc : gmap string SubConfig) (r : t) (res : A * gmap string SubConfig * t) : Prop :=
  Extends r res.2
  /\ Settled sc res.1.2
  /\ (StateReady sc -> StateReady res.1.2)
  /\ forall final, Settled res.1.2 final -> P final (layerInfos (_layer r)) res.1.1.

(** [WalkOk] for the node [processLayerInfo] returns at a given budget. *)
Definition NodeOk (fuel : nat) : Prop :=
  forall layerInfo sc r res,
    processLayerInfo fuel layerInfo sc r = JS.Return res ->
    WalkOk (fun final infos node => Mirrors infos final layerInfo node) sc r res.

(** The proxy [getChildProxy] builds for an index it has not seen. *)
Definition freshPlaceholderProxy : LayerInterface.t :=
  LayerInterface.convertToPlaceholder {| PlaceholderFC.name := Some "" |}
    (LayerInterface.constructor
       (LayerInterface.PlaceholderSource {| PlaceholderFC.name := Some "" |})).

(** Every cached proxy is a placeholder. *)
Definition AllPlaceholders (r : t) : Prop :=
  forall k h, _proxies r !! k = Some h ->
    exists i pfc, store r !! h = Some i
                  /\ LayerInterface.isPlaceholder i = true
                  /\ LayerInterface._source i = LayerInterface.PlaceholderSource pfc.

(** A feature class in the table and the proxy cached for its key belong
    together: the proxy was converted to a dynamic leaf on it. *)
Definition Linked (r : t) : Prop :=
  forall k dFC h,
    JS.obj_get (_featClasses r) k = Some dFC -> _proxies r !! k = Some h ->
    exists i0, store r !! h = Some (LayerInterface.convertToDynamicLeaf dFC i0).

(** What the loop over the attribute indexes leaves alone. *)
Record Loaded (r r' : t) : Prop := mkLoaded {
  ld_entries : layerEntries r' = layerEntries r;
  ld_complete : _configIsComplete r' = _configIsComplete r;
  ld_trueDynamic : _isTrueDynamic r' = _isTrueDynamic r;
  ld_childTree : _childTree r' = _childTree r;
  ld_layer : _layer r' = _layer r;
  ld_proxies : _proxies r' = _proxies r;
  ld_store : length (store r') = length (store r);
  ld_nonempty : _featClasses r <> [] -> _featClasses r' <> [];
  ld_linked : ProxiesOk r -> Linked r -> Linked r'
}.

(** On the hierarchy [infos], a walk from position [p] with at least as
    much budget as there are positions from [p] on returns. *)
Definition NodeReturns (infos : list LayerInfo) (fuel : nat) : Prop :=
  forall p layerInfo sc r,
    layerInfos (_layer r) = infos ->
    infos !! p = Some layerInfo ->
    length infos - p <= fuel ->
    exists res, processLayerInfo fuel layerInfo sc r = JS.Return res.

(** A walk keeps the table derived from [sc0]. *)
Definition NodeResolved (sc0 : gmap string SubConfig) (infos : list LayerInfo)
    (fuel : nat) : Prop :=
  forall layerInfo sc r res,
    layerInfos (_layer r) = infos -> layerInfo ∈ infos ->
    ResolvedFrom sc0 infos sc ->
    processLayerInfo fuel layerInfo sc r = JS.Return res ->
    ResolvedFrom sc0 infos res.1.2.

End DynamicSpec.

(** ** A sample record *)

(** The hierarchy 1 > (2, 3 > 4) behind a node 0, index 1 configured. *)
Definition exampleRecord : DynamicRecord.t :=
  DynamicRecord.constructor
    [Config.mkEntry (JS.Int 1) None None None false None]
    (DynamicRecord.mkEsriLayer
       [ DynamicRecord.mkLayerInfo 0 "Base" None;
         DynamicRecord.mkLayerInfo 1 "Water" (Some [2; 3]%Z);
         DynamicRecord.mkLayerInfo 2 "Lakes" None;
         DynamicRecord.mkLayerInfo 3 "Rivers" (Some [4]%Z);
         DynamicRecord.mkLayerInfo 4 "Streams" None ]
       true [])
    false.

Definition exampleBundle : DynamicRecord.AttributeBundle :=
  DynamicRecord.mkBundle ["2"; "4"].

(** ** dynamicRecord.js: the methods that address a child *)

Module DynamicChild.

Import DynamicRecord.

(** [this._featClasses[childIdx]] followed by a member access, the way
    every method that hands a request to the feature class of a child
    starts. [childIdx] is the index of a sub-layer, an integer or its
    decimal string, so the key is [JS.toString childIdx]. A decimal string
    names no member of [Object.prototype], hence the lookup finds an own
    entry of the table or undefined; keys that are no index (for which the
    lookup would reach the prototype) are not in the domain of this
    function. *)
Definition featClass (childIdx : Z) (r : t) : JS.Result DynamicFC.t :=
  match JS.obj_get (_featClasses r) (JS.toString childIdx) with
  | Some dFC => JS.Return dFC
  | None => JS.Throw (JS.TypeError "Cannot read property of undefined")
  end.

(** [isQueryable (childIdx)]: [this._featClasses[childIdx].queryable],
    for the index of a sub-layer. *)
Definition isQueryable (childIdx : Z) (r : t) : JS.Result bool :=
  dFC ← featClass childIdx r;
  JS.Return (BasicFC.queryable (DynamicFC.base dFC)).

(** [getChildName (index)]: [this._layer.layerInfos[index].name]. *)
Definition getChildName (index : JS.Number) (r : t) : JS.Result string :=
  match JS.array_get (layerInfos (_layer r)) index with
  | Some layerInfo => JS.Return (li_name layerInfo)
  | None => JS.Throw (JS.TypeError "Cannot read property 'name' of undefined")
  end.

(** The array [identifyResults] of [identify (opts)] after the loop over
    [opts.layerIds]: [identifyResults[leafIndex] = identifyResult]. An
    array is an object whose elements sit under array-index keys; the
    result created for a leaf stands here for that leaf index. *)
Definition identifyResults (layerIds : list Z) : list (string * Z) :=
  fold_left (fun arr leafIndex => JS.obj_set (JS.toString leafIndex) leafIndex arr)
            layerIds [].

(** [arr.filter(x => x)] on an array of objects: the elements in index
    order, holes skipped; a property under a key that is no array index is
    no element. *)
Definition collapse {V} (arr : list (string * V)) : list V :=
  map snd (List.filter (fun kv => bool_decide (is_Some (JS.arrayIndex kv.1))) arr).

(** The leaf indexes of the [identifyResults] that [identify] returns. *)
Definition identify (layerIds : list Z) : list Z :=
  collapse (identifyResults layerIds).

(** The entry indexes of the leaves of a node, and of all its nodes, in
    the order of the tree. *)
Fixpoint leaves (node : TreeNode) : list Z :=
  match node with
  | Leaf entryIndex => [entryIndex]
  | Group _ _ childs => flat_map leaves childs
  end.

Fixpoint nodeIds (node : TreeNode) : list Z :=
  match node with
  | Leaf entryIndex => [entryIndex]
  | Group entryIndex _ childs => entryIndex :: flat_map nodeIds childs
  end.

(** The groups of a node, at any depth, each with its index and name. *)
Fixpoint groups (node : TreeNode) : list (Z * option string) :=
  match node with
  | Leaf _ => []
  | Group entryIndex name childs => (entryIndex, name) :: flat_map groups childs
  end.

End DynamicChild.

(** ** layerInterface.js: sequences of conversions *)

Module Conversions.

Import LayerInterface.

(** A call that changes what an interface points at or how it answers. *)
Inductive Conversion : Type :=
| UpdateSource (newSource : Source)
| ToSingleLayer (layerRecord : Source)
| ToFeatureLayer (layerRecord : Source)
| ToDynamicLeaf (dynamicFC : DynamicFC.t)
| ToPlaceholder (placeholderFC : PlaceholderFC.t).

Definition convert (c : Conversion) (this : t) : t :=
  match c with
  | UpdateSource newSource => updateSource newSource this
  | ToSingleLayer layerRecord => convertToSingleLayer layerRecord this
  | ToFeatureLayer layerRecord => convertToFeatureLayer layerRecord this
  | ToDynamicLeaf dynamicFC => convertToDynamicLeaf dynamicFC this
  | ToPlaceholder placeholderFC => convertToPlaceholder placeholderFC this
  end.

(** The calls in turn, the first of the list first. *)
Definition convertAll (cs : list Conversion) (this : t) : t :=
  fold_left (fun i c => convert c i) cs this.

(** The property or method still raises the error of the class body. *)
Definition getterIsStub (this : t) (p : PropName) : Prop := getters this p = iAmError.
Definition methodIsStub (this : t) (m : MethodName) : Prop := methods this m = iAmErrorMethod.

End Conversions.

(** ** The simple record: hover listeners *)

Module SimpleRecord.

(** A listener callback; callbacks are told apart by identity. *)
Definition Listener : Type := nat.

(** [arr.indexOf(x)], [None] for -1. *)
Fixpoint indexOf (arr : list Listener) (x : Listener) : option nat :=
  match arr with
  | [] => None
  | y :: rest => if decide (y = x) then Some 0 else S <$> indexOf rest x
  end.

(** [addHoverListener (listenerCallback)]: the callback returned and the
    list [_hoverListeners] after the call. *)
Definition addHoverListener (listenerCallback : Listener) (_hoverListeners : list Listener)
  : Listener * list Listener :=
  (listenerCallback, (_hoverListeners ++ [listenerCallback])%list).

(** [removeHoverListener (listenerCallback)]: the list after the call;
    [splice(idx, 1)] takes out the element at [idx]. *)
Definition removeHoverListener (listenerCallback : Listener) (_hoverListeners : list Listener)
  : JS.Result (list Listener) :=
  match indexOf _hoverListeners listenerCallback with
  | None => JS.Throw (JS.Error_ "Attempting to remove a listener which is not registered.")
  | Some idx => JS.Return (delete idx _hoverListeners)
  end.

End SimpleRecord.

(** ** The feature record: its root proxy *)

Module FeatureProxy.

(** [getProxy ()] of the feature record: the proxy returned and the field
    [_rootProxy] after the call. The record itself is the source. *)
Definition getProxy (_rootProxy : option LayerInterface.t)
  : LayerInterface.t * option LayerInterface.t :=
  match _rootProxy with
  | Some p => (p, Some p)
  | None =>
      let p := LayerInterface.constructor LayerInterface.RecordSource in
      let p := LayerInterface.convertToFeatureLayer LayerInterface.RecordSource p in
      (p, Some p)
  end.

End FeatureProxy.

(** ** dynamicRecord.js: the record and the table after the load *)

Module DynamicState.

Import DynamicRecord.

(** The proxy cached for a key is a placeholder as long as the key has no
    feature class, and points at the feature class once there is one. *)
Definition ProxyState (r : t) : Prop :=
  forall k h, _proxies r !! k = Some h ->
    exists i, store r !! h = Some i
      /\ match JS.obj_get (_featClasses r) k with
         | Some dFC =>
             LayerInterface.isPlaceholder i = false
             /\ LayerInterface._source i = LayerInterface.DynamicSource dFC
         | None =>
             LayerInterface.isPlaceholder i = true
             /\ exists pfc, LayerInterface._source i = LayerInterface.PlaceholderSource pfc
         end.

(** Every leaf under a node has a proxy cached under its index. *)
Definition LeavesCached (node : TreeNode) (r : t) : Prop :=
  forall z, z ∈ DynamicChild.leaves node -> is_Some (_proxies r !! JS.toString z).

(** The indexes marked defaulted in [sc'] are those marked in [sc] and the
    keys of [ids]. *)
Definition Marks (sc sc' : gmap string SubConfig) (ids : list Z) : Prop :=
  forall k, DynamicSpec.marker sc' k = true
            <-> DynamicSpec.marker sc k = true \/ exists z, z ∈ ids /\ k = JS.toString z.

(** Every feature class of the table was built from the defaulted entry
    the table [sc] has for its key. *)
Definition BuiltFrom (sc : gmap string SubConfig) (r : t) : Prop :=
  forall k dFC, JS.obj_get (_featClasses r) k = Some dFC ->
    exists subC, sc !! k = Some subC /\ defaulted subC = true
                 /\ DynamicFC.constructor k (config subC) = JS.Return dFC.

(** The server numbers its sub-layers by their position in [layerInfos],
    as map services do. *)
Definition IdsArePositions (infos : list LayerInfo) : Prop :=
  forall p layerInfo, infos !! p = Some layerInfo -> id layerInfo = Z.of_nat p.

(** The record the load leaves behind: what [onLoad] returns, or the
    record at the end of the loop over the attribute indexes. *)
Definition LoadedFrom (fuel : nat) (bundle : AttributeBundle) (r r' : t) : Prop :=
  onLoad fuel bundle r = JS.Return r'
  \/ exists sc, resolve fuel bundle r = JS.Return (sc, r').

End DynamicState.

(** ** Own-property order *)

Module OwnPropertyOrder.

(** A property may stand before another in an object when the other has
    no array-index key, or both have one and the first is smaller. *)
Definition KeyOrder {V} (x y : string * V) : Prop :=
  JS.arrayIndex y.1 = None \/ JS.precedes x.1 y.1 = true.

(** An array whose element under each key is the number the key spells. *)
Definition IndexedByValue (arr : list (string * Z)) : Prop :=
  StronglySorted KeyOrder arr /\ forall k v, (k, v) ∈ arr -> k = JS.toString v.

End OwnPropertyOrder.

(** ** What a load yields, the proxies set aside *)

Module LoadOutcome.

Import DynamicRecord.

(** What a walk hands back to its caller: the nodes and the table, or
    the error. *)
Definition walkOutcome {A} (res : JS.Result (A * gmap string SubConfig * t))
  : JS.Result (A * gmap string SubConfig) :=
  x ← res; JS.Return x.1.

(** What a load leaves for the methods that do not go through a proxy:
    the tree, the feature classes and the esri layer, or the error. *)
Definition loadOutcome (res : JS.Result t)
  : JS.Result (option (list TreeNode) * list (string * DynamicFC.t) * EsriLayer) :=
  r ← res; JS.Return (_childTree r, _featClasses r, _layer r).

(** Two records that differ in their proxies at most. *)
Definition SameCore (r1 r2 : t) : Prop :=
  layerEntries r1 = layerEntries r2
  /\ _configIsComplete r1 = _configIsComplete r2
  /\ _featClasses r1 = _featClasses r2
  /\ _layer r1 = _layer r2.

End LoadOutcome.

(** ** The child tree as a mirror of the hierarchy *)

Module TreeSpec.

Import DynamicRecord.

(** The config entry is about the sub-layer [z]. *)
Definition hasIndex (le : Config.LayerEntry) (z : Z) : bool :=
  match Config.index le with
  | JS.Int z' => (z' =? z)%Z
  | JS.NaN => false
  end.

(** The config entry in force for a sub-layer: the last entry of the
    config with its index. *)
Fixpoint configuredEntry (entries : list Config.LayerEntry) (z : Z)
  : option Config.LayerEntry :=
  match entries with
  | [] => None
  | le :: rest =>
      match configuredEntry rest z with
      | Some le' => Some le'
      | None => if hasIndex le z then Some le else None
      end
  end.

(** The name of the group of sub-layer [z], which the server calls
    [serverName]: without a config entry the server name; with an entry of
    a config marked complete the configured name as it stands; with an
    entry of any other config the configured name when it is non-empty and
    the server name otherwise. *)
Definition groupName (complete : bool) (entries : list Config.LayerEntry) (z : Z)
    (serverName : string) : option string :=
  match configuredEntry entries z with
  | Some le =>
      if complete then Config.name le
      else if JS.truthy (Config.name le) then Config.name le else Some serverName
  | None => Some serverName
  end.

(** The tree node that mirrors a server node, sub-layers found by id: a
    leaf with the id of a node without sub-layer ids, or a group with the
    id of the node, its name, and the mirrors of the nodes carrying its
    sub-layer ids, in the order of the server. *)
Inductive MirrorsById (infos : list LayerInfo) (complete : bool)
    (entries : list Config.LayerEntry) : LayerInfo -> TreeNode -> Prop :=
| by_id_leaf layerInfo :
    subLayerIds layerInfo = None \/ subLayerIds layerInfo = Some [] ->
    MirrorsById infos complete entries layerInfo (Leaf (id layerInfo))
| by_id_group layerInfo slids childs :
    subLayerIds layerInfo = Some slids ->
    slids <> [] ->
    Forall2 (fun slid node =>
               exists child, child ∈ infos /\ id child = slid
                             /\ MirrorsById infos complete entries child node) slids childs ->
    MirrorsById infos complete entries layerInfo
      (Group (id layerInfo)
             (groupName complete entries (id layerInfo) (li_name layerInfo)) childs).

(** The tree of a config: one mirror per entry that is not [stateOnly],
    in the order of the config, of the server node carrying the index of
    the entry as its id. *)
Definition MirrorsConfigById (infos : list LayerInfo) (complete : bool)
    (entries : list Config.LayerEntry) (tree : list TreeNode) : Prop :=
  Forall2 (fun le node =>
             exists layerInfo, layerInfo ∈ infos
                               /\ Config.index le = JS.Int (id layerInfo)
                               /\ MirrorsById infos complete entries layerInfo node)
          (List.filter (fun le => negb (Config.stateOnly le)) entries) tree.

End TreeSpec.

(** * Properties *)

(** ** Keys *)

Section Keys.

(** Distinct indexes have distinct keys, and a key reads back as its
    index. *)
Lemma toString_inj (z1 z2 : Z) : JS.toString z1 = JS.toString z2 -> z1 = z2.
Proof.
  unfold JS.toString. intros H.
  apply (f_equal NilEmpty.int_of_string) in H.
  rewrite !NilEmpty.isi in H. injection H as H.
  apply (f_equal Z.of_int) in H. rewrite !DecimalZ.of_to in H. exact H.
Qed.

Lemma parseInt_toString (z : Z) : JS.parseInt (JS.toString z) = JS.Int z.
Proof.
  unfold JS.parseInt, JS.toString.
  pose proof (NilEmpty.isi (Z.to_int z)) as Hisi.
  destruct (decide (NilEmpty.string_of_int (Z.to_int z) = ""
                    \/ NilEmpty.string_of_int (Z.to_int z) = "-")) as [[He | He] | _].
  - rewrite He in Hisi. cbn in Hisi. injection Hisi as Hisi.
    apply (f_equal Z.of_int) in Hisi. rewrite DecimalZ.of_to in Hisi. cbn in Hisi.
    subst z. discriminate.
  - rewrite He in Hisi. cbn in Hisi. injection Hisi as Hisi.
    apply (f_equal Z.of_int) in Hisi. rewrite DecimalZ.of_to in Hisi. cbn in Hisi.
    subst z. discriminate.
  - rewrite Hisi, DecimalZ.of_to. reflexivity.
Qed.

End Keys.

(** ** Scale visibility ([BasicFC.isOffScale]) *)

Section OffScale.

Import BasicFC.

Lemma lt_true_iff (x y : Q) : JS.lt x y = true <-> (x < y)%Q.
Proof.
  unfold JS.lt. rewrite negb_true_iff, <- not_true_iff_false, Qle_bool_iff.
  split; [apply Qnot_le_lt | apply Qlt_not_le].
Qed.

Lemma strict_neq_true_iff (x y : Q) : JS.strict_neq x y = true <-> ~ (x == y)%Q.
Proof.
  unfold JS.strict_neq.
  rewrite negb_true_iff, <- not_true_iff_false, Qeq_bool_iff. reflexivity.
Qed.

Lemma first_branch_iff (mapScale bound : Q) :
  JS.lt mapScale bound && JS.strict_neq bound 0 = true
  <-> (mapScale < bound)%Q /\ ~ (bound == 0)%Q.
Proof. rewrite andb_true_iff, lt_true_iff, strict_neq_true_iff. reflexivity. Qed.

Lemma second_branch_iff (mapScale bound : Q) :
  JS.gt mapScale bound && JS.strict_neq bound 0 = true
  <-> (bound < mapScale)%Q /\ ~ (bound == 0)%Q.
Proof.
  unfold JS.gt. rewrite andb_true_iff, lt_true_iff, strict_neq_true_iff. reflexivity.
Qed.

(** The three branches of the handler, by the conditions of the source. *)
Lemma offScaleOf_cases (mapScale : Q) (scaleSet : ScaleSet) :
  let tooFarIn := (mapScale < maxScale scaleSet)%Q /\ ~ (maxScale scaleSet == 0)%Q in
  let tooFarOut := (minScale scaleSet < mapScale)%Q /\ ~ (minScale scaleSet == 0)%Q in
  (tooFarIn -> offScaleOf mapScale scaleSet = {| offScale := true; zoomIn := false |})
  /\ (~ tooFarIn -> tooFarOut ->
      offScaleOf mapScale scaleSet = {| offScale := true; zoomIn := true |})
  /\ (~ tooFarIn -> ~ tooFarOut ->
      offScaleOf mapScale scaleSet = {| offScale := false; zoomIn := false |}).
Proof.
  cbv zeta. unfold offScaleOf.
  destruct (JS.lt mapScale (maxScale scaleSet) && JS.strict_neq (maxScale scaleSet) 0)
    eqn:Hin.
  - apply first_branch_iff in Hin. repeat split; intros; tauto.
  - assert (Hnin : ~ ((mapScale < maxScale scaleSet)%Q /\ ~ (maxScale scaleSet == 0)%Q)).
    { rewrite <- first_branch_iff, Hin. discriminate. }
    destruct (JS.gt mapScale (minScale scaleSet) && JS.strict_neq (minScale scaleSet) 0)
      eqn:Hout.
    + apply second_branch_iff in Hout. repeat split; intros; tauto.
    + assert (~ ((minScale scaleSet < mapScale)%Q /\ ~ (minScale scaleSet == 0)%Q)).
      { rewrite <- second_branch_iff, Hout. discriminate. }
      repeat split; intros; tauto.
Qed.

End OffScale.

(** C2, as stated, fails: with [minScale = 0] and [maxScale = 5000] the map
    scale 4000 is off-scale with [zoomIn] false, while the rule of the
    specification asks to zoom in there. *)
Lemma isOffScale_zoom_direction_counterexample :
  let l := {| BasicFC.layer_minScale := 0; BasicFC.layer_maxScale := 5000 |} in
  let scaleSet := {| BasicFC.minScale := 0; BasicFC.maxScale := 5000 |} in
  BasicFC.isOffScale (BasicFC.getScaleSet l) 4000
    = JS.Fulfilled {| BasicFC.offScale := true; BasicFC.zoomIn := false |}
  /\ BasicFC.spec_offScaleOf 4000 scaleSet
    = {| BasicFC.offScale := true; BasicFC.zoomIn := true |}
  /\ BasicFC.isOffScale (BasicFC.getScaleSet l) 4000
    <> JS.Fulfilled (BasicFC.spec_offScaleOf 4000 scaleSet).
Proof. cbv zeta. split; [reflexivity | split; [reflexivity | discriminate]]. Qed.

(** C2, amended: for every scale set a feature class reports and every map
    scale, the off-scale check is fulfilled with a result fixed by the
    scale set (for the base class, the bounds of the esri layer): when the map scale is
    below a non-zero [maxScale] the class is off-scale and [zoomIn] is false
    (zoom out to fix); otherwise, when the map scale is above a non-zero
    [minScale], the class is off-scale and [zoomIn] is true (zoom in to
    fix); otherwise it is on-scale. With bounds (0, 5000) the scale 4000 is
    off-scale with [zoomIn] false and 6000 is on-scale; with bounds
    (10000, 0) the scale 20000 is off-scale with [zoomIn] true. *)
Theorem isOffScale_rule :
  (forall (scaleSet : BasicFC.ScaleSet) (mapScale : Q),
      let tooFarIn := (mapScale < BasicFC.maxScale scaleSet)%Q
                      /\ ~ (BasicFC.maxScale scaleSet == 0)%Q in
      let tooFarOut := (BasicFC.minScale scaleSet < mapScale)%Q
                       /\ ~ (BasicFC.minScale scaleSet == 0)%Q in
      exists res,
        BasicFC.isOffScale (JS.Fulfilled scaleSet) mapScale = JS.Fulfilled res
        /\ (tooFarIn -> res = {| BasicFC.offScale := true; BasicFC.zoomIn := false |})
        /\ (~ tooFarIn -> tooFarOut ->
            res = {| BasicFC.offScale := true; BasicFC.zoomIn := true |})
        /\ (~ tooFarIn -> ~ tooFarOut ->
            res = {| BasicFC.offScale := false; BasicFC.zoomIn := false |}))
  /\ (forall l : BasicFC.Layer,
        BasicFC.getScaleSet l
        = JS.Fulfilled {| BasicFC.minScale := BasicFC.layer_minScale l;
                          BasicFC.maxScale := BasicFC.layer_maxScale l |})
  /\ BasicFC.isOffScale (BasicFC.getScaleSet (BasicFC.mkLayer 0 5000)) 4000
     = JS.Fulfilled {| BasicFC.offScale := true; BasicFC.zoomIn := false |}
  /\ BasicFC.isOffScale (BasicFC.getScaleSet (BasicFC.mkLayer 0 5000)) 6000
     = JS.Fulfilled {| BasicFC.offScale := false; BasicFC.zoomIn := false |}
  /\ BasicFC.isOffScale (BasicFC.getScaleSet (BasicFC.mkLayer 10000 0)) 20000
     = JS.Fulfilled {| BasicFC.offScale := true; BasicFC.zoomIn := true |}.
Proof.
  split; [| repeat split].
  intros scaleSet mapScale tooFarIn tooFarOut.
  exists (BasicFC.offScaleOf mapScale scaleSet).
  split; [reflexivity |].
  apply (offScaleOf_cases mapScale scaleSet).
Qed.

(** ** Title lookup in a WMS catalog ([getWMSLayerTitle]) *)

Section WmsTitle.

Import WmsFC.

(** The inner loop of the callback is the function itself on the children. *)
Lemma someCallback_unfold (wmsLayerId : string) (layerInfo : WMSLayerInfo) :
  someCallback wmsLayerId layerInfo =
  if decide (name layerInfo = Some wmsLayerId) then (Some layerInfo, true)
  else match subLayers layerInfo with
       | Some children =>
           (None, bool_decide (is_Some (crawlSubLayers children wmsLayerId)))
       | None => (None, false)
       end.
Proof.
  destruct layerInfo as [n ti subs]. simpl.
  destruct (decide (n = Some wmsLayerId)); [reflexivity |].
  destruct subs as [children |]; [| reflexivity].
  match goal with
  | |- (_, bool_decide (is_Some ?inner)) = _ =>
      assert (Hinner : inner = crawlSubLayers children wmsLayerId)
  end.
  { induction children as [| li rest IH]; [reflexivity |].
    cbn [crawlSubLayers]. rewrite <- IH. reflexivity. }
  rewrite Hinner. reflexivity.
Qed.

(** Whatever the nesting, the entry returned is one of the entries the
    search started on: an entry found in a recursive call stops the
    search but is not handed up. *)
Lemma crawlSubLayers_top_level (l : list WMSLayerInfo) (wmsLayerId : string) (m : WMSLayerInfo) :
  crawlSubLayers l wmsLayerId = Some m -> m ∈ l /\ name m = Some wmsLayerId.
Proof.
  induction l as [| li rest IH]; simpl; [discriminate |].
  rewrite someCallback_unfold.
  destruct (decide (name li = Some wmsLayerId)) as [Heq | Hne].
  - intros [= <-]. split; [constructor | exact Heq].
  - destruct (subLayers li) as [children |].
    + destruct (bool_decide (is_Some (crawlSubLayers children wmsLayerId)));
        [discriminate |].
      intros H. destruct (IH H). split; [constructor |]; assumption.
    + intros H. destruct (IH H). split; [constructor |]; assumption.
Qed.

(** On a catalog without nesting the lookup and the wording of the
    specification agree. *)
Lemma getWMSLayerTitle_flat (l : list WMSLayerInfo) (wmsLayerId : string) :
  Forall (fun li => subLayers li = None) l ->
  getWMSLayerTitle l wmsLayerId = spec_title l wmsLayerId.
Proof.
  unfold getWMSLayerTitle, spec_title. intros Hflat.
  assert (H : crawlSubLayers l wmsLayerId
              = List.find (fun li => bool_decide (name li = Some wmsLayerId))
                          (flat_map preorder l)).
  { induction Hflat as [| li rest Hli _ IH]; simpl; [reflexivity |].
    rewrite someCallback_unfold.
    destruct li as [n ti subs]. simpl in *. subst subs. simpl.
    destruct (decide (n = Some wmsLayerId)) as [Heq | Hne].
    - rewrite bool_decide_eq_true_2 by exact Heq. reflexivity.
    - rewrite bool_decide_eq_false_2 by exact Hne. exact IH. }
  rewrite H. reflexivity.
Qed.

End WmsTitle.

(** C3: the code loses a match that sits below the top level. For the
    catalog [root > child] and the id of the child, the first node in
    pre-order named "child" has the title "Child", yet the lookup returns
    the empty string; and a nested match in an earlier branch also hides a
    later top-level entry of that name. *)
Theorem getWMSLayerTitle_nested_match_lost :
  let child := WmsFC.mkInfo (Some "child") (Some "Child") None in
  let root := WmsFC.mkInfo (Some "root") (Some "Root") (Some [child]) in
  let later := WmsFC.mkInfo (Some "child") (Some "Later") None in
  WmsFC.getWMSLayerTitle [root] "child" = ""
  /\ WmsFC.spec_title [root] "child" = "Child"
  /\ WmsFC.getWMSLayerTitle [root; later] "child" = ""
  /\ WmsFC.spec_title [root; later] "child" = "Child".
Proof. cbv zeta. repeat split; vm_compute; reflexivity. Qed.

(** ** Legend names of the WMS feature class ([WmsFC.loadSymbology]) *)

Section WmsSymbology.

Import WmsFC.

Lemma loadSymbology_from_items (layerInfos : list WMSLayerInfo)
    (configLayerEntries : list WmsLayerEntry) (legendUrls : list string) :
  forall k : nat,
    k + length legendUrls <= length configLayerEntries ->
    exists items,
      loadSymbology_from layerInfos configLayerEntries k legendUrls = JS.Return items
      /\ length items = length legendUrls
      /\ forall j le imageUri,
          configLayerEntries !! (k + j) = Some le ->
          legendUrls !! j = Some imageUri ->
          items !! j = Some (symbologyName layerInfos le, imageUri).
Proof.
  induction legendUrls as [| uri rest IH]; intros k Hlen; simpl in *.
  - exists []. split; [reflexivity | split; [reflexivity |]].
    intros j le imageUri _ Hj. destruct j; discriminate.
  - destruct (lookup_lt_is_Some_2 configLayerEntries k) as [le0 Hle0]; [lia |].
    rewrite Hle0.
    destruct (IH (S k)) as (items & Hrun & Hlen' & Hitems); [lia |].
    rewrite Hrun. simpl.
    exists ((symbologyName layerInfos le0, uri) :: items).
    split; [reflexivity | split; [simpl; lia |]].
    intros [| j] le imageUri Hle Hj; simpl in *.
    + rewrite Nat.add_0_r in Hle. congruence.
    + apply Hitems; [| exact Hj].
      rewrite <- Hle. f_equal. lia.
Qed.

Lemma or_else_truthy (a : option string) (b : string) :
  JS.truthy a = true -> Some (JS.or_else a b) = a.
Proof.
  destruct a as [s |]; simpl; [| discriminate].
  destruct (String.eqb s ""); [discriminate | reflexivity].
Qed.

Lemma or_else_falsy (a : option string) (b : string) :
  JS.truthy a = false -> JS.or_else a b = b.
Proof.
  destruct a as [s |]; simpl; [| reflexivity].
  destruct (String.eqb s ""); [reflexivity | discriminate].
Qed.

End WmsSymbology.

(** C4, as stated, fails: when the entry has a configured name and the
    catalog has a title for its id, the legend name is the configured name,
    not the server title that the chain of the specification puts first. *)
Lemma symbologyName_counterexample :
  let layerInfos := [WmsFC.mkInfo (Some "roads") (Some "Road network") None] in
  let le := {| WmsFC.id := "roads"; WmsFC.entry_name := Some "My roads" |} in
  WmsFC.loadSymbology layerInfos [le] ["legend.png"]
    = JS.Return [("My roads", "legend.png")]
  /\ WmsFC.getWMSLayerTitle layerInfos "roads" = "Road network"
  /\ WmsFC.spec_symbologyName layerInfos le = "Road network"
  /\ WmsFC.symbologyName layerInfos le <> WmsFC.spec_symbologyName layerInfos le.
Proof. cbv zeta. repeat split; vm_compute; [reflexivity .. | discriminate]. Qed.

(** C4, amended: with a config entry for every legend url, the symbology
    load succeeds and the name of each legend entry is the configured name
    when there is one (and it is not empty); otherwise the title the lookup
    finds in the catalog when that is not empty; otherwise the raw
    configured id. *)
Theorem loadSymbology_name_chain
    (layerInfos : list WmsFC.WMSLayerInfo) (configLayerEntries : list WmsFC.WmsLayerEntry)
    (legendUrls : list string) (idx : nat) (le : WmsFC.WmsLayerEntry) (imageUri : string) :
  length legendUrls <= length configLayerEntries ->
  configLayerEntries !! idx = Some le ->
  legendUrls !! idx = Some imageUri ->
  exists items legendName,
    WmsFC.loadSymbology layerInfos configLayerEntries legendUrls = JS.Return items
    /\ items !! idx = Some (legendName, imageUri)
    /\ legendName = WmsFC.symbologyName layerInfos le
    /\ (JS.truthy (WmsFC.entry_name le) = true -> WmsFC.entry_name le = Some legendName)
    /\ (JS.truthy (WmsFC.entry_name le) = false ->
        WmsFC.getWMSLayerTitle layerInfos (WmsFC.id le) <> "" ->
        legendName = WmsFC.getWMSLayerTitle layerInfos (WmsFC.id le))
    /\ (JS.truthy (WmsFC.entry_name le) = false ->
        WmsFC.getWMSLayerTitle layerInfos (WmsFC.id le) = "" ->
        legendName = WmsFC.id le).
Proof.
  intros Hlen Hle Huri.
  destruct (loadSymbology_from_items layerInfos configLayerEntries legendUrls 0)
    as (items & Hrun & _ & Hitems); [simpl; lia |].
  exists items, (WmsFC.symbologyName layerInfos le).
  split; [exact Hrun |].
  split; [apply Hitems; assumption |].
  split; [reflexivity |].
  unfold WmsFC.symbologyName.
  repeat split.
  - intros Ht. symmetry. apply or_else_truthy, Ht.
  - intros Hf Htitle. rewrite (or_else_falsy _ _ Hf).
    simpl. destruct (String.eqb_spec (WmsFC.getWMSLayerTitle layerInfos (WmsFC.id le)) "");
      [contradiction | reflexivity].
  - intros Hf Htitle. rewrite (or_else_falsy _ _ Hf), Htitle. reflexivity.
Qed.

(** C4, amended, for an entry without a configured name. *)
Lemma loadSymbology_name_chain_witness :
  let layerInfos := [WmsFC.mkInfo (Some "roads") (Some "Road network") None] in
  let le := {| WmsFC.id := "roads"; WmsFC.entry_name := None |} in
  exists items legendName,
    WmsFC.loadSymbology layerInfos [le] ["legend.png"] = JS.Return items
    /\ items !! 0 = Some (legendName, "legend.png")
    /\ legendName = WmsFC.symbologyName layerInfos le
    /\ (JS.truthy (WmsFC.entry_name le) = true -> WmsFC.entry_name le = Some legendName)
    /\ (JS.truthy (WmsFC.entry_name le) = false ->
        WmsFC.getWMSLayerTitle layerInfos (WmsFC.id le) <> "" ->
        legendName = WmsFC.getWMSLayerTitle layerInfos (WmsFC.id le))
    /\ (JS.truthy (WmsFC.entry_name le) = false ->
        WmsFC.getWMSLayerTitle layerInfos (WmsFC.id le) = "" ->
        legendName = WmsFC.id le).
Proof.
  cbv zeta.
  apply (loadSymbology_name_chain
           [WmsFC.mkInfo (Some "roads") (Some "Road network") None]
           [{| WmsFC.id := "roads"; WmsFC.entry_name := None |}]
           ["legend.png"] 0
           {| WmsFC.id := "roads"; WmsFC.entry_name := None |} "legend.png");
    [simpl; lia | reflexivity | reflexivity].
Defined.

(** ** Defaulting of sub-configs ([fetchSubConfig]) *)

Section SubConfigs.

Import Config DynamicRecord DynamicSpec.

(** Every entry of the table built from the config carries the flag the
    record was constructed with. *)
Lemma collateSubConfigs_defaulted (entries : list LayerEntry) (complete : bool)
    (id : string) (subC : SubConfig) :
  collateSubConfigs entries complete !! id = Some subC ->
  defaulted subC = complete /\ config subC ∈ entries.
Proof.
  unfold collateSubConfigs.
  assert (H : forall (acc : gmap string SubConfig),
    (forall k s, acc !! k = Some s -> defaulted s = complete /\ config s ∈ entries) ->
    forall es, (forall e, e ∈ es -> e ∈ entries) ->
    fold_left (fun subConfigs le =>
      <[JS.Number_toString (index le) := {| config := le; defaulted := complete |}]> subConfigs)
      es acc !! id = Some subC ->
    defaulted subC = complete /\ config subC ∈ entries).
  { intros acc Hacc es. revert acc Hacc.
    induction es as [| e es IH]; intros acc Hacc Hes; simpl.
    - apply Hacc.
    - apply IH.
      + intros k s. rewrite lookup_insert.
        case_decide; [| apply Hacc].
        intros [= <-]. simpl. split; [reflexivity |]. apply Hes. constructor.
      + intros e' He'. apply Hes. constructor. exact He'. }
  apply (H ∅); [| auto].
  intros k s. rewrite lookup_empty. discriminate.
Qed.

(** A call leaves the entries of the other indexes alone. *)
Lemma fetchSubConfig_other (id serverName : string) (subConfigs : gmap string SubConfig)
    (k : string) :
  k <> id -> (fetchSubConfig id serverName subConfigs).2 !! k = subConfigs !! k.
Proof.
  intros Hne. unfold fetchSubConfig.
  destruct (subConfigs !! id) as [subC |] eqn:Hid.
  - destruct (defaulted subC); simpl; [reflexivity |].
    apply lookup_insert_ne. congruence.
  - simpl. apply lookup_insert_ne. congruence.
Qed.

(** After a call the entry of the index holds the config returned and is
    marked defaulted. *)
Lemma fetchSubConfig_entry (id serverName : string) (subConfigs : gmap string SubConfig) :
  (fetchSubConfig id serverName subConfigs).2 !! id
  = Some {| config := (fetchSubConfig id serverName subConfigs).1; defaulted := true |}.
Proof.
  unfold fetchSubConfig.
  destruct (subConfigs !! id) as [[c d] |] eqn:Hid.
  - destruct d; simpl; [exact Hid | apply lookup_insert_eq].
  - simpl. apply lookup_insert_eq.
Qed.

(** A defaulted entry is returned as it is and the table is not written. *)
Lemma fetchSubConfig_defaulted (id serverName : string) (subConfigs : gmap string SubConfig)
    (c : LayerEntry) :
  subConfigs !! id = Some {| config := c; defaulted := true |} ->
  fetchSubConfig id serverName subConfigs = (c, subConfigs).
Proof. intros H. unfold fetchSubConfig. rewrite H. reflexivity. Qed.

(** A defaulted entry survives a call for any index. *)
Lemma fetchSubConfig_keeps_defaulted (id serverName : string)
    (subConfigs : gmap string SubConfig) (k : string) (subC : SubConfig) :
  subConfigs !! k = Some subC -> defaulted subC = true ->
  (fetchSubConfig id serverName subConfigs).2 !! k = Some subC.
Proof.
  intros Hk Hd. destruct (decide (k = id)) as [-> | Hne].
  - destruct subC as [c d]. simpl in Hd. subst d.
    rewrite (fetchSubConfig_defaulted _ _ _ _ Hk). exact Hk.
  - rewrite fetchSubConfig_other by exact Hne. exact Hk.
Qed.

Lemma fetchAll_keeps_defaulted (calls : list (string * string))
    (subConfigs : gmap string SubConfig) (k : string) (subC : SubConfig) :
  subConfigs !! k = Some subC -> defaulted subC = true ->
  fetchAll calls subConfigs !! k = Some subC.
Proof.
  unfold fetchAll. revert subConfigs.
  induction calls as [| [id serverName] calls IH]; intros subConfigs Hk Hd; simpl.
  - exact Hk.
  - apply IH; [| exact Hd]. apply fetchSubConfig_keeps_defaulted; assumption.
Qed.

End SubConfigs.

(** C5, as stated, fails: on the first fetch of a configured index the
    state is replaced by the dummy state even when the config gave one, so
    defaulting does not touch the missing fields only. *)
Lemma fetchSubConfig_state_counterexample :
  let given := {| Config.opacity := 1 # 2; Config.visibility := true; Config.query := true |} in
  let le := {| Config.index := JS.Int 0; Config.name := Some "Rivers";
               Config.state := Some given; Config.outfields := Some "NAME";
               Config.stateOnly := false; Config.extent := None |} in
  let subConfigs := DynamicRecord.collateSubConfigs [le] false in
  subConfigs !! "0" = Some {| DynamicRecord.config := le; DynamicRecord.defaulted := false |}
  /\ Config.state (DynamicRecord.fetchSubConfig "0" "Hydrography" subConfigs).1
     = Some DynamicRecord.dummyState
  /\ Config.state (DynamicRecord.fetchSubConfig "0" "Hydrography" subConfigs).1
     <> Config.state le.
Proof. cbv zeta. repeat split; vm_compute; [reflexivity .. | discriminate]. Qed.

(** C5, amended: a fetch never fails and leaves the index with a defaulted
    entry holding the config returned. For an index whose entry is not yet
    defaulted (every configured index of a config not marked complete, on its
    first fetch) the name is taken from the server when it is missing or
    empty and kept otherwise, outfields become the wildcard when missing and
    are kept otherwise, the state is replaced by the dummy state (opacity 1,
    not visible, not queryable) whether or not one was given, and the other
    properties are kept. An index with no entry gets the server name, the
    dummy state, the wildcard, its own index (the key of a server id
    parses back to the id) and [stateOnly]. An entry
    already defaulted (every configured index of a config marked complete)
    is returned as it is. *)
Theorem fetchSubConfig_defaulting :
  (forall (id serverName : string) (subConfigs : gmap string DynamicRecord.SubConfig),
      let c' := (DynamicRecord.fetchSubConfig id serverName subConfigs).1 in
      let subConfigs' := (DynamicRecord.fetchSubConfig id serverName subConfigs).2 in
      subConfigs' !! id = Some {| DynamicRecord.config := c'; DynamicRecord.defaulted := true |}
      /\ (forall k, k <> id -> subConfigs' !! k = subConfigs !! k)
      /\ match subConfigs !! id with
         | Some subC =>
             let c := DynamicRecord.config subC in
             if DynamicRecord.defaulted subC then c' = c /\ subConfigs' = subConfigs
             else
               Config.name c' = (if JS.truthy (Config.name c) then Config.name c
                                 else Some serverName)
               /\ Config.outfields c' = (match Config.outfields c with
                                         | Some o => Some o
                                         | None => Some "*"
                                         end)
               /\ Config.state c' = Some DynamicRecord.dummyState
               /\ Config.index c' = Config.index c
               /\ Config.stateOnly c' = Config.stateOnly c
               /\ Config.extent c' = Config.extent c
         | None =>
             c' = {| Config.index := JS.parseInt id; Config.name := Some serverName;
                     Config.state := Some DynamicRecord.dummyState;
                     Config.outfields := Some "*"; Config.stateOnly := true;
                     Config.extent := None |}
         end)
  /\ DynamicRecord.dummyState
     = {| Config.opacity := 1; Config.visibility := false; Config.query := false |}
  /\ (forall (entries : list Config.LayerEntry) (complete : bool) (id : string)
        (subC : DynamicRecord.SubConfig),
        DynamicRecord.collateSubConfigs entries complete !! id = Some subC ->
        DynamicRecord.defaulted subC = complete)
  /\ (forall z : Z, JS.parseInt (JS.toString z) = JS.Int z).
Proof.
  split; [| split; [reflexivity | split; [| exact parseInt_toString]]].
  - intros id serverName subConfigs c' subConfigs'.
    split; [apply fetchSubConfig_entry |].
    split; [intros k Hk; apply fetchSubConfig_other, Hk |].
    subst c' subConfigs'. unfold DynamicRecord.fetchSubConfig.
    destruct (subConfigs !! id) as [[c d] |]; [| reflexivity].
    destruct d; simpl; [split; reflexivity |].
    unfold DynamicRecord.applyDefaults. simpl.
    destruct (Config.outfields c) eqn:Hout; simpl;
      destruct (JS.truthy (Config.name c)) eqn:Hname; simpl;
      rewrite ?Hout, ?Hname; repeat split; reflexivity.
  - intros entries complete id subC H.
    apply (collateSubConfigs_defaulted _ _ _ _ H).
Qed.

(** C5, amended, for an entry that gives only an index. *)
Lemma fetchSubConfig_defaulting_witness :
  let le := {| Config.index := JS.Int 3; Config.name := None; Config.state := None;
               Config.outfields := None; Config.stateOnly := false; Config.extent := None |} in
  let subConfigs := DynamicRecord.collateSubConfigs [le] false in
  (DynamicRecord.fetchSubConfig "3" "Lakes" subConfigs).2 !! "3"
  = Some {| DynamicRecord.config := (DynamicRecord.fetchSubConfig "3" "Lakes" subConfigs).1;
            DynamicRecord.defaulted := true |}
  /\ (DynamicRecord.fetchSubConfig "3" "Lakes" subConfigs).1
     = {| Config.index := JS.Int 3; Config.name := Some "Lakes";
          Config.state := Some DynamicRecord.dummyState; Config.outfields := Some "*";
          Config.stateOnly := false; Config.extent := None |}.
Proof.
  cbv zeta. split.
  - exact (proj1 (proj1 fetchSubConfig_defaulting "3" "Lakes" _)).
  - vm_compute. reflexivity.
Defined.

(** C6: fetching the sub-config of an index twice returns the same config
    and leaves the table as the first fetch left it; the marker of the
    index is true after the first fetch; and an entry whose marker is true
    is never written again, whatever fetches follow, so the marker of an
    index goes from false to true at most once. *)
Theorem fetchSubConfig_idempotent :
  (forall (id serverName serverName' : string)
      (subConfigs : gmap string DynamicRecord.SubConfig),
      let first := DynamicRecord.fetchSubConfig id serverName subConfigs in
      DynamicRecord.fetchSubConfig id serverName' first.2 = first
      /\ DynamicSpec.marker first.2 id = true)
  /\ (forall (calls : list (string * string))
        (subConfigs : gmap string DynamicRecord.SubConfig) (id : string)
        (subC : DynamicRecord.SubConfig),
        subConfigs !! id = Some subC ->
        DynamicRecord.defaulted subC = true ->
        DynamicSpec.fetchAll calls subConfigs !! id = Some subC
        /\ DynamicSpec.marker (DynamicSpec.fetchAll calls subConfigs) id = true).
Proof.
  split.
  - intros id serverName serverName' subConfigs first.
    pose proof (fetchSubConfig_entry id serverName subConfigs) as Hentry.
    fold first in Hentry.
    split.
    + rewrite (fetchSubConfig_defaulted _ _ _ _ Hentry). destruct first; reflexivity.
    + unfold DynamicSpec.marker. rewrite Hentry. reflexivity.
  - intros calls subConfigs id subC Hid Hd.
    pose proof (fetchAll_keeps_defaulted calls subConfigs id subC Hid Hd) as H.
    split; [exact H |].
    unfold DynamicSpec.marker. rewrite H. exact Hd.
Qed.

(** C6 for an entry that gives only an index. *)
Lemma fetchSubConfig_idempotent_witness :
  let le := {| Config.index := JS.Int 3; Config.name := None; Config.state := None;
               Config.outfields := None; Config.stateOnly := false; Config.extent := None |} in
  let subConfigs := DynamicRecord.collateSubConfigs [le] false in
  let first := DynamicRecord.fetchSubConfig "3" "Lakes" subConfigs in
  DynamicSpec.marker subConfigs "3" = false
  /\ DynamicRecord.fetchSubConfig "3" "Ponds" first.2 = first
  /\ DynamicSpec.marker first.2 "3" = true
  /\ DynamicSpec.marker
       (DynamicSpec.fetchAll [("3", "Ponds"); ("4", "Rivers"); ("3", "")] first.2) "3" = true.
Proof.
  cbv zeta. split; [reflexivity |].
  split; [exact (proj1 (proj1 fetchSubConfig_idempotent "3" "Lakes" "Ponds" _)) |].
  split; [exact (proj2 (proj1 fetchSubConfig_idempotent "3" "Lakes" "Ponds" _)) |].
  refine (proj2 (proj2 fetchSubConfig_idempotent _ _ "3" _ _ _));
    [apply fetchSubConfig_entry | reflexivity].
Defined.

(** ** The walk over the server's hierarchy ([processLayerInfo]) *)

Section DynamicWalk.

Import Config DynamicRecord DynamicSpec.

Lemma bind_Return {A B} (m : JS.Result A) (k : A -> JS.Result B) (b : B) :
  (m ≫= k) = JS.Return b -> exists a, m = JS.Return a /\ k a = JS.Return b.
Proof.
  unfold mbind, Result_bind, JS.bind.
  destruct m; [eauto | discriminate | discriminate].
Qed.

Lemma bind_Return_l {A B} (a : A) (k : A -> JS.Result B) : (JS.Return a ≫= k) = k a.
Proof. reflexivity. Qed.

(** One step of the walk, with the loop over the children as
    [processChildren]. *)
Lemma processLayerInfo_S (fuel : nat) (layerInfo : LayerInfo)
    (subConfigs : gmap string SubConfig) (r : t) :
  processLayerInfo (S fuel) layerInfo subConfigs r =
  let sId := JS.toString (id layerInfo) in
  let subC := (fetchSubConfig sId (li_name layerInfo) subConfigs).1 in
  let subConfigs1 := (fetchSubConfig sId (li_name layerInfo) subConfigs).2 in
  match subLayerIds layerInfo with
  | Some ((_ :: _) as slids) =>
      res ← processChildren fuel slids subConfigs1 r;
      JS.Return (Group (id layerInfo) (Config.name subC) res.1.1, res.1.2, res.2)
  | _ =>
      JS.Return (Leaf (id layerInfo), subConfigs1,
                 leafProxy sId {| PlaceholderFC.name := Config.name subC |} r)
  end.
Proof.
  cbn [processLayerInfo]. cbv zeta. unfold processChildren.
  destruct (fetchSubConfig (JS.toString (id layerInfo)) (li_name layerInfo) subConfigs)
    as [subC subConfigs1].
  cbn [fst snd].
  destruct (subLayerIds layerInfo) as [[| slid slids] |]; try reflexivity.
  destruct (forEachChild (processLayerInfo fuel) (slid :: slids) subConfigs1 r)
    as [[[childs sc2] r2] | |]; reflexivity.
Qed.

Lemma Extends_refl (r : t) : Extends r r.
Proof. constructor; auto. Qed.

Lemma Extends_trans (r1 r2 r3 : t) : Extends r1 r2 -> Extends r2 r3 -> Extends r1 r3.
Proof.
  intros [] []. constructor; try congruence; auto.
Qed.

Lemma Settled_refl (sc : gmap string SubConfig) : Settled sc sc.
Proof. intros k subC H _. exact H. Qed.

Lemma Settled_trans (sc1 sc2 sc3 : gmap string SubConfig) :
  Settled sc1 sc2 -> Settled sc2 sc3 -> Settled sc1 sc3.
Proof. intros H12 H23 k subC Hk Hd. apply H23; [apply H12 |]; assumption. Qed.

Lemma fetchSubConfig_Settled (id serverName : string) (sc : gmap string SubConfig) :
  Settled sc (fetchSubConfig id serverName sc).2.
Proof. intros k subC Hk Hd. apply fetchSubConfig_keeps_defaulted; assumption. Qed.

Lemma fetchSubConfig_StateReady (id serverName : string) (sc : gmap string SubConfig) :
  StateReady sc -> StateReady (fetchSubConfig id serverName sc).2.
Proof.
  intros Hready k subC.
  destruct (decide (k = id)) as [-> | Hne].
  - rewrite fetchSubConfig_entry. intros [= <-] _. cbn [config].
    unfold fetchSubConfig.
    destruct (sc !! id) as [[c d] |] eqn:Hid; [| simpl; eauto].
    destruct d; cbn [config defaulted fst].
    + apply (Hready id _ Hid). reflexivity.
    + unfold applyDefaults. cbn.
      destruct (outfields c); cbn; destruct (JS.truthy (Config.name c)); cbn; eauto.
  - rewrite fetchSubConfig_other by exact Hne. apply Hready.
Qed.

Lemma leafProxy_Extends (sId : string) (pfc : PlaceholderFC.t) (r : t) :
  Extends r (leafProxy sId pfc r).
Proof.
  unfold leafProxy.
  destruct (_proxies r !! sId) as [h |] eqn:Hs.
  - constructor; try reflexivity; cbn; auto.
    intros [Hlt Hinj]. split; cbn; [| exact Hinj].
    intros k h' Hk. rewrite length_alter. eapply Hlt, Hk.
  - constructor; try reflexivity; cbn.
    + intros k h Hk. rewrite lookup_insert_ne; [exact Hk | congruence].
    + intros [Hlt Hinj]. split; cbn.
      * intros k h. rewrite length_app. cbn. rewrite lookup_insert.
        case_decide; [intros [= <-]; lia |].
        intros Hk. apply Hlt in Hk. lia.
      * intros k1 k2 h. rewrite !lookup_insert.
        repeat case_decide; try congruence.
        -- intros [= <-] Hk2. apply Hlt in Hk2. lia.
        -- intros Hk1 [= <-]. apply Hlt in Hk1. lia.
        -- apply Hinj.
Qed.

Lemma processChildren_sound (fuel : nat) :
  NodeOk fuel ->
  forall slids sc r res,
    processChildren fuel slids sc r = JS.Return res ->
    WalkOk (fun final infos nodes =>
              Forall2 (fun slid node =>
                         exists child, JS.array_get infos (JS.Int slid) = Some child
                                       /\ Mirrors infos final child node) slids nodes)
           sc r res.
Proof.
  intros Hnode. induction slids as [| slid slids IH]; intros sc r res;
    unfold processChildren; cbn [forEachChild]; fold (processChildren fuel).
  - intros [= <-]. unfold WalkOk. split_and!; cbn; auto using Extends_refl, Settled_refl.
    all: intros; constructor.
  - destruct (JS.array_get (layerInfos (_layer r)) (JS.Int slid)) as [child |] eqn:Hchild;
      [| discriminate].
    intros H. apply bind_Return in H as ([[node sc1] r1] & Hrun1 & H).
    apply bind_Return in H as ([[nodes sc2] r2] & Hrun2 & H).
    injection H as <-.
    apply Hnode in Hrun1 as (Hext1 & Hset1 & Hready1 & Hmir1).
    apply IH in Hrun2 as (Hext2 & Hset2 & Hready2 & Hmir2).
    cbn in *.
    unfold WalkOk. split_and!; cbn.
    + eapply Extends_trans; eassumption.
    + eapply Settled_trans; eassumption.
    + auto.
    + intros final Hfinal. constructor.
      * exists child. split; [exact Hchild |].
        apply Hmir1. eapply Settled_trans; eassumption.
      * rewrite <- (ext_layer _ _ Hext1). apply Hmir2, Hfinal.
Qed.

Lemma processLayerInfo_sound (fuel : nat) : NodeOk fuel.
Proof.
  induction fuel as [| fuel IH]; intros layerInfo sc r res; [discriminate |].
  rewrite processLayerInfo_S. cbv zeta.
  pose proof (fetchSubConfig_entry (JS.toString (id layerInfo)) (li_name layerInfo) sc)
    as Hentry.
  pose proof (fetchSubConfig_Settled (JS.toString (id layerInfo)) (li_name layerInfo) sc)
    as Hset.
  pose proof (fetchSubConfig_StateReady (JS.toString (id layerInfo)) (li_name layerInfo) sc)
    as Hready.
  destruct (fetchSubConfig (JS.toString (id layerInfo)) (li_name layerInfo) sc)
    as [subC sc1]. cbn [fst snd] in *.
  destruct (subLayerIds layerInfo) as [[| slid slids] |] eqn:Hsub.
  - intros [= <-]. unfold WalkOk. split_and!; cbn; auto using leafProxy_Extends.
    intros final _. constructor. right. exact Hsub.
  - intros H. apply bind_Return in H as ([[childs sc2] r2] & Hrun & H).
    injection H as <-.
    apply (processChildren_sound fuel IH) in Hrun as (Hext & Hset2 & Hready2 & Hmir).
    cbn in *.
    unfold WalkOk. split_and!; cbn; auto.
    + eapply Settled_trans; eassumption.
    + intros final Hfinal.
      apply (mirrors_group _ _ layerInfo (slid :: slids)
               {| config := subC; defaulted := true |} childs);
        [exact Hsub | discriminate | | apply Hmir, Hfinal].
      apply Hfinal; [| reflexivity]. apply Hset2; [exact Hentry | reflexivity].
  - intros [= <-]. unfold WalkOk. split_and!; cbn; auto using leafProxy_Extends.
    intros final _. constructor. left. exact Hsub.
Qed.

Lemma processEntries_sound (fuel : nat) :
  forall entries sc r res,
    processEntries fuel entries sc r = JS.Return res ->
    WalkOk (fun final infos tree => MirrorsConfig infos final entries tree) sc r res.
Proof.
  induction entries as [| le entries IH]; intros sc r res; cbn [processEntries].
  - intros [= <-]. unfold WalkOk. split_and!; cbn; auto using Extends_refl, Settled_refl.
    all: intros; constructor.
  - unfold MirrorsConfig. cbn [List.filter].
    destruct (stateOnly le); cbn [negb]; [apply IH |].
    destruct (JS.array_get (layerInfos (_layer r)) (index le)) as [layerInfo |] eqn:Hinfo;
      [| discriminate].
    intros H. apply bind_Return in H as ([[node sc1] r1] & Hrun1 & H).
    apply bind_Return in H as ([[nodes sc2] r2] & Hrun2 & H).
    injection H as <-.
    apply processLayerInfo_sound in Hrun1 as (Hext1 & Hset1 & Hready1 & Hmir1).
    apply IH in Hrun2 as (Hext2 & Hset2 & Hready2 & Hmir2).
    cbn in *.
    unfold WalkOk. split_and!; cbn.
    + eapply Extends_trans; eassumption.
    + eapply Settled_trans; eassumption.
    + auto.
    + intros final Hfinal. constructor.
      * exists layerInfo. split; [exact Hinfo |].
        apply Hmir1. eapply Settled_trans; eassumption.
      * rewrite <- (ext_layer _ _ Hext1). apply Hmir2, Hfinal.
Qed.

End DynamicWalk.

(** ** Tables in own-property order *)

Section Objects.

Context {V : Type}.
Implicit Types (o : list (string * V)) (k : string) (v : V).

Lemma obj_get_replace_eq o k v :
  is_Some (JS.obj_get o k) -> JS.obj_get (JS.obj_replace k v o) k = Some v.
Proof.
  induction o as [| [k' v'] o IH]; cbn; [intros [? [=]] |].
  destruct (decide (k = k')) as [-> | Hne]; cbn.
  - intros _. rewrite decide_True by reflexivity. reflexivity.
  - intros H. rewrite decide_False by exact Hne. apply IH, H.
Qed.

Lemma obj_get_replace_ne o k k' v :
  k' <> k -> JS.obj_get (JS.obj_replace k v o) k' = JS.obj_get o k'.
Proof.
  intros Hne. induction o as [| [k0 v0] o IH]; cbn; [reflexivity |].
  destruct (decide (k = k0)) as [-> | Hne0]; cbn.
  - rewrite !decide_False by exact Hne. reflexivity.
  - destruct (decide (k' = k0)); [reflexivity | exact IH].
Qed.

Lemma obj_get_add_eq o k v :
  JS.obj_get o k = None -> JS.obj_get (JS.obj_add k v o) k = Some v.
Proof.
  induction o as [| [k' v'] o IH]; cbn.
  - intros _. rewrite decide_True by reflexivity. reflexivity.
  - destruct (decide (k = k')) as [-> | Hne]; [discriminate |].
    intros H. destruct (JS.precedes k k'); cbn.
    + rewrite decide_True by reflexivity. reflexivity.
    + rewrite decide_False by exact Hne. apply IH, H.
Qed.

Lemma obj_get_add_ne o k k' v :
  k' <> k -> JS.obj_get (JS.obj_add k v o) k' = JS.obj_get o k'.
Proof.
  intros Hne. induction o as [| [k0 v0] o IH]; cbn.
  - rewrite decide_False by exact Hne. reflexivity.
  - destruct (JS.precedes k k0); cbn.
    + rewrite decide_False by exact Hne. reflexivity.
    + destruct (decide (k' = k0)); [reflexivity | exact IH].
Qed.

(** Reading back what was written, and reading any other key. *)
Lemma obj_get_set_eq o k v : JS.obj_get (JS.obj_set k v o) k = Some v.
Proof.
  unfold JS.obj_set. destruct (JS.obj_get o k) eqn:H.
  - apply obj_get_replace_eq. rewrite H. eauto.
  - apply obj_get_add_eq, H.
Qed.

Lemma obj_get_set_ne o k k' v :
  k' <> k -> JS.obj_get (JS.obj_set k v o) k' = JS.obj_get o k'.
Proof.
  intros Hne. unfold JS.obj_set. destruct (JS.obj_get o k).
  - apply obj_get_replace_ne, Hne.
  - apply obj_get_add_ne, Hne.
Qed.

Lemma obj_set_not_nil o k v : JS.obj_set k v o <> [].
Proof.
  unfold JS.obj_set. destruct o as [| [k' v'] o]; cbn; [discriminate |].
  destruct (decide (k = k')); cbn; [discriminate |].
  destruct (JS.obj_get o k); cbn.
  - destruct (decide (k = k')); discriminate.
  - destruct (JS.precedes k k'); discriminate.
Qed.

End Objects.

Arguments JS.obj_set : simpl never.
Arguments JS.obj_get : simpl never.

(** ** Proxies before and after the load *)

Section Proxies.

Import Config DynamicRecord DynamicSpec.

Lemma getChildProxy_cached (featureIdx : Z) (r : t) (h : Handle) :
  _proxies r !! JS.toString featureIdx = Some h ->
  getChildProxy featureIdx r = (h, r).
Proof. intros H. unfold getChildProxy. rewrite H. reflexivity. Qed.

Lemma getChildProxy_new (featureIdx : Z) (r : t) :
  _proxies r !! JS.toString featureIdx = None ->
  getChildProxy featureIdx r
  = (length (store r),
     with_proxies r (<[JS.toString featureIdx := length (store r)]> (_proxies r))
                  (store r ++ [DynamicSpec.freshPlaceholderProxy])).
Proof. intros H. unfold getChildProxy. rewrite H. reflexivity. Qed.

Lemma getChildProxy_Extends (featureIdx : Z) (r : t) :
  Extends r (getChildProxy featureIdx r).2.
Proof.
  destruct (_proxies r !! JS.toString featureIdx) as [h |] eqn:Hs.
  - rewrite (getChildProxy_cached _ _ _ Hs). apply Extends_refl.
  - rewrite (getChildProxy_new _ _ Hs).
    constructor; try reflexivity; cbn.
    + intros k h Hk. rewrite lookup_insert_ne; [exact Hk | congruence].
    + intros [Hlt Hinj]. split; cbn.
      * intros k h. rewrite length_app. cbn. rewrite lookup_insert.
        case_decide; [intros [= <-]; lia |].
        intros Hk. apply Hlt in Hk. lia.
      * intros k1 k2 h. rewrite !lookup_insert.
        repeat case_decide; try congruence.
        -- intros [= <-] Hk2. apply Hlt in Hk2. lia.
        -- intros Hk1 [= <-]. apply Hlt in Hk1. lia.
        -- apply Hinj.
Qed.

Lemma getChildProxy_caches (featureIdx : Z) (r : t) :
  _proxies (getChildProxy featureIdx r).2 !! JS.toString featureIdx
  = Some (getChildProxy featureIdx r).1.
Proof.
  destruct (_proxies r !! JS.toString featureIdx) as [h0 |] eqn:Hs.
  - rewrite (getChildProxy_cached _ _ _ Hs). exact Hs.
  - rewrite (getChildProxy_new _ _ Hs). cbn. apply lookup_insert_eq.
Qed.

Lemma PreLoad_inv (r : t) :
  PreLoad r ->
  ProxiesOk r /\ _featClasses r = [] /\ _childTree r = None /\ AllPlaceholders r.
Proof.
  induction 1 as [config esriLayer complete | featureIdx r Hpre (Hok & Hfc & Htree & Hph)].
  - split_and!; try reflexivity.
    + split; cbn; intros *; rewrite lookup_empty; discriminate.
    + intros k h. cbn. rewrite lookup_empty. discriminate.
  - pose proof (getChildProxy_Extends featureIdx r) as Hext.
    split_and!.
    + apply (ext_ok _ _ Hext), Hok.
    + rewrite (ext_featClasses _ _ Hext). exact Hfc.
    + rewrite (ext_childTree _ _ Hext). exact Htree.
    + destruct (_proxies r !! JS.toString featureIdx) as [h0 |] eqn:Hs.
      * rewrite (getChildProxy_cached _ _ _ Hs). exact Hph.
      * rewrite (getChildProxy_new _ _ Hs). intros k h. cbn.
        rewrite lookup_insert. case_decide.
        -- intros [= <-]. exists DynamicSpec.freshPlaceholderProxy, {| PlaceholderFC.name := Some "" |}.
           split; [| split; reflexivity].
           rewrite lookup_app_r by lia. rewrite Nat.sub_diag. reflexivity.
        -- intros Hk. destruct (Hph k h Hk) as (i & pfc & Hi & Hrest).
           exists i, pfc. split; [| exact Hrest].
           rewrite lookup_app_l; [exact Hi |]. eapply lookup_lt_Some, Hi.
Qed.

(** The proxies of two indexes are two objects. *)
Lemma getChildProxy_distinct (r : t) (featureIdx featureIdx' : Z) :
  PreLoad r -> featureIdx <> featureIdx' ->
  (getChildProxy featureIdx' (getChildProxy featureIdx r).2).1
  <> (getChildProxy featureIdx r).1.
Proof.
  intros Hpre Hne Heq.
  set (r1 := (getChildProxy featureIdx r).2) in *.
  set (r2 := (getChildProxy featureIdx' r1).2).
  assert (Hpre2 : PreLoad r2) by (do 2 apply preload_getChildProxy; exact Hpre).
  destruct (PreLoad_inv r2 Hpre2) as ((_ & Hinj) & _).
  pose proof (getChildProxy_caches featureIdx' r1) as H2. fold r2 in H2.
  pose proof (ext_proxies _ _ (getChildProxy_Extends featureIdx' r1) _ _
                (getChildProxy_caches featureIdx r)) as H1.
  fold r1 r2 in H1. rewrite Heq in H2.
  apply Hne, toString_inj. eapply Hinj; eassumption.
Qed.

Lemma Loaded_refl (r : t) : Loaded r r.
Proof. constructor; auto. Qed.

Lemma Loaded_ok (r r' : t) : Loaded r r' -> ProxiesOk r -> ProxiesOk r'.
Proof.
  intros Hld [Hlt Hinj]. split.
  - intros k h. rewrite (ld_proxies _ _ Hld), (ld_store _ _ Hld). apply Hlt.
  - intros k1 k2 h. rewrite (ld_proxies _ _ Hld). apply Hinj.
Qed.

Lemma Loaded_trans (r1 r2 r3 : t) : Loaded r1 r2 -> Loaded r2 r3 -> Loaded r1 r3.
Proof.
  intros H12 H23. pose proof (Loaded_ok _ _ H12) as Hok.
  destruct H12, H23. constructor; try congruence; auto.
Qed.

Lemma loadFeatureClass_built (idx : string) (sc : gmap string SubConfig) (r r' : t) :
  loadFeatureClass idx sc r = JS.Return r' ->
  Loaded r r'
  /\ forall subC, sc !! idx = Some subC -> defaulted subC = true ->
       exists dFC, DynamicFC.constructor idx (config subC) = JS.Return dFC
                   /\ JS.obj_get (_featClasses r') idx = Some dFC.
Proof.
  unfold loadFeatureClass.
  destruct (sc !! idx) as [[c d] |] eqn:Hidx; cbn [defaulted config];
    [| intros [= <-]; split; [apply Loaded_refl | intros ? [=]]].
  destruct d; [| intros [= <-]; split; [apply Loaded_refl | intros ? [= <-] [=]]].
  intros H. apply bind_Return in H as (dFC & Hcons & H). cbn in H.
  injection H as <-.
  split.
  - destruct (_proxies r !! idx) as [h |] eqn:Hh.
    + constructor; cbn; try reflexivity.
      * apply length_alter.
      * intros _. apply obj_set_not_nil.
      * intros [Hlt Hinj] Hlinked k d hk Hk Hhk. cbn in Hk, Hhk |- *.
        destruct (decide (k = idx)) as [-> | Hne].
        -- rewrite obj_get_set_eq in Hk. injection Hk as <-.
           assert (hk = h) as -> by congruence.
           destruct (lookup_lt_is_Some_2 (store r) h) as [i0 Hi0]; [eapply Hlt, Hh |].
           exists i0. rewrite list_lookup_alter_eq, Hi0. reflexivity.
        -- rewrite obj_get_set_ne in Hk by exact Hne.
           destruct (Hlinked k d hk Hk Hhk) as [i0 Hi0].
           exists i0. rewrite list_lookup_alter_ne; [exact Hi0 |].
           intros ->. apply Hne. eapply Hinj; eassumption.
    + constructor; cbn; try reflexivity.
      * intros _. apply obj_set_not_nil.
      * intros _ Hlinked k d hk Hk Hhk. cbn in Hk, Hhk |- *.
        destruct (decide (k = idx)) as [-> | Hne]; [congruence |].
        rewrite obj_get_set_ne in Hk by exact Hne.
        apply (Hlinked k d hk Hk Hhk).
  - intros subC [= <-] _. exists dFC. split; [exact Hcons |].
    destruct (_proxies r !! idx); cbn; apply obj_get_set_eq.
Qed.

Lemma loadFeatureClasses_Loaded (idxs : list string) (sc : gmap string SubConfig) :
  forall r r', loadFeatureClasses idxs sc r = JS.Return r' -> Loaded r r'.
Proof.
  induction idxs as [| idx idxs IH]; intros r r'; cbn [loadFeatureClasses].
  - intros [= <-]. apply Loaded_refl.
  - intros H. apply bind_Return in H as (r1 & Hrun1 & Hrun2).
    eapply Loaded_trans; [apply (loadFeatureClass_built _ _ _ _ Hrun1) | apply IH, Hrun2].
Qed.

(** With a state in every defaulted entry the loop cannot throw. *)
Lemma loadFeatureClasses_total (idxs : list string) (sc : gmap string SubConfig) :
  StateReady sc -> forall r, exists r', loadFeatureClasses idxs sc r = JS.Return r'.
Proof.
  intros Hready. induction idxs as [| idx idxs IH]; intros r; cbn [loadFeatureClasses].
  - eauto.
  - assert (exists r1, loadFeatureClass idx sc r = JS.Return r1) as [r1 Hr1].
    { unfold loadFeatureClass.
      destruct (sc !! idx) as [[c d] |] eqn:Hidx; cbn [defaulted config]; [| eauto].
      destruct d; [| eauto].
      destruct (Hready idx _ Hidx eq_refl) as [st Hst]. cbn in Hst.
      unfold DynamicFC.constructor, BasicFC.constructor. cbn. rewrite Hst. cbn. eauto. }
    rewrite Hr1. cbn. apply IH.
Qed.

End Proxies.

(** ** The walk returns on a well-formed hierarchy *)

Section WalkReturns.

Import Config DynamicRecord DynamicSpec.

Variable infos : list LayerInfo.
Hypothesis Hinfos : Hierarchy infos.

Lemma array_get_position (slid : Z) :
  (0 <= slid < Z.of_nat (length infos))%Z ->
  exists child, JS.array_get infos (JS.Int slid) = Some child
                /\ infos !! Z.to_nat slid = Some child.
Proof.
  intros Hrange. unfold JS.array_get.
  rewrite decide_True by lia.
  destruct (lookup_lt_is_Some_2 infos (Z.to_nat slid)) as [child Hchild]; [lia |].
  exists child. split; assumption.
Qed.

Lemma processChildren_returns (fuel : nat) (p : nat) :
  NodeReturns infos fuel ->
  length infos - p <= S fuel ->
  forall slids sc r,
    layerInfos (_layer r) = infos ->
    (forall slid, slid ∈ slids -> (Z.of_nat p < slid < Z.of_nat (length infos))%Z) ->
    exists res, processChildren fuel slids sc r = JS.Return res.
Proof.
  intros Hnode Hfuel.
  induction slids as [| slid slids IH]; intros sc r Hlayer Hrange;
    unfold processChildren; cbn [forEachChild]; fold (processChildren fuel);
    [eauto |].
  rewrite Hlayer.
  destruct (array_get_position slid) as (child & Hget & Hpos).
  { specialize (Hrange slid ltac:(constructor)). lia. }
  rewrite Hget.
  destruct (Hnode (Z.to_nat slid) child sc r Hlayer Hpos) as [[[node sc1] r1] Hrun1].
  { specialize (Hrange slid ltac:(constructor)). lia. }
  rewrite Hrun1, bind_Return_l. cbv beta iota.
  apply processLayerInfo_sound in Hrun1 as (Hext1 & _).
  destruct (IH sc1 r1) as [[[nodes sc2] r2] Hrun2].
  - cbn in Hext1. rewrite (ext_layer _ _ Hext1). exact Hlayer.
  - intros s Hs. apply Hrange. constructor. exact Hs.
  - unfold processChildren in Hrun2.
    rewrite Hrun2, bind_Return_l. cbv beta iota. eauto.
Qed.

Lemma processLayerInfo_returns (fuel : nat) : NodeReturns infos fuel.
Proof.
  induction fuel as [| fuel IH]; intros p layerInfo sc r Hlayer Hpos Hfuel.
  - apply lookup_lt_Some in Hpos. lia.
  - rewrite processLayerInfo_S. cbv zeta.
    destruct (subLayerIds layerInfo) as [[| slid slids] |] eqn:Hsub; eauto.
    destruct (processChildren_returns fuel p IH Hfuel (slid :: slids)
                (fetchSubConfig (JS.toString (id layerInfo)) (li_name layerInfo) sc).2 r
                Hlayer) as [res Hres].
    + intros s Hs. eapply Hinfos; eassumption.
    + rewrite Hres, bind_Return_l. eauto.
Qed.

Lemma processEntries_returns (fuel : nat) (entries : list LayerEntry) :
  length infos <= fuel ->
  ConfigOnServer entries infos ->
  forall sc r,
    layerInfos (_layer r) = infos ->
    exists res, processEntries fuel entries sc r = JS.Return res.
Proof.
  intros Hfuel.
  induction entries as [| le entries IH]; intros Hcfg sc r Hlayer; cbn [processEntries];
    [eauto |].
  assert (Hrest : ConfigOnServer entries infos).
  { intros e He. apply Hcfg. constructor. exact He. }
  destruct (stateOnly le) eqn:Hso; [apply IH; assumption |].
  rewrite Hlayer.
  destruct (Hcfg le ltac:(constructor) Hso) as [layerInfo Hget]. rewrite Hget.
  assert (exists p, infos !! p = Some layerInfo) as [p Hpos].
  { unfold JS.array_get in Hget. destruct (index le) as [z |]; [| discriminate].
    destruct (decide (0 <= z)%Z); [eauto | discriminate]. }
  destruct (processLayerInfo_returns fuel p layerInfo sc r Hlayer Hpos)
    as [[[node sc1] r1] Hrun1]; [lia |].
  rewrite Hrun1, bind_Return_l. cbv beta iota.
  apply processLayerInfo_sound in Hrun1 as (Hext1 & _).
  destruct (IH Hrest sc1 r1) as [[[nodes sc2] r2] Hrun2].
  - cbn in Hext1. rewrite (ext_layer _ _ Hext1). exact Hlayer.
  - rewrite Hrun2, bind_Return_l. cbv beta iota. eauto.
Qed.

End WalkReturns.

(** ** The load handler as a whole *)

Section Handler.

Import Config DynamicRecord DynamicSpec.

Lemma resolve_inv (fuel : nat) (bundle : AttributeBundle) (r : t)
    (sc : gmap string SubConfig) (r' : t) :
  resolve fuel bundle r = JS.Return (sc, r') ->
  exists tree r1,
    processEntries fuel (layerEntries r)
      (collateSubConfigs (layerEntries r) (_configIsComplete r))
      (with_isTrueDynamic r (supportsDynamicLayers (_layer r)))
    = JS.Return (tree, sc, r1)
    /\ loadFeatureClasses (indexes bundle) sc (with_childTree r1 (Some tree)) = JS.Return r'.
Proof.
  unfold resolve. cbv zeta. cbn [layerEntries _configIsComplete with_isTrueDynamic].
  intros H. apply bind_Return in H as ([[tree sc1] r1] & Hwalk & H).
  apply bind_Return in H as (r2 & Hload & H).
  injection H as <- <-. eauto.
Qed.

Lemma setInitialVisibility_inv (sc : gmap string SubConfig) (r r' : t) :
  setInitialVisibility sc r = JS.Return r' ->
  _featClasses r = []
  /\ r' = with_layer r
            {| layerInfos := layerInfos (_layer r);
               supportsDynamicLayers := supportsDynamicLayers (_layer r);
               setVisibleLayers_calls := [JS.Int (-1)] :: setVisibleLayers_calls (_layer r) |}.
Proof.
  unfold setInitialVisibility.
  destruct (_featClasses r) as [| [k dFC] rest]; cbn.
  - intros [= <-]. split; reflexivity.
  - unfold initVisFilter. destruct (fetchSubConfig k "" sc). discriminate.
Qed.

Lemma setInitialVisibility_throws (sc : gmap string SubConfig) (r : t) :
  _featClasses r <> [] ->
  setInitialVisibility sc r
  = JS.Throw (JS.TypeError "Cannot read property 'state' of undefined").
Proof.
  unfold setInitialVisibility.
  destruct (_featClasses r) as [| [k dFC] rest]; [congruence |].
  intros _. cbn. unfold initVisFilter. destruct (fetchSubConfig k "" sc). reflexivity.
Qed.

Lemma onLoad_inv (fuel : nat) (bundle : AttributeBundle) (r r'' : t) :
  onLoad fuel bundle r = JS.Return r'' ->
  exists sc r',
    resolve fuel bundle r = JS.Return (sc, r')
    /\ _proxies r'' = _proxies r' /\ store r'' = store r'
    /\ _featClasses r'' = _featClasses r' /\ _childTree r'' = _childTree r'
    /\ (_configIsComplete r' = true -> _featClasses r' = []).
Proof.
  unfold onLoad. intros H. apply bind_Return in H as ([sc r'] & Hres & H).
  exists sc, r'. split; [exact Hres |].
  destruct (_configIsComplete r').
  - apply setInitialVisibility_inv in H as [Hfc ->]. cbn. auto.
  - injection H as <-. split_and!; try reflexivity. discriminate.
Qed.

Lemma resolve_facts (fuel : nat) (bundle : AttributeBundle) (r : t)
    (sc : gmap string SubConfig) (r' : t) :
  resolve fuel bundle r = JS.Return (sc, r') ->
  (exists tree, _childTree r' = Some tree
                /\ MirrorsConfig (layerInfos (_layer r)) sc (layerEntries r) tree)
  /\ (forall k h, _proxies r !! k = Some h -> _proxies r' !! k = Some h)
  /\ (ProxiesOk r -> _featClasses r = [] -> Linked r')
  /\ _configIsComplete r' = _configIsComplete r
  /\ _layer r' = _layer r.
Proof.
  intros H. apply resolve_inv in H as (tree & r1 & Hwalk & Hload).
  apply processEntries_sound in Hwalk as (Hext & _ & _ & Hmir). cbn in Hext, Hmir.
  apply loadFeatureClasses_Loaded in Hload as Hld.
  pose proof (ld_childTree _ _ Hld) as Ht. pose proof (ld_proxies _ _ Hld) as Hp.
  pose proof (ld_complete _ _ Hld) as Hc. pose proof (ld_layer _ _ Hld) as Hl.
  pose proof (ext_complete _ _ Hext) as Hc1. pose proof (ext_layer _ _ Hext) as Hl1.
  pose proof (ext_featClasses _ _ Hext) as Hf1.
  cbn in Ht, Hp, Hc, Hl, Hc1, Hl1, Hf1.
  split_and!.
  - exists tree. split; [exact Ht |]. apply Hmir, Settled_refl.
  - intros k h Hk. rewrite Hp. apply (ext_proxies _ _ Hext). exact Hk.
  - intros Hok Hfc. apply (ld_linked _ _ Hld).
    + destruct (ext_ok _ _ Hext Hok) as [Hlt Hinj]. split; assumption.
    + intros k dFC h Hk. cbn in Hk. rewrite Hf1, Hfc in Hk. discriminate.
  - congruence.
  - congruence.
Qed.

End Handler.

(** ** Names in the table of sub-configs after the walk *)

Section ResolvedNames.

Import Config DynamicRecord DynamicSpec.

Variable sc0 : gmap string SubConfig.
Variable infos : list LayerInfo.

Lemma array_get_elem {A} (l : list A) (i : JS.Number) (x : A) :
  JS.array_get l i = Some x -> x ∈ l.
Proof.
  unfold JS.array_get. destruct i as [z |]; [| discriminate].
  destruct (decide (0 <= z)%Z); [| discriminate].
  apply list_elem_of_lookup_2.
Qed.

Lemma ResolvedFrom_refl : ResolvedFrom sc0 infos sc0.
Proof. split; auto. Qed.

Lemma fetchSubConfig_ResolvedFrom (layerInfo : LayerInfo) (sc : gmap string SubConfig) :
  layerInfo ∈ infos ->
  ResolvedFrom sc0 infos sc ->
  ResolvedFrom sc0 infos
    (fetchSubConfig (JS.toString (id layerInfo)) (li_name layerInfo) sc).2.
Proof.
  intros Hin [Hnone Hsome]. split.
  - intros k. destruct (decide (k = JS.toString (id layerInfo))) as [-> | Hne].
    + rewrite fetchSubConfig_entry. discriminate.
    + rewrite fetchSubConfig_other by exact Hne. apply Hnone.
  - intros k subC. destruct (decide (k = JS.toString (id layerInfo))) as [-> | Hne].
    + rewrite fetchSubConfig_entry. intros [= <-].
      destruct (sc !! JS.toString (id layerInfo)) as [[c d] |] eqn:Hk.
      * destruct (Hsome _ _ Hk) as [H0 | [Hd Hli]].
        -- destruct d.
           ++ left. rewrite (fetchSubConfig_defaulted _ _ _ _ Hk). exact H0.
           ++ right. split; [reflexivity |]. exists layerInfo.
              split; [exact Hin | split; [reflexivity |]].
              cbn [config]. unfold fetchSubConfig. rewrite Hk, H0. reflexivity.
        -- cbn in Hd. subst d. right. split; [reflexivity |].
           rewrite (fetchSubConfig_defaulted _ _ _ _ Hk). exact Hli.
      * right. split; [reflexivity |]. exists layerInfo.
        split; [exact Hin | split; [reflexivity |]].
        cbn [config]. unfold fetchSubConfig. rewrite Hk, (Hnone _ Hk). reflexivity.
    + rewrite fetchSubConfig_other by exact Hne. apply Hsome.
Qed.

Lemma processChildren_resolved (fuel : nat) :
  NodeResolved sc0 infos fuel ->
  forall slids sc r res,
    layerInfos (_layer r) = infos ->
    ResolvedFrom sc0 infos sc ->
    processChildren fuel slids sc r = JS.Return res ->
    ResolvedFrom sc0 infos res.1.2.
Proof.
  intros Hnode. induction slids as [| slid slids IH]; intros sc r res Hlayer Hres;
    unfold processChildren; cbn [forEachChild].
  - intros [= <-]. exact Hres.
  - destruct (JS.array_get (layerInfos (_layer r)) (JS.Int slid)) as [child |] eqn:Hchild;
      [| discriminate].
    intros H. apply bind_Return in H as ([[node sc1] r1] & Hrun1 & H).
    apply bind_Return in H as ([[nodes sc2] r2] & Hrun2 & H).
    injection H as <-. cbn [fst snd].
    pose proof (processLayerInfo_sound _ _ _ _ _ Hrun1) as (Hext1 & _).
    apply (IH sc1 r1 (nodes, sc2, r2)).
    + cbn in Hext1. rewrite (ext_layer _ _ Hext1). exact Hlayer.
    + apply (Hnode child sc r (node, sc1, r1) Hlayer); [| exact Hres | exact Hrun1].
      rewrite Hlayer in Hchild. eapply array_get_elem, Hchild.
    + exact Hrun2.
Qed.

Lemma processLayerInfo_resolved (fuel : nat) : NodeResolved sc0 infos fuel.
Proof.
  induction fuel as [| fuel IH]; intros layerInfo sc r res Hlayer Hin Hres; [discriminate |].
  rewrite processLayerInfo_S. cbv zeta.
  pose proof (fetchSubConfig_ResolvedFrom layerInfo sc Hin Hres) as Hres1.
  destruct (subLayerIds layerInfo) as [[| slid slids] |].
  - intros [= <-]. exact Hres1.
  - intros H. apply bind_Return in H as (res1 & Hrun & H).
    injection H as <-. cbn [fst snd].
    eapply (processChildren_resolved fuel IH); eassumption.
  - intros [= <-]. exact Hres1.
Qed.

Lemma processEntries_resolved (fuel : nat) :
  forall entries sc r res,
    layerInfos (_layer r) = infos ->
    ResolvedFrom sc0 infos sc ->
    processEntries fuel entries sc r = JS.Return res ->
    ResolvedFrom sc0 infos res.1.2.
Proof.
  induction entries as [| le entries IH]; intros sc r res Hlayer Hres; cbn [processEntries].
  - intros [= <-]. exact Hres.
  - destruct (stateOnly le); [apply IH; assumption |].
    destruct (JS.array_get (layerInfos (_layer r)) (index le)) as [layerInfo |] eqn:Hinfo;
      [| discriminate].
    intros H. apply bind_Return in H as ([[node sc1] r1] & Hrun1 & H).
    apply bind_Return in H as ([[nodes sc2] r2] & Hrun2 & H).
    injection H as <-. cbn [fst snd].
    pose proof (processLayerInfo_sound _ _ _ _ _ Hrun1) as (Hext1 & _).
    apply (IH sc1 r1 (nodes, sc2, r2)).
    + cbn in Hext1. rewrite (ext_layer _ _ Hext1). exact Hlayer.
    + apply (processLayerInfo_resolved fuel layerInfo sc r (node, sc1, r1) Hlayer);
        [| exact Hres | exact Hrun1].
      rewrite Hlayer in Hinfo. eapply array_get_elem, Hinfo.
    + exact Hrun2.
Qed.

End ResolvedNames.

(** ** Proxies across the load *)

Section ProxyUpgrade.

Import Config DynamicRecord DynamicSpec.

(** A proxy converted to a dynamic leaf is no placeholder and every
    accessor the conversion installs goes to the feature class. *)
Lemma convertToDynamicLeaf_delegates (dFC : DynamicFC.t) (i0 : LayerInterface.t) :
  let i := LayerInterface.convertToDynamicLeaf dFC i0 in
  LayerInterface.isPlaceholder i = false
  /\ LayerInterface._source i = LayerInterface.DynamicSource dFC
  /\ (forall p, p <> LayerInterface.snapshot ->
        exists a, LayerInterface.get i p = JS.Return a
                  /\ accessedSource a = Some (LayerInterface.DynamicSource dFC))
  /\ (forall m, m <> LayerInterface.setSnapshot ->
        exists a, LayerInterface.call i m = JS.Return a
                  /\ accessedSource a = Some (LayerInterface.DynamicSource dFC)).
Proof.
  cbv zeta. split_and!; try reflexivity.
  - intros p Hp. destruct p; try congruence; eexists; split; reflexivity.
  - intros m Hm. destruct m; try congruence; eexists; split; reflexivity.
Qed.

Lemma resolved_proxy (r : t) (k : string) (h : Handle) (fuel : nat)
    (bundle : AttributeBundle) (sc : gmap string SubConfig) (r' : t) (dFC : DynamicFC.t) :
  PreLoad r ->
  _proxies r !! k = Some h ->
  resolve fuel bundle r = JS.Return (sc, r') ->
  JS.obj_get (_featClasses r') k = Some dFC ->
  _proxies r' !! k = Some h
  /\ exists i0, store r' !! h = Some (LayerInterface.convertToDynamicLeaf dFC i0).
Proof.
  intros Hpre Hk Hres Hfc.
  destruct (PreLoad_inv r Hpre) as (Hok & Hnofc & _ & _).
  destruct (resolve_facts _ _ _ _ _ Hres) as (_ & Hprox & Hlinked & _).
  split; [apply Hprox, Hk |].
  apply (Hlinked Hok Hnofc k dFC h Hfc), Hprox, Hk.
Qed.

End ProxyUpgrade.

(** C1: before the load, [getChildProxy] never fails; it returns a handle
    cached under the index, so that a second call returns the same handle
    and changes nothing; the proxy behind the handle reports
    [isPlaceholder] true and has a placeholder as source, for an index
    not yet cached it is a new object built on a fresh placeholder, and
    another index gets another handle. Once
    the load handler has built the feature class of that index, the same
    handle is still cached under the index, and the proxy behind it reports
    [isPlaceholder] false, has that feature class as source, and every
    accessor and method the conversion installs goes to it. *)
Theorem getChildProxy_placeholder_until_resolved :
  (forall (r : DynamicRecord.t) (featureIdx : Z),
      DynamicSpec.PreLoad r ->
      let h := (DynamicRecord.getChildProxy featureIdx r).1 in
      let r1 := (DynamicRecord.getChildProxy featureIdx r).2 in
      DynamicSpec.PreLoad r1
      /\ DynamicRecord._proxies r1 !! JS.toString featureIdx = Some h
      /\ DynamicRecord.getChildProxy featureIdx r1 = (h, r1)
      /\ (exists i pfc,
            DynamicRecord.store r1 !! h = Some i
            /\ LayerInterface.isPlaceholder i = true
            /\ LayerInterface._source i = LayerInterface.PlaceholderSource pfc)
      /\ (DynamicRecord._proxies r !! JS.toString featureIdx = None ->
          h = length (DynamicRecord.store r)
          /\ DynamicRecord.store r1
             = (DynamicRecord.store r ++ [DynamicSpec.freshPlaceholderProxy])%list)
      /\ (forall featureIdx' : Z,
            featureIdx <> featureIdx' ->
            (DynamicRecord.getChildProxy featureIdx' r1).1 <> h))
  /\ (forall (r : DynamicRecord.t) (featureIdx : Z) (h : DynamicRecord.Handle) (fuel : nat)
        (bundle : DynamicRecord.AttributeBundle) (r' : DynamicRecord.t) (dFC : DynamicFC.t),
        DynamicSpec.PreLoad r ->
        DynamicRecord._proxies r !! JS.toString featureIdx = Some h ->
        (DynamicRecord.onLoad fuel bundle r = JS.Return r'
         \/ exists sc, DynamicRecord.resolve fuel bundle r = JS.Return (sc, r')) ->
        JS.obj_get (DynamicRecord._featClasses r') (JS.toString featureIdx) = Some dFC ->
        DynamicRecord._proxies r' !! JS.toString featureIdx = Some h
        /\ exists i,
            DynamicRecord.store r' !! h = Some i
            /\ LayerInterface.isPlaceholder i = false
            /\ LayerInterface._source i = LayerInterface.DynamicSource dFC
            /\ (forall p, p <> LayerInterface.snapshot ->
                  exists a, LayerInterface.get i p = JS.Return a
                            /\ DynamicSpec.accessedSource a
                               = Some (LayerInterface.DynamicSource dFC))
            /\ (forall m, m <> LayerInterface.setSnapshot ->
                  exists a, LayerInterface.call i m = JS.Return a
                            /\ DynamicSpec.accessedSource a
                               = Some (LayerInterface.DynamicSource dFC))).
Proof.
  split.
  - intros r featureIdx Hpre h r1.
    assert (Hpre1 : DynamicSpec.PreLoad r1) by (apply DynamicSpec.preload_getChildProxy, Hpre).
    assert (Hcached : DynamicRecord._proxies r1 !! JS.toString featureIdx = Some h)
      by apply getChildProxy_caches.
    split_and!.
    + exact Hpre1.
    + exact Hcached.
    + apply getChildProxy_cached, Hcached.
    + destruct (PreLoad_inv r1 Hpre1) as (_ & _ & _ & Hph).
      destruct (Hph _ _ Hcached) as (i & pfc & Hi). eauto.
    + intros Hs. subst h r1. rewrite (getChildProxy_new _ _ Hs). split; reflexivity.
    + intros featureIdx' Hne. apply getChildProxy_distinct; assumption.
  - intros r featureIdx h fuel bundle r' dFC Hpre Hk Hrun Hfc.
    assert (Hres : exists sc r0,
               DynamicRecord.resolve fuel bundle r = JS.Return (sc, r0)
               /\ DynamicRecord._proxies r' = DynamicRecord._proxies r0
               /\ DynamicRecord.store r' = DynamicRecord.store r0
               /\ DynamicRecord._featClasses r' = DynamicRecord._featClasses r0).
    { destruct Hrun as [Hload | [sc Hres]].
      - apply onLoad_inv in Hload as (sc & r0 & Hres & Hp & Hs & Hf & _). eauto 8.
      - exists sc, r'. auto. }
    destruct Hres as (sc & r0 & Hres & Hp & Hs & Hf).
    rewrite Hp, Hs. rewrite Hf in Hfc.
    destruct (resolved_proxy r _ h fuel bundle sc r0 dFC Hpre Hk Hres Hfc) as (Hh & i0 & Hi0).
    split; [exact Hh |].
    exists (LayerInterface.convertToDynamicLeaf dFC i0).
    split; [exact Hi0 |].
    apply (convertToDynamicLeaf_delegates dFC i0).
Qed.

(** C9: on a record whose layer has not loaded, [getChildTree] throws;
    after the load handler has run (to its end, or up to the point where
    the feature classes are built) it returns the tree the walk over the
    config entries built. *)
Theorem getChildTree_only_after_load :
  (forall r : DynamicRecord.t,
      DynamicSpec.PreLoad r ->
      DynamicRecord.getChildTree r
      = JS.Throw (JS.Error_ "Called getChildTree before layer is loaded"))
  /\ (forall (fuel : nat) (bundle : DynamicRecord.AttributeBundle) (r r' : DynamicRecord.t),
        (DynamicRecord.onLoad fuel bundle r = JS.Return r'
         \/ exists sc, DynamicRecord.resolve fuel bundle r = JS.Return (sc, r')) ->
        exists tree sc r1,
          DynamicRecord.processEntries fuel (DynamicRecord.layerEntries r)
            (DynamicRecord.collateSubConfigs (DynamicRecord.layerEntries r)
               (DynamicRecord._configIsComplete r))
            (DynamicRecord.with_isTrueDynamic r
               (DynamicRecord.supportsDynamicLayers (DynamicRecord._layer r)))
          = JS.Return (tree, sc, r1)
          /\ DynamicRecord.getChildTree r' = JS.Return tree).
Proof.
  split.
  - intros r Hpre. destruct (PreLoad_inv r Hpre) as (_ & _ & Htree & _).
    unfold DynamicRecord.getChildTree. rewrite Htree. reflexivity.
  - intros fuel bundle r r' Hrun.
    assert (Hres : exists sc r0,
               DynamicRecord.resolve fuel bundle r = JS.Return (sc, r0)
               /\ DynamicRecord._childTree r' = DynamicRecord._childTree r0).
    { destruct Hrun as [Hload | [sc Hres]].
      - apply onLoad_inv in Hload as (sc & r0 & Hres & _ & _ & _ & Ht & _). eauto.
      - exists sc, r'. auto. }
    destruct Hres as (sc & r0 & Hres & Ht).
    apply resolve_inv in Hres as (tree & r1 & Hwalk & Hload).
    exists tree, sc, r1. split; [exact Hwalk |].
    apply loadFeatureClasses_Loaded in Hload.
    unfold DynamicRecord.getChildTree.
    rewrite Ht, (DynamicSpec.ld_childTree _ _ Hload). reflexivity.
Qed.

(** C7: the code throws where the specification expects a call of
    [setVisibleLayers]. With a config marked complete, the block that
    computes the visible indexes reads [.config] from the config object
    that [fetchSubConfig] returns, so it throws as soon as one feature
    class was created; only with no feature class at all does it hand the
    list [-1] to [setVisibleLayers]. For one visible, fully configured
    sub-layer the handler ends in a TypeError and the layer receives no
    call. *)
Theorem onLoad_complete_config_throws :
  (forall (sc : gmap string DynamicRecord.SubConfig) (r : DynamicRecord.t),
      DynamicRecord._featClasses r <> [] ->
      DynamicRecord.setInitialVisibility sc r
      = JS.Throw (JS.TypeError "Cannot read property 'state' of undefined"))
  /\ (forall (sc : gmap string DynamicRecord.SubConfig) (r r' : DynamicRecord.t),
        DynamicRecord.setInitialVisibility sc r = JS.Return r' ->
        DynamicRecord._featClasses r = []
        /\ DynamicRecord.setVisibleLayers_calls (DynamicRecord._layer r')
           = [JS.Int (-1)]
               :: DynamicRecord.setVisibleLayers_calls (DynamicRecord._layer r))
  /\ (let le := {| Config.index := JS.Int 0; Config.name := Some "Lakes";
                   Config.state := Some {| Config.opacity := 1; Config.visibility := true;
                                           Config.query := true |};
                   Config.outfields := Some "*"; Config.stateOnly := false;
                   Config.extent := None |} in
      let esriLayer := {| DynamicRecord.layerInfos :=
                            [{| DynamicRecord.id := 0; DynamicRecord.li_name := "Lakes";
                                DynamicRecord.subLayerIds := None |}];
                          DynamicRecord.supportsDynamicLayers := true;
                          DynamicRecord.setVisibleLayers_calls := [] |} in
      DynamicRecord.onLoad 1 {| DynamicRecord.indexes := ["0"] |}
        (DynamicRecord.constructor [le] esriLayer true)
      = JS.Throw (JS.TypeError "Cannot read property 'state' of undefined")).
Proof.
  split_and!.
  - apply setInitialVisibility_throws.
  - intros sc r r' H. apply setInitialVisibility_inv in H as [Hfc ->]. split; [exact Hfc |].
    reflexivity.
  - vm_compute. reflexivity.
Qed.

(** ** The child tree *)

Section ChildTree.

Import Config DynamicRecord DynamicSpec.

Lemma collateSubConfigs_StateReady (entries : list LayerEntry) (complete : bool) :
  complete = false \/ (forall le, le ∈ entries -> is_Some (state le)) ->
  StateReady (collateSubConfigs entries complete).
Proof.
  intros H k subC Hk Hd.
  apply collateSubConfigs_defaulted in Hk as [Hc Hin].
  destruct H as [-> | H]; [congruence | apply H, Hin].
Qed.

Lemma resolve_returns (fuel : nat) (bundle : AttributeBundle) (r : t) :
  length (layerInfos (_layer r)) <= fuel ->
  Hierarchy (layerInfos (_layer r)) ->
  ConfigOnServer (layerEntries r) (layerInfos (_layer r)) ->
  _configIsComplete r = false \/ (forall le, le ∈ layerEntries r -> is_Some (state le)) ->
  exists sc r', resolve fuel bundle r = JS.Return (sc, r').
Proof.
  intros Hfuel Hh Hcfg Hc. unfold resolve. cbv zeta.
  cbn [layerEntries _configIsComplete with_isTrueDynamic].
  destruct (processEntries_returns (layerInfos (_layer r)) Hh fuel (layerEntries r)
              Hfuel Hcfg
              (collateSubConfigs (layerEntries r) (_configIsComplete r))
              (with_isTrueDynamic r (supportsDynamicLayers (_layer r))) eq_refl)
    as [[[tree sc] r1] Hwalk].
  rewrite Hwalk, bind_Return_l. cbv beta iota.
  apply processEntries_sound in Hwalk as (_ & _ & Hready & _). cbn in Hready.
  destruct (loadFeatureClasses_total (indexes bundle) sc
              (Hready (collateSubConfigs_StateReady _ _ Hc))
              (with_childTree r1 (Some tree)))
    as [r' Hload].
  rewrite Hload, bind_Return_l. eauto.
Qed.

Lemma resolve_resolvedFrom (fuel : nat) (bundle : AttributeBundle) (r : t)
    (sc : gmap string SubConfig) (r' : t) :
  resolve fuel bundle r = JS.Return (sc, r') ->
  ResolvedFrom (collateSubConfigs (layerEntries r) (_configIsComplete r))
               (layerInfos (_layer r)) sc.
Proof.
  intros H. apply resolve_inv in H as (tree & r1 & Hwalk & _).
  apply (processEntries_resolved _ (layerInfos (_layer r)) fuel _ _
           (with_isTrueDynamic r (supportsDynamicLayers (_layer r))) _ eq_refl
           (ResolvedFrom_refl _ _) Hwalk).
Qed.

End ChildTree.

(** ** The feature record *)

(** C10: from construction the feature class table of a feature record
    has, under the default index "0", a placeholder named after the layer;
    the load handler keeps an entry under the default index whether it
    returns or throws; when it returns, the default index is the first
    index the attribute bundle reports and the entry under it is an
    attributed feature class built for that index; and with a state in the
    config the handler does return. *)
Theorem featureRecord_default_class_present :
  (forall (layerName : option string) (config : Config.LayerConfig)
      (featClasses : gmap string FeatureRecord.FeatureClass),
      let r := FeatureRecord.constructor layerName config featClasses in
      FeatureRecord._defaultFC r = Some "0"
      /\ FeatureRecord.defaultFeatureClass r
         = Some (FeatureRecord.Placeholder {| PlaceholderFC.name := layerName |}))
  /\ (forall (indexes : list string) (r : FeatureRecord.t),
        is_Some (FeatureRecord.defaultFeatureClass r) ->
        is_Some (FeatureRecord.defaultFeatureClass (FeatureRecord.onLoad indexes r).1))
  /\ (forall (indexes : list string) (r : FeatureRecord.t),
        is_Some (Config.lc_state (FeatureRecord.config r)) ->
        let r' := (FeatureRecord.onLoad indexes r).1 in
        (FeatureRecord.onLoad indexes r).2 = None
        /\ FeatureRecord._defaultFC r' = indexes !! 0
        /\ exists aFC,
            FeatureRecord.defaultFeatureClass r' = Some (FeatureRecord.Attrib aFC)
            /\ BasicFC._idx (AttribFC.base aFC) = indexes !! 0
            /\ AttribFC.fc_nameField aFC = Config.nameField (FeatureRecord.config r))
  /\ (forall (indexes : list string) (r : FeatureRecord.t) (e : JS.Error),
        (FeatureRecord.onLoad indexes r).2 = Some e ->
        (FeatureRecord.onLoad indexes r).1 = r
        /\ Config.lc_state (FeatureRecord.config r) = None).
Proof.
  split_and!.
  - intros layerName config featClasses r. split; [reflexivity |].
    unfold FeatureRecord.defaultFeatureClass. cbn. apply lookup_insert_eq.
  - intros indexes r Hsome. unfold FeatureRecord.onLoad.
    destruct (AttribFC.constructor (indexes !! 0) (FeatureRecord.config r)); cbn;
      [| exact Hsome | exact Hsome].
    unfold FeatureRecord.defaultFeatureClass. cbn. rewrite lookup_insert_eq. eauto.
  - intros indexes r [st Hst] r'. subst r'. unfold FeatureRecord.onLoad.
    unfold AttribFC.constructor, BasicFC.constructor. cbn. rewrite Hst. cbn.
    split_and!; try reflexivity.
    eexists. unfold FeatureRecord.defaultFeatureClass. cbn.
    rewrite lookup_insert_eq. split_and!; reflexivity.
  - intros indexes r e. unfold FeatureRecord.onLoad.
    unfold AttribFC.constructor, BasicFC.constructor. cbn.
    destruct (Config.lc_state (FeatureRecord.config r)); cbn; [discriminate |].
    intros _. split; reflexivity.
Qed.

(** ** Instances *)

(** C1 on the sample record, for the proxy of index 2 requested before
    the load. *)
Lemma getChildProxy_placeholder_until_resolved_witness :
  let r := (DynamicRecord.getChildProxy 2 exampleRecord).2 in
  (exists i pfc,
      DynamicRecord.store r !! (DynamicRecord.getChildProxy 2 exampleRecord).1 = Some i
      /\ LayerInterface.isPlaceholder i = true
      /\ LayerInterface._source i = LayerInterface.PlaceholderSource pfc)
  /\ exists r' dFC,
      DynamicRecord.onLoad 5 exampleBundle r = JS.Return r'
      /\ JS.obj_get (DynamicRecord._featClasses r') (JS.toString 2) = Some dFC
      /\ DynamicRecord._proxies r' !! JS.toString 2 = Some 0
      /\ exists i,
          DynamicRecord.store r' !! 0 = Some i
          /\ LayerInterface.isPlaceholder i = false
          /\ LayerInterface._source i = LayerInterface.DynamicSource dFC
          /\ (forall p, p <> LayerInterface.snapshot ->
                exists a, LayerInterface.get i p = JS.Return a
                          /\ DynamicSpec.accessedSource a
                             = Some (LayerInterface.DynamicSource dFC))
          /\ (forall m, m <> LayerInterface.setSnapshot ->
                exists a, LayerInterface.call i m = JS.Return a
                          /\ DynamicSpec.accessedSource a
                             = Some (LayerInterface.DynamicSource dFC)).
Proof.
  cbv zeta. split.
  - exact (proj1 (proj2 (proj2 (proj2
             (proj1 getChildProxy_placeholder_until_resolved exampleRecord 2%Z
                (DynamicSpec.preload_constructed _ _ _)))))).
  - eexists. eexists.
    split; [vm_compute; reflexivity |].
    split; [vm_compute; reflexivity |].
    apply (proj2 getChildProxy_placeholder_until_resolved
             (DynamicRecord.getChildProxy 2 exampleRecord).2 2%Z 0 5 exampleBundle).
    + apply DynamicSpec.preload_getChildProxy, DynamicSpec.preload_constructed.
    + vm_compute. reflexivity.
    + left. vm_compute. reflexivity.
    + vm_compute. reflexivity.
Defined.

(** C9 on the sample record. *)
Lemma getChildTree_only_after_load_witness :
  DynamicRecord.getChildTree exampleRecord
  = JS.Throw (JS.Error_ "Called getChildTree before layer is loaded")
  /\ exists r',
      DynamicRecord.onLoad 5 exampleBundle exampleRecord = JS.Return r'
      /\ exists tree sc r1,
          DynamicRecord.processEntries 5 (DynamicRecord.layerEntries exampleRecord)
            (DynamicRecord.collateSubConfigs (DynamicRecord.layerEntries exampleRecord)
               (DynamicRecord._configIsComplete exampleRecord))
            (DynamicRecord.with_isTrueDynamic exampleRecord
               (DynamicRecord.supportsDynamicLayers (DynamicRecord._layer exampleRecord)))
          = JS.Return (tree, sc, r1)
          /\ DynamicRecord.getChildTree r' = JS.Return tree.
Proof.
  split.
  - apply (proj1 getChildTree_only_after_load exampleRecord).
    apply DynamicSpec.preload_constructed.
  - eexists. split; [vm_compute; reflexivity |].
    apply (proj2 getChildTree_only_after_load 5 exampleBundle exampleRecord).
    left. vm_compute. reflexivity.
Defined.

(** C10 for a feature layer whose bundle reports the index "3". *)
Lemma featureRecord_default_class_present_witness :
  let config := {| Config.lc_name := Some "Wells";
                   Config.lc_state := Some {| Config.opacity := 1; Config.visibility := true;
                                              Config.query := true |};
                   Config.lc_extent := None;
                   Config.nameField := Some "WELL_NAME" |} in
  let r := FeatureRecord.constructor (Some "Wells") config ∅ in
  let r' := (FeatureRecord.onLoad ["3"] r).1 in
  is_Some (FeatureRecord.defaultFeatureClass r')
  /\ (FeatureRecord.onLoad ["3"] r).2 = None
  /\ FeatureRecord._defaultFC r' = Some "3"
  /\ exists aFC,
      FeatureRecord.defaultFeatureClass r' = Some (FeatureRecord.Attrib aFC)
      /\ BasicFC._idx (AttribFC.base aFC) = Some "3"
      /\ AttribFC.fc_nameField aFC = Some "WELL_NAME".
Proof.
  cbv zeta. split.
  - apply (proj1 (proj2 featureRecord_default_class_present) ["3"]).
    vm_compute. eauto.
  - apply (proj1 (proj2 (proj2 featureRecord_default_class_present)) ["3"]).
    vm_compute. eauto.
Defined.

(** * Further properties of the code *)

(** ** The WMS title lookup and symbology load *)

Section WmsMore.

Import WmsFC.

Lemma crawlSubLayers_None_of_preorder (l : list WMSLayerInfo) (wmsLayerId : string) :
  (forall m, m ∈ flat_map preorder l -> name m <> Some wmsLayerId) ->
  crawlSubLayers l wmsLayerId = None.
Proof.
  intros Hnone. destruct (crawlSubLayers l wmsLayerId) as [m |] eqn:Hm; [| reflexivity].
  apply crawlSubLayers_top_level in Hm as [Hin Hname].
  exfalso. apply (Hnone m); [| exact Hname].
  apply list_elem_of_In, in_flat_map. exists m. split; [apply list_elem_of_In, Hin |].
  destruct m. left. reflexivity.
Qed.

Lemma preorder_children (li : WMSLayerInfo) (children : list WMSLayerInfo) (m : WMSLayerInfo) :
  subLayers li = Some children -> m ∈ flat_map preorder children -> m ∈ preorder li.
Proof.
  destruct li as [n ti subs]. cbn. intros -> Hm. right. exact Hm.
Qed.

Lemma crawlSubLayers_skip (pre rest : list WMSLayerInfo) (wmsLayerId : string) :
  (forall m, m ∈ flat_map preorder pre -> name m <> Some wmsLayerId) ->
  crawlSubLayers (pre ++ rest) wmsLayerId = crawlSubLayers rest wmsLayerId.
Proof.
  induction pre as [| li pre IH]; intros Hnone; [reflexivity |].
  cbn [app crawlSubLayers]. rewrite someCallback_unfold.
  assert (Hli : forall m, m ∈ preorder li -> name m <> Some wmsLayerId).
  { intros m Hm. apply Hnone. cbn. apply elem_of_app. left. exact Hm. }
  rewrite decide_False.
  2:{ apply Hli. destruct li. left. }
  assert (Hrest : crawlSubLayers (pre ++ rest) wmsLayerId = crawlSubLayers rest wmsLayerId).
  { apply IH. intros m Hm. apply Hnone. cbn. apply elem_of_app. right. exact Hm. }
  destruct (subLayers li) as [children |] eqn:Hsub; [| exact Hrest].
  rewrite (crawlSubLayers_None_of_preorder children).
  - rewrite bool_decide_eq_false_2; [exact Hrest |]. intros [? [=]].
  - intros m Hm. apply Hli. eapply preorder_children; eassumption.
Qed.

End WmsMore.

(** A title the lookup returns belongs to a top-level entry of the catalog
    that is named by the id: the title of a nested entry is never
    returned, and without a top-level entry of that name the result is the
    empty string. *)
Theorem getWMSLayerTitle_from_top_level
    (layerInfos : list WmsFC.WMSLayerInfo) (wmsLayerId : string) :
  WmsFC.getWMSLayerTitle layerInfos wmsLayerId <> "" ->
  exists m, m ∈ layerInfos
            /\ WmsFC.name m = Some wmsLayerId
            /\ WmsFC.title m = Some (WmsFC.getWMSLayerTitle layerInfos wmsLayerId).
Proof.
  unfold WmsFC.getWMSLayerTitle.
  destruct (WmsFC.crawlSubLayers layerInfos wmsLayerId) as [m |] eqn:Hm; [| congruence].
  apply crawlSubLayers_top_level in Hm as [Hin Hname].
  intros Hne. exists m. split; [exact Hin | split; [exact Hname |]].
  destruct (WmsFC.title m) as [ti |]; cbn in *; [| congruence].
  destruct (String.eqb ti ""); [congruence | reflexivity].
Qed.

Lemma getWMSLayerTitle_from_top_level_witness :
  let layerInfos := [WmsFC.mkInfo (Some "roads") (Some "Road network") None] in
  exists m, m ∈ layerInfos
            /\ WmsFC.name m = Some "roads"
            /\ WmsFC.title m = Some (WmsFC.getWMSLayerTitle layerInfos "roads").
Proof.
  cbv zeta.
  apply (getWMSLayerTitle_from_top_level
           [WmsFC.mkInfo (Some "roads") (Some "Road network") None] "roads").
  vm_compute. discriminate.
Defined.

(** When no node in the branches before a top-level entry carries the id
    and that entry does, the lookup returns the title of that entry (the
    empty string when it has none): a first match that sits at the top
    level is found, whatever nesting comes before or after it. *)
Theorem getWMSLayerTitle_first_match_at_top
    (pre post : list WmsFC.WMSLayerInfo) (m : WmsFC.WMSLayerInfo) (wmsLayerId : string) :
  (forall n, n ∈ flat_map WmsFC.preorder pre -> WmsFC.name n <> Some wmsLayerId) ->
  WmsFC.name m = Some wmsLayerId ->
  WmsFC.getWMSLayerTitle (pre ++ m :: post) wmsLayerId = JS.or_else (WmsFC.title m) ""
  /\ WmsFC.getWMSLayerTitle (pre ++ m :: post) wmsLayerId
     = WmsFC.spec_title (pre ++ m :: post) wmsLayerId.
Proof.
  intros Hpre Hm.
  assert (Hcode : WmsFC.crawlSubLayers (pre ++ m :: post) wmsLayerId = Some m).
  { rewrite (crawlSubLayers_skip pre (m :: post) wmsLayerId Hpre).
    cbn [WmsFC.crawlSubLayers]. rewrite someCallback_unfold, decide_True by exact Hm.
    reflexivity. }
  assert (Hspec : List.find (fun li => bool_decide (WmsFC.name li = Some wmsLayerId))
                    (flat_map WmsFC.preorder (pre ++ m :: post)) = Some m).
  { rewrite flat_map_app.
    assert (Hfind : forall l l' : list WmsFC.WMSLayerInfo,
               (forall n, n ∈ l -> WmsFC.name n <> Some wmsLayerId) ->
               List.find (fun li => bool_decide (WmsFC.name li = Some wmsLayerId)) (l ++ l')
               = List.find (fun li => bool_decide (WmsFC.name li = Some wmsLayerId)) l').
    { induction l as [| x l IH]; intros l' Hl; [reflexivity |]. cbn.
      rewrite bool_decide_eq_false_2 by (apply Hl; left).
      apply IH. intros n Hn. apply Hl. right. exact Hn. }
    rewrite (Hfind _ _ Hpre). destruct m as [n ti subs]. cbn in *.
    rewrite bool_decide_eq_true_2 by exact Hm. reflexivity. }
  unfold WmsFC.getWMSLayerTitle, WmsFC.spec_title. rewrite Hcode, Hspec. split; reflexivity.
Qed.

Lemma getWMSLayerTitle_first_match_at_top_witness :
  let group := WmsFC.mkInfo (Some "hydro") (Some "Hydrography")
                 (Some [WmsFC.mkInfo (Some "lakes") (Some "Lakes") None]) in
  let roads := WmsFC.mkInfo (Some "roads") (Some "Road network") None in
  WmsFC.getWMSLayerTitle ([group] ++ roads :: []) "roads" = JS.or_else (WmsFC.title roads) ""
  /\ WmsFC.getWMSLayerTitle ([group] ++ roads :: []) "roads"
     = WmsFC.spec_title ([group] ++ roads :: []) "roads".
Proof.
  cbv zeta.
  apply (getWMSLayerTitle_first_match_at_top
           [WmsFC.mkInfo (Some "hydro") (Some "Hydrography")
              (Some [WmsFC.mkInfo (Some "lakes") (Some "Lakes") None])] []
           (WmsFC.mkInfo (Some "roads") (Some "Road network") None) "roads").
  - intros n Hn. vm_compute in Hn.
    repeat (apply elem_of_cons in Hn as [-> | Hn]; [discriminate |]).
    apply elem_of_nil in Hn. contradiction.
  - reflexivity.
Defined.

Section SymbologyMore.

Import WmsFC.

Lemma loadSymbology_from_short (layerInfos : list WMSLayerInfo)
    (configLayerEntries : list WmsLayerEntry) (legendUrls : list string) :
  forall k : nat,
    k <= length configLayerEntries ->
    length configLayerEntries < k + length legendUrls ->
    loadSymbology_from layerInfos configLayerEntries k legendUrls
    = JS.Throw (JS.TypeError "Cannot read property 'name' of undefined").
Proof.
  induction legendUrls as [| uri rest IH]; intros k Hk Hlen; cbn in *; [lia |].
  destruct (configLayerEntries !! k) as [le |] eqn:Hle; [| reflexivity].
  apply lookup_lt_Some in Hle.
  rewrite IH by lia. reflexivity.
Qed.

End SymbologyMore.

(** The symbology load of the WMS feature class makes one item per legend
    url, in the order of the urls and each with its url, when the config
    has an entry for every url; with more legend urls than config entries
    it throws a TypeError. *)
Theorem loadSymbology_one_item_per_url :
  (forall (layerInfos : list WmsFC.WMSLayerInfo) (configLayerEntries : list WmsFC.WmsLayerEntry)
      (legendUrls : list string),
      length legendUrls <= length configLayerEntries ->
      exists items,
        WmsFC.loadSymbology layerInfos configLayerEntries legendUrls = JS.Return items
        /\ map snd items = legendUrls
        /\ map fst items
           = map (WmsFC.symbologyName layerInfos) (take (length legendUrls) configLayerEntries))
  /\ (forall (layerInfos : list WmsFC.WMSLayerInfo)
        (configLayerEntries : list WmsFC.WmsLayerEntry) (legendUrls : list string),
        length configLayerEntries < length legendUrls ->
        WmsFC.loadSymbology layerInfos configLayerEntries legendUrls
        = JS.Throw (JS.TypeError "Cannot read property 'name' of undefined")).
Proof.
  split.
  - intros layerInfos configLayerEntries legendUrls Hlen.
    destruct (loadSymbology_from_items layerInfos configLayerEntries legendUrls 0)
      as (items & Hrun & Hlen' & Hitems); [cbn; lia |].
    exists items. split; [exact Hrun |].
    split; apply list_eq; intros j; rewrite !list_lookup_fmap.
    + destruct (legendUrls !! j) as [uri |] eqn:Huri.
      * destruct (lookup_lt_is_Some_2 configLayerEntries j) as [le Hle].
        { apply lookup_lt_Some in Huri. lia. }
        rewrite (Hitems j le uri Hle Huri). reflexivity.
      * apply lookup_ge_None in Huri.
        rewrite (proj2 (lookup_ge_None items j)) by lia. reflexivity.
    + destruct (decide (j < length legendUrls)) as [Hj | Hj].
      * rewrite lookup_take_lt by exact Hj.
        destruct (lookup_lt_is_Some_2 legendUrls j Hj) as [uri Huri].
        destruct (lookup_lt_is_Some_2 configLayerEntries j) as [le Hle]; [lia |].
        rewrite (Hitems j le uri Hle Huri), Hle. reflexivity.
      * rewrite lookup_take_ge by lia.
        rewrite (proj2 (lookup_ge_None items j)) by lia. reflexivity.
  - intros layerInfos configLayerEntries legendUrls Hlen.
    apply loadSymbology_from_short; cbn; [lia | exact Hlen].
Qed.

Lemma loadSymbology_one_item_per_url_witness :
  let layerInfos := [WmsFC.mkInfo (Some "roads") (Some "Road network") None] in
  let le := {| WmsFC.id := "roads"; WmsFC.entry_name := None |} in
  (exists items,
      WmsFC.loadSymbology layerInfos [le] ["legend.png"] = JS.Return items
      /\ map snd items = ["legend.png"]
      /\ map fst items = map (WmsFC.symbologyName layerInfos) (take 1 [le]))
  /\ WmsFC.loadSymbology layerInfos [le] ["legend.png"; "other.png"]
     = JS.Throw (JS.TypeError "Cannot read property 'name' of undefined").
Proof.
  cbv zeta. split.
  - apply (proj1 loadSymbology_one_item_per_url
             [WmsFC.mkInfo (Some "roads") (Some "Road network") None]
             [{| WmsFC.id := "roads"; WmsFC.entry_name := None |}] ["legend.png"]).
    cbn. lia.
  - apply (proj2 loadSymbology_one_item_per_url). cbn. lia.
Defined.

(** ** What an interface answers after its conversions *)

(** A proxy made a placeholder right after construction, as the dynamic
    record makes them, reports [isPlaceholder] true and answers four
    properties from the placeholder: symbology, name, state and layerType.
    Every other property and every method throws "Call not supported.".
    Pointing the proxy at another placeholder with [updateSource] changes
    where the four read from and nothing else. *)
Theorem placeholder_interface_supports_four
    (pfc pfc' : PlaceholderFC.t) (source : LayerInterface.Source) :
  let i := LayerInterface.convertToPlaceholder pfc (LayerInterface.constructor source) in
  let i' := LayerInterface.updateSource (LayerInterface.PlaceholderSource pfc') i in
  let answers (i : LayerInterface.t) (pfc : PlaceholderFC.t) :=
    LayerInterface.isPlaceholder i = true
    /\ (forall p,
          LayerInterface.get i p
          = match p with
            | LayerInterface.symbology =>
                JS.Return (LayerInterface.ReadProperty
                             (LayerInterface.PlaceholderSource pfc) "symbology")
            | LayerInterface.name =>
                JS.Return (LayerInterface.ReadProperty
                             (LayerInterface.PlaceholderSource pfc) "name")
            | LayerInterface.state =>
                JS.Return (LayerInterface.ReadProperty
                             (LayerInterface.PlaceholderSource pfc) "state")
            | LayerInterface.layerType =>
                JS.Return (LayerInterface.ReadProperty
                             (LayerInterface.PlaceholderSource pfc) "layerType")
            | _ => JS.Throw (JS.Error_ "Call not supported.")
            end)
    /\ (forall m, LayerInterface.call i m = JS.Throw (JS.Error_ "Call not supported.")) in
  answers i pfc /\ answers i' pfc'.
Proof.
  cbv zeta. split; (split_and!; [reflexivity | intros p; destruct p; reflexivity
                                 | intros m; destruct m; reflexivity]).
Qed.

(** The root proxy of a feature record is created on the first call of
    [getProxy] and returned as it is by every later call. It is no
    placeholder, its source is the record, and no property and no method of
    it is left as the stub that throws "Call not supported."; geometryType
    and featureCount are the feature getters, which ask the record, not
    the single-layer ones, which answer undefined. What the record then
    does with a delegated access is not part of the statement. *)
Theorem featureRecord_getProxy_complete :
  let first := FeatureProxy.getProxy None in
  (forall _rootProxy,
      FeatureProxy.getProxy (FeatureProxy.getProxy _rootProxy).2
      = FeatureProxy.getProxy _rootProxy)
  /\ first.2 = Some first.1
  /\ LayerInterface.isPlaceholder first.1 = false
  /\ LayerInterface._source first.1 = LayerInterface.RecordSource
  /\ (forall p, ~ Conversions.getterIsStub first.1 p)
  /\ (forall m, ~ Conversions.methodIsStub first.1 m)
  /\ LayerInterface.getters first.1 LayerInterface.geometryType
     = LayerInterface.featureGetGeometryType
  /\ LayerInterface.getters first.1 LayerInterface.featureCount
     = LayerInterface.featureGetFeatureCount.
Proof.
  cbv zeta. split_and!; try reflexivity.
  - intros [p |]; reflexivity.
  - intros p. destruct p; discriminate.
  - intros m. destruct m; discriminate.
Qed.

(** Converting any interface to a single layer makes geometryType and
    featureCount answer undefined without touching the record, whatever
    was installed before; on a new interface snapshot, formattedAttributes
    and setSnapshot keep throwing "Call not supported.". *)
Theorem singleLayer_interface_gaps (i : LayerInterface.t) (layerRecord : LayerInterface.Source) :
  let single := LayerInterface.convertToSingleLayer layerRecord i in
  let fresh := LayerInterface.convertToSingleLayer layerRecord
                 (LayerInterface.constructor layerRecord) in
  LayerInterface.isPlaceholder single = false
  /\ LayerInterface.get single LayerInterface.geometryType
     = JS.Return LayerInterface.ReturnUndefined
  /\ LayerInterface.get single LayerInterface.featureCount
     = JS.Return LayerInterface.ReturnUndefined
  /\ LayerInterface.get fresh LayerInterface.snapshot
     = JS.Throw (JS.Error_ "Call not supported.")
  /\ LayerInterface.get fresh LayerInterface.formattedAttributes
     = JS.Throw (JS.Error_ "Call not supported.")
  /\ LayerInterface.call fresh LayerInterface.setSnapshot
     = JS.Throw (JS.Error_ "Call not supported.").
Proof. cbv zeta. split_and!; reflexivity. Qed.

Section ConversionsKeep.

Import LayerInterface Conversions.

Lemma convert_keeps_getter (c : Conversion) (i : t) (p : PropName) :
  ~ getterIsStub i p -> ~ getterIsStub (convert c i) p.
Proof.
  unfold getterIsStub. intros Hp.
  destruct c; cbn; repeat case_decide; try discriminate; exact Hp.
Qed.

Lemma convert_keeps_method (c : Conversion) (i : t) (m : MethodName) :
  ~ methodIsStub i m -> ~ methodIsStub (convert c i) m.
Proof.
  unfold methodIsStub. intros Hm.
  destruct c; cbn; repeat case_decide; try discriminate; exact Hm.
Qed.

End ConversionsKeep.

(** No conversion takes an accessor away: a property or method that has
    stopped throwing "Call not supported." never throws it again, whatever
    conversions and source updates follow. *)
Theorem conversions_never_uninstall
    (cs : list Conversions.Conversion) (i : LayerInterface.t) :
  (forall p, ~ Conversions.getterIsStub i p ->
             ~ Conversions.getterIsStub (Conversions.convertAll cs i) p)
  /\ (forall m, ~ Conversions.methodIsStub i m ->
                ~ Conversions.methodIsStub (Conversions.convertAll cs i) m).
Proof.
  unfold Conversions.convertAll. revert i.
  induction cs as [| c cs IH]; intros i; cbn; [split; auto |].
  destruct (IH (Conversions.convert c i)) as [Hg Hm].
  split.
  - intros p Hp. apply Hg, convert_keeps_getter, Hp.
  - intros m Hp. apply Hm, convert_keeps_method, Hp.
Qed.

(** An instance: a dynamic leaf made a placeholder again is flagged as a
    placeholder, yet its visibility still answers by calling
    [getVisibility], now on the placeholder. *)
Lemma conversions_never_uninstall_witness :
  let dFC := {| DynamicFC.base := {| BasicFC.fc_name := "Lakes"; BasicFC._idx := Some "2";
                                     BasicFC.queryable := false;
                                     BasicFC.fc_extent := None |};
                DynamicFC.config := Config.mkEntry (JS.Int 2) None None None false None |} in
  let pfc := {| PlaceholderFC.name := Some "Lakes" |} in
  let i := LayerInterface.convertToDynamicLeaf dFC
             (LayerInterface.constructor LayerInterface.NullSource) in
  let i' := Conversions.convertAll [Conversions.ToPlaceholder pfc] i in
  ~ Conversions.getterIsStub i' LayerInterface.visibility
  /\ LayerInterface.isPlaceholder i' = true
  /\ LayerInterface.get i' LayerInterface.visibility
     = JS.Return (LayerInterface.CallMethod (LayerInterface.PlaceholderSource pfc)
                    "getVisibility").
Proof.
  cbv zeta. split; [| split; reflexivity].
  apply (proj1 (conversions_never_uninstall [Conversions.ToPlaceholder _] _)).
  discriminate.
Defined.

(** ** Hover listeners of the simple record *)

Section Listeners.

Import SimpleRecord.

Lemma indexOf_None (l : list Listener) (x : Listener) : indexOf l x = None <-> x ∉ l.
Proof.
  induction l as [| y l IH]; cbn.
  - split; [intros _; apply not_elem_of_nil | reflexivity].
  - rewrite not_elem_of_cons. destruct (decide (y = x)) as [-> | Hne].
    + split; [discriminate | intros [? _]; congruence].
    + destruct (indexOf l x); cbn.
      * split; [discriminate |]. intros [_ H]. apply IH in H. discriminate.
      * split; [| reflexivity]. intros _. split; [congruence | apply IH; reflexivity].
Qed.

Lemma indexOf_Some (l : list Listener) (x : Listener) (idx : nat) :
  indexOf l x = Some idx ->
  exists pre post, l = (pre ++ x :: post)%list /\ (x ∉ pre) /\ length pre = idx
                   /\ delete idx l = (pre ++ post)%list.
Proof.
  revert idx. induction l as [| y l IH]; intros idx; cbn; [discriminate |].
  destruct (decide (y = x)) as [-> | Hne].
  - intros [= <-]. exists [], l. split_and!; try reflexivity. apply not_elem_of_nil.
  - destruct (indexOf l x) as [j |]; cbn; [| discriminate].
    intros [= <-]. destruct (IH j eq_refl) as (pre & post & -> & Hpre & Hlen & Hdel).
    exists (y :: pre), post. split_and!; cbn.
    + reflexivity.
    + rewrite not_elem_of_cons. split; [congruence | exact Hpre].
    + rewrite Hlen. reflexivity.
    + exact (f_equal (cons y) Hdel).
Qed.

End Listeners.

(** Removing a hover listener that is not registered throws and removing a
    registered one takes out its first registration and nothing else, so
    one registration fewer remains; removing a listener right after adding
    it to a list that did not hold it gives the list back. *)
Theorem removeHoverListener_first_registration :
  (forall (cb : SimpleRecord.Listener) (listeners : list SimpleRecord.Listener),
      cb ∉ listeners ->
      SimpleRecord.removeHoverListener cb listeners
      = JS.Throw (JS.Error_ "Attempting to remove a listener which is not registered."))
  /\ (forall (cb : SimpleRecord.Listener) (listeners : list SimpleRecord.Listener),
        cb ∈ listeners ->
        exists pre post,
          listeners = (pre ++ cb :: post)%list
          /\ (cb ∉ pre)
          /\ SimpleRecord.removeHoverListener cb listeners = JS.Return (pre ++ post)%list)
  /\ (forall (cb : SimpleRecord.Listener) (listeners : list SimpleRecord.Listener),
        cb ∉ listeners ->
        SimpleRecord.removeHoverListener cb (SimpleRecord.addHoverListener cb listeners).2
        = JS.Return listeners).
Proof.
  split_and!.
  - intros cb listeners Hcb. unfold SimpleRecord.removeHoverListener.
    rewrite (proj2 (indexOf_None listeners cb) Hcb). reflexivity.
  - intros cb listeners Hcb. unfold SimpleRecord.removeHoverListener.
    destruct (SimpleRecord.indexOf listeners cb) as [idx |] eqn:Hidx.
    + destruct (indexOf_Some _ _ _ Hidx) as (pre & post & Hl & Hpre & _ & Hdel).
      exists pre, post. rewrite Hdel. auto.
    + apply indexOf_None in Hidx. contradiction.
  - intros cb listeners Hcb. unfold SimpleRecord.removeHoverListener.
    cbn [SimpleRecord.addHoverListener snd].
    destruct (SimpleRecord.indexOf (listeners ++ [cb]) cb) as [idx |] eqn:Hidx.
    + destruct (indexOf_Some _ _ _ Hidx) as (pre & post & Hl & Hpre & _ & Hdel).
      rewrite Hdel. f_equal.
      assert (Hpost : post = [] /\ pre = listeners).
      { destruct post as [| z post].
        - apply app_inj_tail in Hl as [-> _]. auto.
        - exfalso. apply Hcb.
          change (pre ++ cb :: z :: post)%list with (pre ++ [cb] ++ z :: post)%list in Hl.
          rewrite app_assoc in Hl.
          destruct (exists_last (l := z :: post)) as (post' & last & Hlast); [discriminate |].
          rewrite Hlast, app_assoc in Hl.
          apply app_inj_tail in Hl as [-> _].
          apply elem_of_app. left. apply elem_of_app. right.
          apply elem_of_cons. left. reflexivity. }
      destruct Hpost as [-> ->]. apply app_nil_r.
    + apply indexOf_None in Hidx. exfalso. apply Hidx.
      apply elem_of_app. right. apply elem_of_cons. left. reflexivity.
Qed.

Lemma removeHoverListener_first_registration_witness :
  SimpleRecord.removeHoverListener 7 [3; 5]
  = JS.Throw (JS.Error_ "Attempting to remove a listener which is not registered.")
  /\ (exists pre post,
         [3; 5; 3] = (pre ++ 3 :: post)%list
         /\ (3 ∉ pre)
         /\ SimpleRecord.removeHoverListener 3 [3; 5; 3] = JS.Return (pre ++ post)%list)
  /\ SimpleRecord.removeHoverListener 7 (SimpleRecord.addHoverListener 7 [3; 5]).2
     = JS.Return [3; 5].
Proof.
  split_and!.
  - apply (proj1 removeHoverListener_first_registration).
    apply (bool_decide_unpack _). reflexivity.
  - apply (proj1 (proj2 removeHoverListener_first_registration)).
    apply elem_of_cons. left. reflexivity.
  - apply (proj2 (proj2 removeHoverListener_first_registration)).
    apply (bool_decide_unpack _). reflexivity.
Defined.

(** ** The feature class table of the feature record after the load *)

(** When the config has a state, the load handler stores the attributed
    feature class under the first index the bundle reports and makes it the
    default. If that index is not "0" the placeholder of the constructor
    stays in the table under "0"; if it is "0" the placeholder is
    overwritten; and if the bundle reports no index, the default index is
    undefined and the feature class sits under the key "undefined". *)
Theorem featureRecord_onLoad_table
    (layerName : option string) (config : Config.LayerConfig)
    (featClasses : gmap string FeatureRecord.FeatureClass) (indexes : list string) :
  is_Some (Config.lc_state config) ->
  let r' := (FeatureRecord.onLoad indexes
               (FeatureRecord.constructor layerName config featClasses)).1 in
  let placeholder := FeatureRecord.Placeholder {| PlaceholderFC.name := layerName |} in
  FeatureRecord._defaultFC r' = indexes !! 0
  /\ (exists aFC,
        FeatureRecord._featClasses r' !! FeatureRecord.propertyKey (indexes !! 0)
        = Some (FeatureRecord.Attrib aFC))
  /\ (FeatureRecord.propertyKey (indexes !! 0) <> "0" ->
      FeatureRecord._featClasses r' !! "0" = Some placeholder)
  /\ (indexes = [] ->
      FeatureRecord._defaultFC r' = None
      /\ is_Some (FeatureRecord._featClasses r' !! "undefined")).
Proof.
  intros [st Hst] r' placeholder. subst r'.
  unfold FeatureRecord.onLoad, AttribFC.constructor, BasicFC.constructor. cbn.
  rewrite Hst. cbn.
  split_and!.
  - reflexivity.
  - eexists. apply lookup_insert_eq.
  - intros Hne. rewrite lookup_insert_ne by exact Hne. apply lookup_insert_eq.
  - intros ->. split; [reflexivity |]. cbn. rewrite lookup_insert_eq. eauto.
Qed.

Lemma featureRecord_onLoad_table_witness :
  let config := {| Config.lc_name := Some "Wells";
                   Config.lc_state := Some {| Config.opacity := 1; Config.visibility := true;
                                              Config.query := true |};
                   Config.lc_extent := None;
                   Config.nameField := None |} in
  let r' := (FeatureRecord.onLoad ["3"]
               (FeatureRecord.constructor (Some "Wells") config ∅)).1 in
  FeatureRecord._defaultFC r' = Some "3"
  /\ (exists aFC, FeatureRecord._featClasses r' !! "3" = Some (FeatureRecord.Attrib aFC))
  /\ FeatureRecord._featClasses r' !! "0"
     = Some (FeatureRecord.Placeholder {| PlaceholderFC.name := Some "Wells" |}).
Proof.
  cbv zeta.
  destruct (featureRecord_onLoad_table (Some "Wells")
              {| Config.lc_name := Some "Wells";
                 Config.lc_state := Some {| Config.opacity := 1; Config.visibility := true;
                                            Config.query := true |};
                 Config.lc_extent := None;
                 Config.nameField := None |} ∅ ["3"])
    as (Hd & Ha & Hp & _); [vm_compute; eauto |].
  split; [exact Hd | split; [exact Ha | apply Hp; discriminate]].
Defined.

(** ** The dynamic record after the load *)

Section WalkInvariant.

Import Config DynamicRecord DynamicSpec.

Variable Inv : t -> Prop.
Variable Post : TreeNode -> t -> Prop.

Hypothesis Inv_leaf : forall sId pfc r, Inv r -> Inv (leafProxy sId pfc r).
Hypothesis Post_leaf :
  forall z pfc r, Inv r -> Post (Leaf z) (leafProxy (JS.toString z) pfc r).
Hypothesis Post_group :
  forall z name childs r, Forall (fun n => Post n r) childs -> Post (Group z name childs) r.
Hypothesis Post_mono : forall node r r', Extends r r' -> Post node r -> Post node r'.

Lemma processChildren_keeps (fuel : nat) :
  (forall layerInfo sc r res,
      Inv r -> processLayerInfo fuel layerInfo sc r = JS.Return res ->
      Inv res.2 /\ Post res.1.1 res.2) ->
  forall slids sc r res,
    Inv r -> processChildren fuel slids sc r = JS.Return res ->
    Inv res.2 /\ Forall (fun n => Post n res.2) res.1.1.
Proof.
  intros Hnode. induction slids as [| slid slids IH]; intros sc r res HI;
    unfold processChildren; cbn [forEachChild]; fold (processChildren fuel).
  - intros [= <-]. cbn. split; [exact HI | constructor].
  - destruct (JS.array_get (layerInfos (_layer r)) (JS.Int slid)) as [child |];
      [| discriminate].
    intros H. apply bind_Return in H as ([[node sc1] r1] & Hrun1 & H).
    apply bind_Return in H as ([[nodes sc2] r2] & Hrun2 & H).
    injection H as <-. cbn [fst snd].
    destruct (Hnode _ _ _ _ HI Hrun1) as [HI1 HP1]. cbn [fst snd] in HI1, HP1.
    destruct (IH _ _ _ HI1 Hrun2) as [HI2 HP2]. cbn [fst snd] in HI2, HP2.
    apply (processChildren_sound fuel (processLayerInfo_sound fuel)) in Hrun2 as (Hext & _).
    split; [exact HI2 |]. constructor; [| exact HP2].
    eapply Post_mono; [exact Hext | exact HP1].
Qed.

Lemma processLayerInfo_keeps (fuel : nat) :
  forall layerInfo sc r res,
    Inv r -> processLayerInfo fuel layerInfo sc r = JS.Return res ->
    Inv res.2 /\ Post res.1.1 res.2.
Proof.
  induction fuel as [| fuel IH]; intros layerInfo sc r res HI; [discriminate |].
  rewrite processLayerInfo_S. cbv zeta.
  destruct (subLayerIds layerInfo) as [[| slid slids] |].
  - intros [= <-]. cbn. split; [apply Inv_leaf, HI | apply Post_leaf, HI].
  - intros H. apply bind_Return in H as (res1 & Hrun & H).
    injection H as <-. cbn [fst snd].
    destruct (processChildren_keeps fuel IH _ _ _ _ HI Hrun) as [HI' HP].
    split; [exact HI' | apply Post_group, HP].
  - intros [= <-]. cbn. split; [apply Inv_leaf, HI | apply Post_leaf, HI].
Qed.

Lemma processEntries_keeps (fuel : nat) :
  forall entries sc r res,
    Inv r -> processEntries fuel entries sc r = JS.Return res ->
    Inv res.2 /\ Forall (fun n => Post n res.2) res.1.1.
Proof.
  induction entries as [| le entries IH]; intros sc r res HI; cbn [processEntries].
  - intros [= <-]. cbn. split; [exact HI | constructor].
  - destruct (stateOnly le); [apply IH, HI |].
    destruct (JS.array_get (layerInfos (_layer r)) (index le)) as [layerInfo |];
      [| discriminate].
    intros H. apply bind_Return in H as ([[node sc1] r1] & Hrun1 & H).
    apply bind_Return in H as ([[nodes sc2] r2] & Hrun2 & H).
    injection H as <-. cbn [fst snd].
    destruct (processLayerInfo_keeps fuel _ _ _ _ HI Hrun1) as [HI1 HP1].
    cbn [fst snd] in HI1, HP1.
    destruct (IH _ _ _ HI1 Hrun2) as [HI2 HP2]. cbn [fst snd] in HI2, HP2.
    apply processEntries_sound in Hrun2 as (Hext & _).
    split; [exact HI2 |]. constructor; [| exact HP2].
    eapply Post_mono; [exact Hext | exact HP1].
Qed.

End WalkInvariant.

Section AfterLoad.

Import Config DynamicRecord DynamicSpec DynamicState.

Lemma elem_of_flat_map {A B} (f : A -> list B) (l : list A) (y : B) :
  y ∈ flat_map f l <-> exists x, x ∈ l /\ y ∈ f x.
Proof.
  rewrite list_elem_of_In, in_flat_map. split.
  - intros (x & Hx & Hy). exists x. rewrite !list_elem_of_In. auto.
  - intros (x & Hx & Hy). exists x. rewrite <- !list_elem_of_In. auto.
Qed.

(** The record a load leaves behind has the proxies, the store, the
    feature classes and the tree of the record at the end of the loop over
    the attribute indexes. *)
Lemma LoadedFrom_resolve (fuel : nat) (bundle : AttributeBundle) (r r' : t) :
  LoadedFrom fuel bundle r r' ->
  exists sc r0,
    resolve fuel bundle r = JS.Return (sc, r0)
    /\ _proxies r' = _proxies r0 /\ store r' = store r0
    /\ _featClasses r' = _featClasses r0 /\ _childTree r' = _childTree r0.
Proof.
  intros [Hload | [sc Hres]].
  - apply onLoad_inv in Hload as (sc & r0 & Hres & Hp & Hs & Hf & Ht & _).
    exists sc, r0. auto.
  - exists sc, r'. auto.
Qed.

Lemma leafProxy_placeholders (sId : string) (pfc : PlaceholderFC.t) (r : t) :
  ProxiesOk r /\ AllPlaceholders r ->
  ProxiesOk (leafProxy sId pfc r) /\ AllPlaceholders (leafProxy sId pfc r).
Proof.
  intros [Hok Hph]. split; [apply (ext_ok _ _ (leafProxy_Extends sId pfc r)), Hok |].
  unfold leafProxy. destruct (_proxies r !! sId) as [h |] eqn:Hs.
  - intros k h' Hk. cbn in Hk |- *.
    destruct (Hph k h' Hk) as (i & pfc' & Hi & Hp & Hsrc).
    destruct (decide (h = h')) as [<- | Hne].
    + exists (LayerInterface.updateSource (LayerInterface.PlaceholderSource pfc) i), pfc.
      unfold Handle in *.
      rewrite list_lookup_alter_eq, Hi. split_and!; [reflexivity | exact Hp | reflexivity].
    + exists i, pfc'. rewrite list_lookup_alter_ne by exact Hne. auto.
  - intros k h'. cbn. rewrite lookup_insert. case_decide.
    + intros [= <-]. eexists _, pfc.
      rewrite lookup_app_r by lia. rewrite Nat.sub_diag.
      split_and!; reflexivity.
    + intros Hk. destruct (Hph k h' Hk) as (i & pfc' & Hi & Hrest).
      exists i, pfc'. split; [| exact Hrest].
      rewrite lookup_app_l; [exact Hi |]. eapply lookup_lt_Some, Hi.
Qed.

Lemma loadFeatureClass_ProxyState (idx : string) (sc : gmap string SubConfig) (r r' : t) :
  loadFeatureClass idx sc r = JS.Return r' ->
  ProxiesOk r -> ProxyState r -> ProxyState r'.
Proof.
  unfold loadFeatureClass.
  destruct (sc !! idx) as [[c d] |]; cbn [defaulted config]; [| intros [= <-]; auto].
  destruct d; [| intros [= <-]; auto].
  intros H [Hlt Hinj] Hst. apply bind_Return in H as (dFC & _ & H). cbn in H.
  injection H as <-.
  destruct (_proxies r !! idx) as [h |] eqn:Hh.
  - intros k hk Hk. cbn in Hk |- *.
    destruct (decide (k = idx)) as [-> | Hne].
    + assert (hk = h) as -> by congruence.
      rewrite obj_get_set_eq.
      destruct (Hst idx h Hh) as (i & Hi & _).
      exists (LayerInterface.convertToDynamicLeaf dFC i).
      unfold Handle in *.
      rewrite list_lookup_alter_eq, Hi. split_and!; reflexivity.
    + rewrite obj_get_set_ne by exact Hne.
      destruct (Hst k hk Hk) as (i & Hi & Hm).
      exists i. split; [| exact Hm].
      rewrite list_lookup_alter_ne; [exact Hi |].
      intros ->. apply Hne. eapply Hinj; eassumption.
  - intros k hk Hk. cbn in Hk |- *.
    assert (Hne : k <> idx) by congruence.
    rewrite obj_get_set_ne by exact Hne. apply Hst, Hk.
Qed.

Lemma loadFeatureClasses_ProxyState (idxs : list string) (sc : gmap string SubConfig) :
  forall r r', loadFeatureClasses idxs sc r = JS.Return r' ->
               ProxiesOk r -> ProxyState r -> ProxyState r'.
Proof.
  induction idxs as [| idx idxs IH]; intros r r'; cbn [loadFeatureClasses].
  - intros [= <-]. auto.
  - intros H Hok Hst. apply bind_Return in H as (r1 & Hrun1 & Hrun2).
    apply (IH _ _ Hrun2).
    + apply (Loaded_ok r r1); [apply (loadFeatureClass_built _ _ _ _ Hrun1) | exact Hok].
    + eapply loadFeatureClass_ProxyState; eassumption.
Qed.

Lemma resolve_ProxyState (fuel : nat) (bundle : AttributeBundle) (r : t)
    (sc : gmap string SubConfig) (r' : t) :
  PreLoad r -> resolve fuel bundle r = JS.Return (sc, r') -> ProxyState r'.
Proof.
  intros Hpre H. destruct (PreLoad_inv r Hpre) as (Hok & Hfc & _ & Hph).
  apply resolve_inv in H as (tree & r1 & Hwalk & Hload).
  destruct (processEntries_keeps (fun r => ProxiesOk r /\ AllPlaceholders r)
              (fun _ _ => True) leafProxy_placeholders
              (fun _ _ _ _ => I) (fun _ _ _ _ _ => I) (fun _ _ _ _ H => H) fuel _ _ _ _
              (conj Hok Hph : ProxiesOk (with_isTrueDynamic r _)
                              /\ AllPlaceholders (with_isTrueDynamic r _)) Hwalk)
    as [[Hok1 Hph1] _]. cbn [fst snd] in Hok1, Hph1.
  apply processEntries_sound in Hwalk as (Hext & _). cbn in Hext.
  apply (loadFeatureClasses_ProxyState _ _ _ _ Hload).
  - exact Hok1.
  - intros k h Hk. cbn in Hk |- *.
    destruct (Hph1 k h Hk) as (i & pfc & Hi & Hp & Hsrc).
    exists i. split; [exact Hi |].
    rewrite (ext_featClasses _ _ Hext). cbn. rewrite Hfc.
    split; [exact Hp | eauto].
Qed.

Lemma leafProxy_caches (z : Z) (pfc : PlaceholderFC.t) (r : t) :
  LeavesCached (Leaf z) (leafProxy (JS.toString z) pfc r).
Proof.
  intros z' Hz'. cbn in Hz'. apply list_elem_of_singleton in Hz' as ->.
  unfold leafProxy. destruct (_proxies r !! JS.toString z) as [h |] eqn:Hs; cbn.
  - rewrite Hs. eauto.
  - rewrite lookup_insert_eq. eauto.
Qed.

Lemma LeavesCached_group (z : Z) (name : option string) (childs : list TreeNode) (r : t) :
  Forall (fun n => LeavesCached n r) childs -> LeavesCached (Group z name childs) r.
Proof.
  intros Hall z' Hz'. cbn in Hz'. apply elem_of_flat_map in Hz' as (child & Hchild & Hz').
  rewrite Forall_forall in Hall. apply (Hall child); [exact Hchild | exact Hz'].
Qed.

Lemma LeavesCached_mono (node : TreeNode) (r r' : t) :
  Extends r r' -> LeavesCached node r -> LeavesCached node r'.
Proof.
  intros Hext Hc z Hz. destruct (Hc z Hz) as [h Hh].
  exists h. apply (ext_proxies _ _ Hext), Hh.
Qed.

Lemma resolve_LeavesCached (fuel : nat) (bundle : AttributeBundle) (r : t)
    (sc : gmap string SubConfig) (r' : t) :
  resolve fuel bundle r = JS.Return (sc, r') ->
  exists tree, _childTree r' = Some tree /\ Forall (fun n => LeavesCached n r') tree.
Proof.
  intros H. apply resolve_inv in H as (tree & r1 & Hwalk & Hload).
  destruct (processEntries_keeps (fun _ => True) LeavesCached
              (fun _ _ _ H => H) (fun z pfc r _ => leafProxy_caches z pfc r)
              LeavesCached_group LeavesCached_mono fuel _ _ _ _ I Hwalk)
    as [_ Hall]. cbn [fst snd] in Hall.
  apply loadFeatureClasses_Loaded in Hload as Hld.
  exists tree. split; [rewrite (ld_childTree _ _ Hld); reflexivity |].
  eapply Forall_impl; [exact Hall |].
  intros node Hc z Hz. rewrite (ld_proxies _ _ Hld). cbn. apply Hc, Hz.
Qed.

End AfterLoad.

(** After the load every leaf of the child tree, at any depth, has a
    proxy cached under its index: asking [getChildProxy] for it returns
    that proxy and creates nothing. *)
Theorem tree_leaves_have_proxies
    (fuel : nat) (bundle : DynamicRecord.AttributeBundle) (r r' : DynamicRecord.t) :
  DynamicState.LoadedFrom fuel bundle r r' ->
  exists tree,
    DynamicRecord.getChildTree r' = JS.Return tree
    /\ forall node z,
        node ∈ tree -> z ∈ DynamicChild.leaves node ->
        exists h, DynamicRecord._proxies r' !! JS.toString z = Some h
                  /\ DynamicRecord.getChildProxy z r' = (h, r').
Proof.
  intros Hld. apply LoadedFrom_resolve in Hld as (sc & r0 & Hres & Hp & _ & _ & Ht).
  destruct (resolve_LeavesCached _ _ _ _ _ Hres) as (tree & Htree & Hall).
  exists tree. split.
  - unfold DynamicRecord.getChildTree. rewrite Ht, Htree. reflexivity.
  - intros node z Hnode Hz. rewrite Forall_forall in Hall.
    destruct (Hall node Hnode z Hz) as [h Hh].
    exists h. rewrite Hp. split; [exact Hh |].
    apply getChildProxy_cached. rewrite Hp. exact Hh.
Qed.

Lemma tree_leaves_have_proxies_witness :
  exists r' tree,
    DynamicRecord.onLoad 5 exampleBundle exampleRecord = JS.Return r'
    /\ DynamicRecord.getChildTree r' = JS.Return tree
    /\ forall node z,
        node ∈ tree -> z ∈ DynamicChild.leaves node ->
        exists h, DynamicRecord._proxies r' !! JS.toString z = Some h
                  /\ DynamicRecord.getChildProxy z r' = (h, r').
Proof.
  eexists.
  assert (Hrun : DynamicRecord.onLoad 5 exampleBundle exampleRecord = JS.Return _)
    by (vm_compute; reflexivity).
  destruct (tree_leaves_have_proxies 5 exampleBundle exampleRecord _ (or_introl Hrun))
    as (tree & Htree & Hleaves).
  exists tree. split; [exact Hrun | split; [exact Htree | exact Hleaves]].
Defined.

(** After a load of a record that had seen nothing but [getChildProxy]
    calls, a cached proxy is a placeholder exactly when its index has no
    feature class: with a feature class the proxy points at it and reports
    [isPlaceholder] false, without one it still points at a placeholder. *)
Theorem proxies_follow_feature_classes
    (fuel : nat) (bundle : DynamicRecord.AttributeBundle) (r r' : DynamicRecord.t) :
  DynamicSpec.PreLoad r ->
  DynamicState.LoadedFrom fuel bundle r r' ->
  forall k h,
    DynamicRecord._proxies r' !! k = Some h ->
    exists i,
      DynamicRecord.store r' !! h = Some i
      /\ (LayerInterface.isPlaceholder i = true
          <-> JS.obj_get (DynamicRecord._featClasses r') k = None)
      /\ match JS.obj_get (DynamicRecord._featClasses r') k with
         | Some dFC => LayerInterface._source i = LayerInterface.DynamicSource dFC
         | None => exists pfc, LayerInterface._source i = LayerInterface.PlaceholderSource pfc
         end.
Proof.
  intros Hpre Hld k h.
  apply LoadedFrom_resolve in Hld as (sc & r0 & Hres & Hp & Hs & Hf & _).
  rewrite Hp, Hs, Hf. intros Hk.
  destruct (resolve_ProxyState _ _ _ _ _ Hpre Hres k h Hk) as (i & Hi & Hm).
  exists i. split; [exact Hi |].
  destruct (JS.obj_get (DynamicRecord._featClasses r0) k) as [dFC |].
  - destruct Hm as [Hp' Hsrc]. split; [| exact Hsrc].
    rewrite Hp'. split; discriminate.
  - destruct Hm as [Hp' Hsrc]. split; [| exact Hsrc]. split; auto.
Qed.

Lemma proxies_follow_feature_classes_witness :
  let r := (DynamicRecord.getChildProxy 3 (DynamicRecord.getChildProxy 2 exampleRecord).2).2 in
  exists r',
    DynamicRecord.onLoad 5 exampleBundle r = JS.Return r'
    /\ forall k h,
        DynamicRecord._proxies r' !! k = Some h ->
        exists i,
          DynamicRecord.store r' !! h = Some i
          /\ (LayerInterface.isPlaceholder i = true
              <-> JS.obj_get (DynamicRecord._featClasses r') k = None)
          /\ match JS.obj_get (DynamicRecord._featClasses r') k with
             | Some dFC => LayerInterface._source i = LayerInterface.DynamicSource dFC
             | None =>
                 exists pfc, LayerInterface._source i = LayerInterface.PlaceholderSource pfc
             end.
Proof.
  cbv zeta. eexists.
  assert (Hrun : DynamicRecord.onLoad 5 exampleBundle
                   (DynamicRecord.getChildProxy 3
                      (DynamicRecord.getChildProxy 2 exampleRecord).2).2 = JS.Return _)
    by (vm_compute; reflexivity).
  split; [exact Hrun |].
  apply (proxies_follow_feature_classes 5 exampleBundle
           (DynamicRecord.getChildProxy 3 (DynamicRecord.getChildProxy 2 exampleRecord).2).2).
  - do 2 apply DynamicSpec.preload_getChildProxy. apply DynamicSpec.preload_constructed.
  - left. exact Hrun.
Defined.

(** ** Which indexes get a feature class *)

Section FeatureClasses.

Import Config DynamicRecord DynamicSpec DynamicState.

Lemma Marks_refl (sc : gmap string SubConfig) : Marks sc sc [].
Proof.
  intros k. split; [auto |]. intros [H | (z & Hz & _)]; [exact H |].
  apply elem_of_nil in Hz. contradiction.
Qed.

Lemma Marks_trans (sc sc1 sc2 : gmap string SubConfig) (ids1 ids2 : list Z) :
  Marks sc sc1 ids1 -> Marks sc1 sc2 ids2 -> Marks sc sc2 (ids1 ++ ids2)%list.
Proof.
  intros H1 H2 k. rewrite (H2 k), (H1 k). split.
  - intros [[H | (z & Hz & Hk)] | (z & Hz & Hk)]; [auto | right | right];
      exists z; (split; [apply elem_of_app; auto | exact Hk]).
  - intros [H | (z & Hz & Hk)]; [auto |].
    apply elem_of_app in Hz as [Hz | Hz]; [left; right | right]; eauto.
Qed.

Lemma fetchSubConfig_Marks (z : Z) (serverName : string) (sc : gmap string SubConfig) :
  Marks sc (fetchSubConfig (JS.toString z) serverName sc).2 [z].
Proof.
  intros k. unfold marker. destruct (decide (k = JS.toString z)) as [-> | Hne].
  - rewrite fetchSubConfig_entry. cbn. split; [| reflexivity].
    intros _. right. exists z. split; [apply list_elem_of_singleton |]; reflexivity.
  - rewrite fetchSubConfig_other by exact Hne. split; [auto |].
    intros [H | (z' & Hz' & ->)]; [exact H |].
    apply list_elem_of_singleton in Hz' as ->. contradiction.
Qed.

Lemma processChildren_Marks (fuel : nat) :
  (forall layerInfo sc r res,
      processLayerInfo fuel layerInfo sc r = JS.Return res ->
      Marks sc res.1.2 (DynamicChild.nodeIds res.1.1)) ->
  forall slids sc r res,
    processChildren fuel slids sc r = JS.Return res ->
    Marks sc res.1.2 (flat_map DynamicChild.nodeIds res.1.1).
Proof.
  intros Hnode. induction slids as [| slid slids IH]; intros sc r res;
    unfold processChildren; cbn [forEachChild]; fold (processChildren fuel).
  - intros [= <-]. apply Marks_refl.
  - destruct (JS.array_get (layerInfos (_layer r)) (JS.Int slid)) as [child |];
      [| discriminate].
    intros H. apply bind_Return in H as ([[node sc1] r1] & Hrun1 & H).
    apply bind_Return in H as ([[nodes sc2] r2] & Hrun2 & H).
    injection H as <-. cbn [fst snd flat_map].
    eapply Marks_trans; [apply (Hnode _ _ _ _ Hrun1) | apply (IH _ _ _ Hrun2)].
Qed.

Lemma processLayerInfo_Marks (fuel : nat) :
  forall layerInfo sc r res,
    processLayerInfo fuel layerInfo sc r = JS.Return res ->
    Marks sc res.1.2 (DynamicChild.nodeIds res.1.1).
Proof.
  induction fuel as [| fuel IH]; intros layerInfo sc r res; [discriminate |].
  rewrite processLayerInfo_S. cbv zeta.
  pose proof (fetchSubConfig_Marks (id layerInfo) (li_name layerInfo) sc) as Hfetch.
  destruct (subLayerIds layerInfo) as [[| slid slids] |].
  - intros [= <-]. exact Hfetch.
  - intros H. apply bind_Return in H as (res1 & Hrun & H).
    injection H as <-. cbn [fst snd DynamicChild.nodeIds].
    apply (Marks_trans _ _ _ [id layerInfo] _ Hfetch).
    apply (processChildren_Marks fuel IH _ _ _ _ Hrun).
  - intros [= <-]. exact Hfetch.
Qed.

Lemma processEntries_Marks (fuel : nat) :
  forall entries sc r res,
    processEntries fuel entries sc r = JS.Return res ->
    Marks sc res.1.2 (flat_map DynamicChild.nodeIds res.1.1).
Proof.
  induction entries as [| le entries IH]; intros sc r res; cbn [processEntries].
  - intros [= <-]. apply Marks_refl.
  - destruct (stateOnly le); [apply IH |].
    destruct (JS.array_get (layerInfos (_layer r)) (index le)) as [layerInfo |];
      [| discriminate].
    intros H. apply bind_Return in H as ([[node sc1] r1] & Hrun1 & H).
    apply bind_Return in H as ([[nodes sc2] r2] & Hrun2 & H).
    injection H as <-. cbn [fst snd flat_map].
    eapply Marks_trans; [apply (processLayerInfo_Marks _ _ _ _ _ Hrun1) | apply (IH _ _ _ Hrun2)].
Qed.

(** The table built from the config has an entry for the key of every
    config entry and for nothing else. *)
Lemma collateSubConfigs_keys (entries : list LayerEntry) (complete : bool) (k : string) :
  is_Some (collateSubConfigs entries complete !! k)
  <-> exists le, le ∈ entries /\ JS.Number_toString (index le) = k.
Proof.
  unfold collateSubConfigs.
  assert (H : forall es (acc : gmap string SubConfig),
    is_Some (fold_left (fun subConfigs le =>
      <[JS.Number_toString (index le) := {| config := le; defaulted := complete |}]> subConfigs)
      es acc !! k)
    <-> is_Some (acc !! k) \/ exists le, le ∈ es /\ JS.Number_toString (index le) = k).
  { induction es as [| e es IH]; intros acc; cbn [fold_left].
    - split; [auto |]. intros [H | (le & Hle & _)]; [exact H |].
      apply elem_of_nil in Hle. contradiction.
    - rewrite IH, lookup_insert_is_Some. split.
      + intros [[Hk | [_ Hacc]] | (le & Hle & Hk)].
        * right. exists e. split; [apply elem_of_cons; auto | exact Hk].
        * auto.
        * right. exists le. split; [apply elem_of_cons; auto | exact Hk].
      + intros [Hacc | (le & Hle & Hk)].
        * destruct (decide (JS.Number_toString (index e) = k)); auto.
        * apply elem_of_cons in Hle as [-> | Hle]; [auto | right; eauto]. }
  rewrite H, lookup_empty. split; [intros [[? [=]] | ?]; assumption | auto].
Qed.

Lemma collateSubConfigs_marker (entries : list LayerEntry) (complete : bool) (k : string) :
  marker (collateSubConfigs entries complete) k = true
  <-> complete = true /\ exists le, le ∈ entries /\ JS.Number_toString (index le) = k.
Proof.
  rewrite <- (collateSubConfigs_keys entries complete k). unfold marker.
  destruct (collateSubConfigs entries complete !! k) as [subC |] eqn:Hk.
  - apply collateSubConfigs_defaulted in Hk as [Hd _]. rewrite Hd.
    split; [intros ->; split; [reflexivity | eauto] | tauto].
  - split; [discriminate | intros [_ [? [=]]]].
Qed.

Lemma loadFeatureClass_keys (idx : string) (sc : gmap string SubConfig) (r r' : t) :
  loadFeatureClass idx sc r = JS.Return r' ->
  forall k, is_Some (JS.obj_get (_featClasses r') k)
            <-> is_Some (JS.obj_get (_featClasses r) k) \/ (k = idx /\ marker sc k = true).
Proof.
  unfold loadFeatureClass, marker.
  destruct (sc !! idx) as [[c d] |] eqn:Hidx; cbn [defaulted config].
  - destruct d.
    + intros H k. apply bind_Return in H as (dFC & _ & H). cbn in H.
      assert (Hfc : _featClasses r' = JS.obj_set idx dFC (_featClasses r)).
      { injection H as <-. destruct (_proxies r !! idx); reflexivity. }
      rewrite Hfc. destruct (decide (k = idx)) as [-> | Hne].
      * rewrite obj_get_set_eq, Hidx. split; eauto.
      * rewrite obj_get_set_ne by exact Hne. split; [auto | intros [? | [? _]]; tauto].
    + intros [= <-] k. split; [auto |]. intros [H | [-> H]]; [exact H |].
      rewrite Hidx in H. discriminate.
  - intros [= <-] k. split; [auto |]. intros [H | [-> H]]; [exact H |].
    rewrite Hidx in H. discriminate.
Qed.

Lemma loadFeatureClasses_keys (idxs : list string) (sc : gmap string SubConfig) :
  forall r r', loadFeatureClasses idxs sc r = JS.Return r' ->
  forall k, is_Some (JS.obj_get (_featClasses r') k)
            <-> is_Some (JS.obj_get (_featClasses r) k) \/ (k ∈ idxs /\ marker sc k = true).
Proof.
  induction idxs as [| idx idxs IH]; intros r r'; cbn [loadFeatureClasses].
  - intros [= <-] k. split; [auto |]. intros [H | [H _]]; [exact H |].
    apply elem_of_nil in H. contradiction.
  - intros H k. apply bind_Return in H as (r1 & Hrun1 & Hrun2).
    rewrite (IH _ _ Hrun2 k), (loadFeatureClass_keys _ _ _ _ Hrun1 k), elem_of_cons.
    split.
    + intros [[H | [-> H]] | [H1 H2]]; auto.
    + intros [H | [[-> | H1] H2]]; auto.
Qed.

Lemma loadFeatureClass_BuiltFrom (idx : string) (sc : gmap string SubConfig) (r r' : t) :
  loadFeatureClass idx sc r = JS.Return r' -> BuiltFrom sc r -> BuiltFrom sc r'.
Proof.
  unfold loadFeatureClass.
  destruct (sc !! idx) as [[c d] |] eqn:Hidx; cbn [defaulted config];
    [| intros [= <-]; auto].
  destruct d; [| intros [= <-]; auto].
  intros H Hb. apply bind_Return in H as (dFC & Hcons & H). cbn in H.
  assert (Hfc : _featClasses r' = JS.obj_set idx dFC (_featClasses r)).
  { injection H as <-. destruct (_proxies r !! idx); reflexivity. }
  intros k d. rewrite Hfc. destruct (decide (k = idx)) as [-> | Hne].
  - rewrite obj_get_set_eq. intros [= <-].
    exists {| config := c; defaulted := true |}. auto.
  - rewrite obj_get_set_ne by exact Hne. apply Hb.
Qed.

Lemma loadFeatureClasses_BuiltFrom (idxs : list string) (sc : gmap string SubConfig) :
  forall r r', loadFeatureClasses idxs sc r = JS.Return r' -> BuiltFrom sc r -> BuiltFrom sc r'.
Proof.
  induction idxs as [| idx idxs IH]; intros r r'; cbn [loadFeatureClasses].
  - intros [= <-]. auto.
  - intros H Hb. apply bind_Return in H as (r1 & Hrun1 & Hrun2).
    apply (IH _ _ Hrun2). eapply loadFeatureClass_BuiltFrom; eassumption.
Qed.

Lemma resolve_BuiltFrom (fuel : nat) (bundle : AttributeBundle) (r : t)
    (sc : gmap string SubConfig) (r' : t) :
  _featClasses r = [] -> resolve fuel bundle r = JS.Return (sc, r') -> BuiltFrom sc r'.
Proof.
  intros Hfc H. apply resolve_inv in H as (tree & r1 & Hwalk & Hload).
  apply processEntries_sound in Hwalk as (Hext & _). cbn in Hext.
  apply (loadFeatureClasses_BuiltFrom _ _ _ _ Hload).
  intros k d. cbn. rewrite (ext_featClasses _ _ Hext). cbn. rewrite Hfc. discriminate.
Qed.

(** A first fetch of an index always hands out the dummy state. *)
Lemma first_fetch_state (k serverName : string) (sc0 : gmap string SubConfig) :
  marker sc0 k = false ->
  state (fetchSubConfig k serverName sc0).1 = Some dummyState.
Proof.
  unfold marker, fetchSubConfig.
  destruct (sc0 !! k) as [[c d] |]; cbn [defaulted config]; [| reflexivity].
  intros ->. cbn [fst]. unfold applyDefaults. cbn.
  destruct (outfields c); cbn; destruct (JS.truthy (Config.name c)); reflexivity.
Qed.

End FeatureClasses.

(** At the end of the loop over the attribute indexes a feature class
    exists exactly for the attribute indexes whose sub-config is marked
    defaulted: the keys of the nodes of the child tree, groups included,
    and, when the config was marked complete, the keys of all config
    entries, [stateOnly] ones included. *)
Theorem feature_classes_built_for_tree_nodes
    (fuel : nat) (bundle : DynamicRecord.AttributeBundle) (r r' : DynamicRecord.t) :
  DynamicRecord._featClasses r = [] ->
  DynamicState.LoadedFrom fuel bundle r r' ->
  exists tree,
    DynamicRecord._childTree r' = Some tree
    /\ forall k,
        is_Some (JS.obj_get (DynamicRecord._featClasses r') k)
        <-> k ∈ DynamicRecord.indexes bundle
            /\ ((DynamicRecord._configIsComplete r = true
                 /\ exists le, le ∈ DynamicRecord.layerEntries r
                               /\ JS.Number_toString (Config.index le) = k)
                \/ exists node z, node ∈ tree /\ z ∈ DynamicChild.nodeIds node
                                  /\ k = JS.toString z).
Proof.
  intros Hfc Hld. apply LoadedFrom_resolve in Hld as (sc & r0 & Hres & _ & _ & Hf & Ht).
  apply resolve_inv in Hres as (tree & r1 & Hwalk & Hload).
  pose proof (processEntries_Marks _ _ _ _ _ Hwalk) as Hmarks. cbn [fst snd] in Hmarks.
  apply processEntries_sound in Hwalk as (Hext & _). cbn in Hext.
  pose proof (loadFeatureClasses_Loaded _ _ _ _ Hload) as Hl.
  exists tree. split; [rewrite Ht, (DynamicSpec.ld_childTree _ _ Hl); reflexivity |].
  intros k. rewrite Hf, (loadFeatureClasses_keys _ _ _ _ Hload k). cbn.
  rewrite (DynamicSpec.ext_featClasses _ _ Hext). cbn. rewrite Hfc.
  rewrite (Hmarks k), collateSubConfigs_marker.
  split.
  - intros [[? [=]] | [Hin [Hc | (z & Hz & ->)]]]; (split; [exact Hin |]); [left; exact Hc |].
    right. apply elem_of_flat_map in Hz as (node & Hnode & Hz). eauto.
  - intros [Hin [Hc | (node & z & Hnode & Hz & ->)]]; right; (split; [exact Hin |]); [auto |].
    right. exists z. split; [| reflexivity]. apply elem_of_flat_map. eauto.
Qed.

Lemma feature_classes_built_for_tree_nodes_witness :
  exists r' tree,
    DynamicRecord.onLoad 5 (DynamicRecord.mkBundle ["0"; "2"; "3"]) exampleRecord = JS.Return r'
    /\ DynamicRecord._childTree r' = Some tree
    /\ forall k,
        is_Some (JS.obj_get (DynamicRecord._featClasses r') k)
        <-> k ∈ ["0"; "2"; "3"]
            /\ ((DynamicRecord._configIsComplete exampleRecord = true
                 /\ exists le, le ∈ DynamicRecord.layerEntries exampleRecord
                               /\ JS.Number_toString (Config.index le) = k)
                \/ exists node z, node ∈ tree /\ z ∈ DynamicChild.nodeIds node
                                  /\ k = JS.toString z).
Proof.
  eexists.
  assert (Hrun : DynamicRecord.onLoad 5 (DynamicRecord.mkBundle ["0"; "2"; "3"]) exampleRecord
                 = JS.Return _) by (vm_compute; reflexivity).
  destruct (feature_classes_built_for_tree_nodes 5 (DynamicRecord.mkBundle ["0"; "2"; "3"])
              exampleRecord _ eq_refl (or_introl Hrun)) as (tree & Htree & Hiff).
  exists tree. split; [exact Hrun | split; [exact Htree | exact Hiff]].
Defined.

(** With a config not marked complete no child is queryable after the
    load: every feature class was built on the dummy state, so for the
    index of a sub-layer [isQueryable] returns false when the index has a
    feature class and throws when it has none, as it does for every
    sub-layer index before the load. *)
Theorem isQueryable_false_after_partial_config
    (fuel : nat) (bundle : DynamicRecord.AttributeBundle) (r r' : DynamicRecord.t) :
  DynamicRecord._featClasses r = [] ->
  DynamicRecord._configIsComplete r = false ->
  DynamicState.LoadedFrom fuel bundle r r' ->
  forall childIdx : Z,
    DynamicChild.isQueryable childIdx r
    = JS.Throw (JS.TypeError "Cannot read property of undefined")
    /\ match JS.obj_get (DynamicRecord._featClasses r') (JS.toString childIdx) with
       | Some dFC =>
           DynamicChild.isQueryable childIdx r' = JS.Return false
           /\ Config.state (DynamicFC.config dFC) = Some DynamicRecord.dummyState
       | None =>
           DynamicChild.isQueryable childIdx r'
           = JS.Throw (JS.TypeError "Cannot read property of undefined")
       end.
Proof.
  intros Hfc Hc Hld childIdx. split.
  { unfold DynamicChild.isQueryable, DynamicChild.featClass. rewrite Hfc. reflexivity. }
  apply LoadedFrom_resolve in Hld as (sc & r0 & Hres & _ & _ & Hf & _).
  pose proof (resolve_BuiltFrom _ _ _ _ _ Hfc Hres) as Hbuilt.
  pose proof (resolve_resolvedFrom _ _ _ _ _ Hres) as [_ Hfrom].
  unfold DynamicChild.isQueryable, DynamicChild.featClass. rewrite Hf.
  destruct (JS.obj_get (DynamicRecord._featClasses r0) (JS.toString childIdx))
    as [dFC |] eqn:Hk; [| reflexivity].
  destruct (Hbuilt _ _ Hk) as (subC & Hsc & Hd & Hcons).
  assert (Hstate : Config.state (DynamicRecord.config subC) = Some DynamicRecord.dummyState).
  { destruct (Hfrom _ _ Hsc) as [H0 | (_ & layerInfo & _ & _ & ->)].
    - apply collateSubConfigs_defaulted in H0 as [H0 _]. congruence.
    - apply first_fetch_state. apply not_true_is_false.
      rewrite collateSubConfigs_marker. intros [? _]. congruence. }
  unfold DynamicFC.constructor, BasicFC.constructor in Hcons. cbn in Hcons.
  rewrite Hstate in Hcons. cbn in Hcons. injection Hcons as <-.
  split; [reflexivity | exact Hstate].
Qed.

(** On the sample record: the leaf 2 gets a feature class and is not
    queryable; the group 3 gets none and the call throws. *)
Lemma isQueryable_false_after_partial_config_witness :
  exists r',
    DynamicRecord.onLoad 5 exampleBundle exampleRecord = JS.Return r'
    /\ DynamicChild.isQueryable 2 exampleRecord
       = JS.Throw (JS.TypeError "Cannot read property of undefined")
    /\ DynamicChild.isQueryable 2 r' = JS.Return false
    /\ DynamicChild.isQueryable 3 r'
       = JS.Throw (JS.TypeError "Cannot read property of undefined").
Proof.
  eexists.
  assert (Hrun : DynamicRecord.onLoad 5 exampleBundle exampleRecord = JS.Return _)
    by (vm_compute; reflexivity).
  split; [exact Hrun |].
  pose proof (isQueryable_false_after_partial_config 5 exampleBundle exampleRecord _
                eq_refl eq_refl (or_introl Hrun) 2%Z) as [Hpre Hpost2].
  pose proof (isQueryable_false_after_partial_config 5 exampleBundle exampleRecord _
                eq_refl eq_refl (or_introl Hrun) 3%Z) as [_ Hpost3].
  split; [exact Hpre |]. split; [exact (proj1 Hpost2) | exact Hpost3].
Defined.

(** ** Config entries the server does not have *)

Section OffServer.

Import Config DynamicRecord DynamicSpec.

Variable infos : list LayerInfo.
Hypothesis Hinfos : Hierarchy infos.

Lemma processEntries_off_server (fuel : nat) (le : LayerEntry) (post : list LayerEntry) :
  length infos <= fuel ->
  stateOnly le = false ->
  JS.array_get infos (index le) = None ->
  forall pre sc r,
    layerInfos (_layer r) = infos ->
    ConfigOnServer pre infos ->
    processEntries fuel (pre ++ le :: post) sc r = undefinedLayerInfo.
Proof.
  intros Hfuel Hso Hoff.
  induction pre as [| e pre IH]; intros sc r Hlayer Hcfg; cbn [app processEntries].
  - rewrite Hso, Hlayer, Hoff. reflexivity.
  - assert (Hrest : ConfigOnServer pre infos).
    { intros e' He'. apply Hcfg. constructor. exact He'. }
    destruct (stateOnly e) eqn:Hse; [apply IH; assumption |].
    rewrite Hlayer.
    destruct (Hcfg e ltac:(constructor) Hse) as [layerInfo Hget]. rewrite Hget.
    assert (exists p, infos !! p = Some layerInfo) as [p Hpos].
    { unfold JS.array_get in Hget. destruct (index e) as [z |]; [| discriminate].
      destruct (decide (0 <= z)%Z); [eauto | discriminate]. }
    destruct (processLayerInfo_returns infos Hinfos fuel p layerInfo sc r Hlayer Hpos)
      as [[[node sc1] r1] Hrun1]; [lia |].
    rewrite Hrun1, bind_Return_l. cbv beta iota.
    apply processLayerInfo_sound in Hrun1 as (Hext1 & _). cbn in Hext1.
    rewrite (IH sc1 r1); [reflexivity | | exact Hrest].
    rewrite (ext_layer _ _ Hext1). exact Hlayer.
Qed.

End OffServer.

Section SampleHierarchy.

Import DynamicRecord DynamicSpec.

Lemma exampleRecord_Hierarchy : Hierarchy (layerInfos (_layer exampleRecord)).
Proof.
  intros p layerInfo slids slid Hp Hs Hin. cbn in Hp |- *.
  destruct p as [| [| [| [| [| p]]]]]; cbn in Hp; try discriminate;
    injection Hp as <-; cbn in Hs; try discriminate; injection Hs as <-;
    repeat (apply elem_of_cons in Hin as [-> | Hin]; [lia |]);
    apply elem_of_nil in Hin; contradiction.
Qed.

End SampleHierarchy.

(** A config entry that is not [stateOnly] and whose index is no position
    of the server's [layerInfos] makes the load handler throw a TypeError
    (the walk reads [id] from undefined), however the entries before it
    look, as long as their walks return. *)
Theorem onLoad_throws_on_entry_off_server
    (fuel : nat) (bundle : DynamicRecord.AttributeBundle) (r : DynamicRecord.t)
    (pre post : list Config.LayerEntry) (le : Config.LayerEntry) :
  DynamicRecord.layerEntries r = (pre ++ le :: post)%list ->
  Config.stateOnly le = false ->
  JS.array_get (DynamicRecord.layerInfos (DynamicRecord._layer r)) (Config.index le) = None ->
  DynamicSpec.Hierarchy (DynamicRecord.layerInfos (DynamicRecord._layer r)) ->
  DynamicSpec.ConfigOnServer pre (DynamicRecord.layerInfos (DynamicRecord._layer r)) ->
  length (DynamicRecord.layerInfos (DynamicRecord._layer r)) <= fuel ->
  DynamicRecord.onLoad fuel bundle r
  = JS.Throw (JS.TypeError "Cannot read property 'id' of undefined").
Proof.
  intros Hentries Hso Hoff Hh Hcfg Hfuel.
  unfold DynamicRecord.onLoad, DynamicRecord.resolve. cbv zeta.
  cbn [DynamicRecord.layerEntries DynamicRecord._configIsComplete
       DynamicRecord.with_isTrueDynamic].
  rewrite Hentries at 1.
  rewrite (processEntries_off_server _ Hh fuel le post Hfuel Hso Hoff pre _
             (DynamicRecord.with_isTrueDynamic r _) eq_refl Hcfg).
  reflexivity.
Qed.

Lemma onLoad_throws_on_entry_off_server_witness :
  let r := DynamicRecord.constructor
             [Config.mkEntry (JS.Int 1) None None None false None;
              Config.mkEntry (JS.Int 9) (Some "Gone") None None false None]
             (DynamicRecord._layer exampleRecord) false in
  DynamicRecord.onLoad 5 exampleBundle r
  = JS.Throw (JS.TypeError "Cannot read property 'id' of undefined").
Proof.
  cbv zeta.
  apply (onLoad_throws_on_entry_off_server 5 exampleBundle _
           [Config.mkEntry (JS.Int 1) None None None false None] []
           (Config.mkEntry (JS.Int 9) (Some "Gone") None None false None)).
  - reflexivity.
  - reflexivity.
  - reflexivity.
  - apply exampleRecord_Hierarchy.
  - intros e He _. apply list_elem_of_singleton in He as ->. vm_compute. eauto.
  - vm_compute. lia.
Defined.

(** With a config not marked complete, a load that builds no feature
    class (no attribute index is a node of the tree, so that no feature
    class constructor runs) leaves the esri layer as it was: the handler
    skips the block that calls [setVisibleLayers]. The config entries are
    untouched, [_isTrueDynamic] takes the value of the layer's
    [supportsDynamicLayers], and every proxy handed out before the load
    stays cached under its key. *)
Theorem onLoad_partial_config_leaves_layer
    (fuel : nat) (bundle : DynamicRecord.AttributeBundle) (r r' : DynamicRecord.t) :
  DynamicRecord._configIsComplete r = false ->
  DynamicRecord.onLoad fuel bundle r = JS.Return r' ->
  DynamicRecord._featClasses r' = [] ->
  DynamicRecord._layer r' = DynamicRecord._layer r
  /\ DynamicRecord.layerEntries r' = DynamicRecord.layerEntries r
  /\ DynamicRecord._isTrueDynamic r'
     = DynamicRecord.supportsDynamicLayers (DynamicRecord._layer r)
  /\ forall k h, DynamicRecord._proxies r !! k = Some h ->
                 DynamicRecord._proxies r' !! k = Some h.
Proof.
  intros Hc H _. unfold DynamicRecord.onLoad in H.
  apply bind_Return in H as ([sc r0] & Hres & H).
  destruct (resolve_facts _ _ _ _ _ Hres) as (_ & Hprox & _ & Hc0 & Hl0).
  rewrite Hc0, Hc in H. injection H as <-.
  apply resolve_inv in Hres as (tree & r1 & Hwalk & Hload).
  apply processEntries_sound in Hwalk as (Hext & _). cbn in Hext.
  apply loadFeatureClasses_Loaded in Hload as Hld.
  split_and!.
  - exact Hl0.
  - rewrite (DynamicSpec.ld_entries _ _ Hld). cbn.
    rewrite (DynamicSpec.ext_entries _ _ Hext). reflexivity.
  - rewrite (DynamicSpec.ld_trueDynamic _ _ Hld). cbn.
    rewrite (DynamicSpec.ext_trueDynamic _ _ Hext). reflexivity.
  - exact Hprox.
Qed.

(** On the sample record with a proxy requested for index 2 and a bundle
    that reports index 0 only, which is no node of the tree. *)
Lemma onLoad_partial_config_leaves_layer_witness :
  let r := (DynamicRecord.getChildProxy 2 exampleRecord).2 in
  let bundle := DynamicRecord.mkBundle ["0"] in
  exists r',
    DynamicRecord.onLoad 5 bundle r = JS.Return r'
    /\ DynamicRecord._featClasses r' = []
    /\ DynamicRecord._layer r' = DynamicRecord._layer r
    /\ DynamicRecord.layerEntries r' = DynamicRecord.layerEntries r
    /\ DynamicRecord._isTrueDynamic r'
       = DynamicRecord.supportsDynamicLayers (DynamicRecord._layer r)
    /\ forall k h, DynamicRecord._proxies r !! k = Some h ->
                   DynamicRecord._proxies r' !! k = Some h.
Proof.
  cbv zeta. eexists.
  assert (Hrun : DynamicRecord.onLoad 5 (DynamicRecord.mkBundle ["0"])
                   (DynamicRecord.getChildProxy 2 exampleRecord).2 = JS.Return _)
    by (vm_compute; reflexivity).
  split; [exact Hrun |]. split; [reflexivity |].
  apply (onLoad_partial_config_leaves_layer 5 (DynamicRecord.mkBundle ["0"])
           (DynamicRecord.getChildProxy 2 exampleRecord).2 _ eq_refl Hrun eq_refl).
Defined.

(** ** The results of an identify *)

Section Identify.

Import DynamicChild OwnPropertyOrder.

Lemma arrayIndex_toString (z : Z) :
  JS.arrayIndex (JS.toString z)
  = if decide (0 <= z < 4294967295)%Z then Some z else None.
Proof.
  unfold JS.arrayIndex. rewrite parseInt_toString.
  repeat case_decide; try reflexivity; tauto.
Qed.

Lemma arrayIndex_Some (k : string) (z : Z) :
  JS.arrayIndex k = Some z -> k = JS.toString z /\ (0 <= z < 4294967295)%Z.
Proof.
  unfold JS.arrayIndex. destruct (JS.parseInt k) as [z' |]; [| discriminate].
  case_decide; [| discriminate]. intros [= <-]. split; [symmetry |]; tauto.
Qed.

Lemma precedes_trans (a b c : string) :
  JS.precedes a b = true -> JS.precedes b c = true -> JS.precedes a c = true.
Proof.
  unfold JS.precedes.
  destruct (JS.arrayIndex a), (JS.arrayIndex b), (JS.arrayIndex c);
    try discriminate; try reflexivity.
  rewrite !Z.ltb_lt. lia.
Qed.

Lemma obj_get_cons {V} (k k' : string) (v' : V) (o : list (string * V)) :
  JS.obj_get ((k', v') :: o) k = if decide (k = k') then Some v' else JS.obj_get o k.
Proof. reflexivity. Qed.

Lemma obj_get_elem {V} (o : list (string * V)) (k : string) (v : V) :
  JS.obj_get o k = Some v -> (k, v) ∈ o.
Proof.
  induction o as [| [k' v'] o IH]; [discriminate |].
  rewrite obj_get_cons. case_decide as Hk.
  - intros [= ->]. subst k'. apply elem_of_cons. auto.
  - intros H. apply elem_of_cons. right. apply IH, H.
Qed.

Lemma obj_replace_same {V} (o : list (string * V)) (k : string) (v : V) :
  JS.obj_get o k = Some v -> JS.obj_replace k v o = o.
Proof.
  induction o as [| [k' v'] o IH]; [discriminate |].
  rewrite obj_get_cons. cbn [JS.obj_replace]. case_decide as Hk.
  - intros [= ->]. subst k'. reflexivity.
  - intros H. rewrite (IH H). reflexivity.
Qed.

Lemma elem_of_obj_add {V} (o : list (string * V)) (k : string) (v : V) (x : string * V) :
  x ∈ JS.obj_add k v o <-> x = (k, v) \/ x ∈ o.
Proof.
  induction o as [| [k' v'] o IH]; cbn [JS.obj_add].
  - rewrite list_elem_of_singleton, elem_of_nil. tauto.
  - destruct (JS.precedes k k').
    + rewrite elem_of_cons. reflexivity.
    + rewrite !elem_of_cons, IH. tauto.
Qed.

Lemma obj_add_sorted {V} (o : list (string * V)) (k : string) (v : V) :
  StronglySorted KeyOrder o -> JS.obj_get o k = None ->
  StronglySorted KeyOrder (JS.obj_add k v o).
Proof.
  induction o as [| [k' v'] o IH]; cbn [JS.obj_add]; intros Hs Hget.
  - repeat constructor.
  - rewrite obj_get_cons in Hget. case_decide as Hk; [discriminate |].
    apply StronglySorted_inv in Hs as [Hs Hall].
    destruct (JS.precedes k k') eqn:Hprec.
    + constructor; [constructor; assumption |].
      constructor; [right; exact Hprec |].
      eapply Forall_impl; [exact Hall |].
      intros y [Hy | Hy]; [left; exact Hy | right].
      eapply precedes_trans; [exact Hprec | exact Hy].
    + constructor; [apply IH; assumption |].
      apply Forall_forall. intros x Hx. apply elem_of_obj_add in Hx as [-> | Hx];
        [| rewrite Forall_forall in Hall; apply Hall, Hx].
      unfold KeyOrder, JS.precedes in Hprec |- *. cbn [fst].
      destruct (JS.arrayIndex k) as [a |] eqn:Ha; [| left; reflexivity].
      destruct (JS.arrayIndex k') as [b |] eqn:Hb; [| discriminate].
      right. apply Z.ltb_lt. apply Z.ltb_ge in Hprec.
      apply arrayIndex_Some in Ha as [-> _]. apply arrayIndex_Some in Hb as [-> _].
      assert (a <> b) by congruence. lia.
Qed.

Lemma identifyResult_set (z : Z) (arr : list (string * Z)) :
  IndexedByValue arr ->
  IndexedByValue (JS.obj_set (JS.toString z) z arr)
  /\ forall x, x ∈ JS.obj_set (JS.toString z) z arr <-> x = (JS.toString z, z) \/ x ∈ arr.
Proof.
  intros [Hs Hkeys]. unfold JS.obj_set.
  destruct (JS.obj_get arr (JS.toString z)) as [v0 |] eqn:Hget.
  - apply obj_get_elem in Hget as Hin.
    assert (v0 = z) as -> by (symmetry; apply toString_inj, (Hkeys _ _ Hin)).
    rewrite (obj_replace_same _ _ _ Hget). split; [split; assumption |].
    intros x. split; [auto | intros [-> | H]; assumption].
  - split; [split |].
    + apply obj_add_sorted; assumption.
    + intros k v Hin. apply elem_of_obj_add in Hin as [[= -> ->] | Hin]; [reflexivity |].
      apply (Hkeys _ _ Hin).
    + intros x. apply elem_of_obj_add.
Qed.

Lemma identifyResults_from (layerIds : list Z) :
  forall arr,
    IndexedByValue arr ->
    let arr' := fold_left (fun arr leafIndex => JS.obj_set (JS.toString leafIndex) leafIndex arr)
                          layerIds arr in
    IndexedByValue arr'
    /\ forall x, x ∈ arr' <-> x ∈ arr \/ exists z, z ∈ layerIds /\ x = (JS.toString z, z).
Proof.
  induction layerIds as [| z layerIds IH]; intros arr Harr; cbn [fold_left]; cbv zeta.
  - split; [exact Harr |]. intros x. split; [auto |].
    intros [H | (z & Hz & _)]; [exact H |]. apply elem_of_nil in Hz. contradiction.
  - destruct (identifyResult_set z arr Harr) as [Harr1 Hin1].
    destruct (IH _ Harr1) as [Harr2 Hin2]. cbv zeta in Harr2, Hin2.
    split; [exact Harr2 |]. intros x. rewrite Hin2, Hin1. split.
    + intros [[-> | H] | (z' & Hz' & ->)]; [right | auto | right].
      * exists z. split; [apply elem_of_cons; auto | reflexivity].
      * exists z'. split; [apply elem_of_cons; auto | reflexivity].
    + intros [H | (z' & Hz' & ->)]; [auto |].
      apply elem_of_cons in Hz' as [-> | Hz']; [auto | right; eauto].
Qed.

Lemma elem_of_List_filter {A} (f : A -> bool) (l : list A) (x : A) :
  x ∈ List.filter f l <-> x ∈ l /\ f x = true.
Proof. rewrite !list_elem_of_In. apply filter_In. Qed.

Lemma elem_of_collapse (arr : list (string * Z)) (z : Z) :
  (forall k v, (k, v) ∈ arr -> k = JS.toString v) ->
  z ∈ collapse arr <-> (JS.toString z, z) ∈ arr /\ (0 <= z < 4294967295)%Z.
Proof.
  intros Hkeys. unfold collapse. rewrite list_elem_of_fmap. split.
  - intros ([k v] & -> & Hx). apply elem_of_List_filter in Hx as [Hin Hidx].
    cbn [fst snd] in *. pose proof (Hkeys _ _ Hin) as ->.
    split; [exact Hin |]. apply bool_decide_eq_true in Hidx.
    rewrite arrayIndex_toString in Hidx. case_decide; [assumption |].
    destruct Hidx as [? [=]].
  - intros [Hin Hrange]. exists (JS.toString z, z). split; [reflexivity |].
    apply elem_of_List_filter. split; [exact Hin |].
    apply bool_decide_eq_true. cbn [fst]. rewrite arrayIndex_toString.
    rewrite decide_True by exact Hrange. eauto.
Qed.

Lemma collapse_sorted (arr : list (string * Z)) :
  IndexedByValue arr -> StronglySorted Z.lt (collapse arr).
Proof.
  induction arr as [| [k v] arr IH]; intros [Hs Hkeys]; [constructor |].
  apply StronglySorted_inv in Hs as [Hs Hall].
  assert (Harr : IndexedByValue arr).
  { split; [exact Hs |]. intros k' v' Hin. apply Hkeys, elem_of_cons. auto. }
  unfold collapse. cbn [List.filter fst].
  destruct (bool_decide (is_Some (JS.arrayIndex k))) eqn:Hidx; cbn [map snd];
    fold (collapse arr); [| apply IH, Harr].
  constructor; [apply IH, Harr |].
  apply Forall_forall. intros z Hz.
  apply elem_of_collapse in Hz as [Hin Hrange]; [| apply Harr].
  rewrite Forall_forall in Hall. specialize (Hall _ Hin).
  apply bool_decide_eq_true in Hidx.
  pose proof (Hkeys k v ltac:(apply elem_of_cons; auto)) as ->.
  rewrite arrayIndex_toString in Hidx.
  unfold KeyOrder, JS.precedes in Hall. cbn [fst] in Hall.
  rewrite !arrayIndex_toString in Hall. rewrite (decide_True _ _ Hrange) in Hall.
  case_decide; [| destruct Hidx as [? [=]]].
  destruct Hall as [[=] | Hlt]. apply Z.ltb_lt, Hlt.
Qed.

End Identify.

(** The results [identify] returns come in ascending order of leaf index,
    whatever the order of the request, one per distinct requested id: a
    leaf asked for twice gets one result, and an id that is no array index
    (negative, or 2^32 - 1 and above) gets none. *)
Theorem identify_results_by_leaf_index (layerIds : list Z) :
  StronglySorted Z.lt (DynamicChild.identify layerIds)
  /\ forall z, z ∈ DynamicChild.identify layerIds
               <-> z ∈ layerIds /\ (0 <= z < 4294967295)%Z.
Proof.
  assert (Hnil : OwnPropertyOrder.IndexedByValue []).
  { split; [constructor |]. intros k v H. apply elem_of_nil in H. contradiction. }
  destruct (identifyResults_from layerIds [] Hnil) as [Harr Hin]. cbv zeta in Harr, Hin.
  unfold DynamicChild.identify, DynamicChild.identifyResults. split.
  - apply collapse_sorted, Harr.
  - intros z. rewrite (elem_of_collapse _ z (proj2 Harr)), Hin. split.
    + intros [[H | (z' & Hz' & Heq)] Hrange]; [apply elem_of_nil in H; contradiction |].
      injection Heq as Heq _. apply toString_inj in Heq as ->. auto.
    + intros [Hz Hrange]. split; [right; eauto | exact Hrange].
Qed.

(** ** The scales at which a feature class shows *)

(** The scales at which a feature class is on-scale form an interval: a
    scale between two on-scale scales is on-scale. *)
Theorem isOffScale_on_scale_interval
    (scaleSet : BasicFC.ScaleSet) (s1 s s2 : Q) (res1 res2 : BasicFC.OffScale) :
  (s1 <= s)%Q -> (s <= s2)%Q ->
  BasicFC.isOffScale (JS.Fulfilled scaleSet) s1 = JS.Fulfilled res1 ->
  BasicFC.isOffScale (JS.Fulfilled scaleSet) s2 = JS.Fulfilled res2 ->
  BasicFC.offScale res1 = false -> BasicFC.offScale res2 = false ->
  BasicFC.isOffScale (JS.Fulfilled scaleSet) s
  = JS.Fulfilled {| BasicFC.offScale := false; BasicFC.zoomIn := false |}.
Proof.
  intros H1 H2 Hr1 Hr2 Hon1 Hon2.
  injection Hr1 as <-. injection Hr2 as <-.
  destruct (offScaleOf_cases s1 scaleSet) as (Ha1 & Hb1 & Hc1).
  destruct (offScaleOf_cases s2 scaleSet) as (Ha2 & Hb2 & Hc2).
  destruct (offScaleOf_cases s scaleSet) as (_ & _ & Hc).
  assert (Hin1 : ~ ((s1 < BasicFC.maxScale scaleSet)%Q
                    /\ ~ (BasicFC.maxScale scaleSet == 0)%Q)).
  { intros H. rewrite (Ha1 H) in Hon1. discriminate. }
  assert (Hin2 : ~ ((s2 < BasicFC.maxScale scaleSet)%Q
                    /\ ~ (BasicFC.maxScale scaleSet == 0)%Q)).
  { intros H. rewrite (Ha2 H) in Hon2. discriminate. }
  assert (Hout2 : ~ ((BasicFC.minScale scaleSet < s2)%Q
                     /\ ~ (BasicFC.minScale scaleSet == 0)%Q)).
  { intros H. rewrite (Hb2 Hin2 H) in Hon2. discriminate. }
  unfold BasicFC.isOffScale. cbn. f_equal. apply Hc.
  - intros [Hlt Hne]. apply Hin1. split; [| exact Hne].
    eapply Qle_lt_trans; eassumption.
  - intros [Hlt Hne]. apply Hout2. split; [| exact Hne].
    eapply Qlt_le_trans; eassumption.
Qed.

Lemma isOffScale_on_scale_interval_witness :
  BasicFC.isOffScale (JS.Fulfilled {| BasicFC.minScale := 10000; BasicFC.maxScale := 5000 |}) 7000
  = JS.Fulfilled {| BasicFC.offScale := false; BasicFC.zoomIn := false |}.
Proof.
  apply (isOffScale_on_scale_interval
           {| BasicFC.minScale := 10000; BasicFC.maxScale := 5000 |} 5000 7000 10000
           {| BasicFC.offScale := false; BasicFC.zoomIn := false |}
           {| BasicFC.offScale := false; BasicFC.zoomIn := false |});
    try reflexivity; discriminate.
Defined.

(** ** Proxies do not steer the load *)

Section Outcome.

Import Config DynamicRecord DynamicSpec LoadOutcome.

Lemma bind_Throw_l {A B} (e : JS.Error) (k : A -> JS.Result B) :
  (JS.Throw e ≫= k) = JS.Throw e.
Proof. reflexivity. Qed.

Lemma bind_OutOfFuel_l {A B} (k : A -> JS.Result B) :
  (JS.OutOfFuel ≫= k) = JS.OutOfFuel.
Proof. reflexivity. Qed.

Lemma processChildren_outcome (fuel : nat) :
  (forall layerInfo sc r1 r2,
      _layer r1 = _layer r2 ->
      walkOutcome (processLayerInfo fuel layerInfo sc r1)
      = walkOutcome (processLayerInfo fuel layerInfo sc r2)) ->
  forall slids sc r1 r2,
    _layer r1 = _layer r2 ->
    walkOutcome (processChildren fuel slids sc r1)
    = walkOutcome (processChildren fuel slids sc r2).
Proof.
  intros Hnode. induction slids as [| slid slids IH]; intros sc r1 r2 Hlayer;
    unfold processChildren; cbn [forEachChild]; fold (processChildren fuel);
    [reflexivity |].
  rewrite Hlayer.
  destruct (JS.array_get (layerInfos (_layer r2)) (JS.Int slid)) as [child |];
    [| reflexivity].
  specialize (Hnode child sc r1 r2 Hlayer).
  destruct (processLayerInfo fuel child sc r1) as [[[n1 s1] r1'] | e1 |] eqn:E1;
    destruct (processLayerInfo fuel child sc r2) as [[[n2 s2] r2'] | e2 |] eqn:E2;
    cbn in Hnode; try discriminate;
    [| injection Hnode as ->; reflexivity | reflexivity].
  injection Hnode as -> ->.
  rewrite !bind_Return_l. cbv beta iota.
  apply processLayerInfo_sound in E1 as (Hext1 & _).
  apply processLayerInfo_sound in E2 as (Hext2 & _). cbn in Hext1, Hext2.
  assert (Hlayer' : _layer r1' = _layer r2').
  { rewrite (ext_layer _ _ Hext1), (ext_layer _ _ Hext2). exact Hlayer. }
  specialize (IH s2 r1' r2' Hlayer'). unfold processChildren in IH.
  destruct (forEachChild (processLayerInfo fuel) slids s2 r1') as [[[ns1 t1] q1] | e1 |];
    destruct (forEachChild (processLayerInfo fuel) slids s2 r2') as [[[ns2 t2] q2] | e2 |];
    cbn in IH |- *; try discriminate;
    [| injection IH as ->; reflexivity | reflexivity].
  injection IH as -> ->. reflexivity.
Qed.

Lemma processLayerInfo_outcome (fuel : nat) :
  forall layerInfo sc r1 r2,
    _layer r1 = _layer r2 ->
    walkOutcome (processLayerInfo fuel layerInfo sc r1)
    = walkOutcome (processLayerInfo fuel layerInfo sc r2).
Proof.
  induction fuel as [| fuel IH]; intros layerInfo sc r1 r2 Hlayer; [reflexivity |].
  rewrite !processLayerInfo_S. cbv zeta.
  destruct (subLayerIds layerInfo) as [[| slid slids] |]; try reflexivity.
  pose proof (processChildren_outcome fuel IH (slid :: slids)
                (fetchSubConfig (JS.toString (id layerInfo)) (li_name layerInfo) sc).2
                r1 r2 Hlayer) as H.
  destruct (processChildren fuel (slid :: slids) _ r1) as [[[ns1 t1] q1] | e1 |];
    destruct (processChildren fuel (slid :: slids) _ r2) as [[[ns2 t2] q2] | e2 |];
    cbn in H |- *; try discriminate;
    [| injection H as ->; reflexivity | reflexivity].
  injection H as -> ->. reflexivity.
Qed.

Lemma processEntries_outcome (fuel : nat) :
  forall entries sc r1 r2,
    _layer r1 = _layer r2 ->
    walkOutcome (processEntries fuel entries sc r1)
    = walkOutcome (processEntries fuel entries sc r2).
Proof.
  induction entries as [| le entries IH]; intros sc r1 r2 Hlayer; cbn [processEntries];
    [reflexivity |].
  destruct (stateOnly le); [apply IH, Hlayer |].
  rewrite Hlayer.
  destruct (JS.array_get (layerInfos (_layer r2)) (index le)) as [layerInfo |];
    [| reflexivity].
  pose proof (processLayerInfo_outcome fuel layerInfo sc r1 r2 Hlayer) as Hnode.
  destruct (processLayerInfo fuel layerInfo sc r1) as [[[n1 s1] r1'] | e1 |] eqn:E1;
    destruct (processLayerInfo fuel layerInfo sc r2) as [[[n2 s2] r2'] | e2 |] eqn:E2;
    cbn in Hnode; try discriminate;
    [| injection Hnode as ->; reflexivity | reflexivity].
  injection Hnode as -> ->.
  rewrite !bind_Return_l. cbv beta iota.
  apply processLayerInfo_sound in E1 as (Hext1 & _).
  apply processLayerInfo_sound in E2 as (Hext2 & _). cbn in Hext1, Hext2.
  assert (Hlayer' : _layer r1' = _layer r2').
  { rewrite (ext_layer _ _ Hext1), (ext_layer _ _ Hext2). exact Hlayer. }
  specialize (IH s2 r1' r2' Hlayer').
  destruct (processEntries fuel entries s2 r1') as [[[ns1 t1] q1] | e1 |];
    destruct (processEntries fuel entries s2 r2') as [[[ns2 t2] q2] | e2 |];
    cbn in IH |- *; try discriminate;
    [| injection IH as ->; reflexivity | reflexivity].
  injection IH as -> ->. reflexivity.
Qed.

(** What the loop over the attribute indexes does to the record, the
    proxies set aside. *)
Lemma loadFeatureClasses_outcome (idxs : list string) (sc : gmap string SubConfig) :
  forall r1 r2,
    _featClasses r1 = _featClasses r2 -> _childTree r1 = _childTree r2 ->
    _layer r1 = _layer r2 -> _configIsComplete r1 = _configIsComplete r2 ->
    match loadFeatureClasses idxs sc r1, loadFeatureClasses idxs sc r2 with
    | JS.Return r1', JS.Return r2' =>
        _featClasses r1' = _featClasses r2' /\ _childTree r1' = _childTree r2'
        /\ _layer r1' = _layer r2' /\ _configIsComplete r1' = _configIsComplete r2'
    | JS.Throw e1, JS.Throw e2 => e1 = e2
    | JS.OutOfFuel, JS.OutOfFuel => True
    | _, _ => False
    end.
Proof.
  induction idxs as [| idx idxs IH]; intros r1 r2 Hf Ht Hl Hc; cbn [loadFeatureClasses].
  - auto.
  - assert (Hstep : match loadFeatureClass idx sc r1, loadFeatureClass idx sc r2 with
                    | JS.Return r1', JS.Return r2' =>
                        _featClasses r1' = _featClasses r2' /\ _childTree r1' = _childTree r2'
                        /\ _layer r1' = _layer r2'
                        /\ _configIsComplete r1' = _configIsComplete r2'
                    | JS.Throw e1, JS.Throw e2 => e1 = e2
                    | JS.OutOfFuel, JS.OutOfFuel => True
                    | _, _ => False
                    end).
    { unfold loadFeatureClass.
      destruct (sc !! idx) as [[c d] |]; cbn [defaulted config]; [| auto].
      destruct d; [| auto].
      destruct (DynamicFC.constructor idx c) as [dFC | e |]; cbn; [| reflexivity | exact I].
      rewrite Hf.
      destruct (_proxies r1 !! idx), (_proxies r2 !! idx); cbn; auto. }
    destruct (loadFeatureClass idx sc r1) as [r1' | e1 |];
      destruct (loadFeatureClass idx sc r2) as [r2' | e2 |]; try contradiction.
    + rewrite !bind_Return_l. destruct Hstep as (? & ? & ? & ?). apply IH; assumption.
    + exact Hstep.
    + exact I.
Qed.

Lemma onLoad_outcome (fuel : nat) (bundle : AttributeBundle) (r1 r2 : t) :
  SameCore r1 r2 ->
  loadOutcome (onLoad fuel bundle r1) = loadOutcome (onLoad fuel bundle r2).
Proof.
  intros (He & Hc & Hf & Hl).
  unfold onLoad, resolve. cbv zeta.
  cbn [layerEntries _configIsComplete with_isTrueDynamic _layer].
  rewrite He, Hc, Hl.
  pose proof (processEntries_outcome fuel (layerEntries r2)
                (collateSubConfigs (layerEntries r2) (_configIsComplete r2))
                (with_isTrueDynamic r1 (supportsDynamicLayers (_layer r2)))
                (with_isTrueDynamic r2 (supportsDynamicLayers (_layer r2))) Hl) as Hwalk.
  destruct (processEntries fuel (layerEntries r2) _ (with_isTrueDynamic r1 _))
    as [[[tree1 sc1] q1] | e1 |] eqn:E1;
    destruct (processEntries fuel (layerEntries r2) _ (with_isTrueDynamic r2 _))
      as [[[tree2 sc2] q2] | e2 |] eqn:E2;
    cbn in Hwalk; try discriminate; [| cbn; congruence | reflexivity].
  injection Hwalk as -> ->.
  rewrite !bind_Return_l. cbv beta iota.
  apply processEntries_sound in E1 as (Hext1 & _).
  apply processEntries_sound in E2 as (Hext2 & _). cbn in Hext1, Hext2.
  pose proof (loadFeatureClasses_outcome (indexes bundle) sc2
                (with_childTree q1 (Some tree2)) (with_childTree q2 (Some tree2))) as Hload.
  cbn in Hload.
  rewrite (ext_featClasses _ _ Hext1), (ext_featClasses _ _ Hext2),
    (ext_layer _ _ Hext1), (ext_layer _ _ Hext2),
    (ext_complete _ _ Hext1), (ext_complete _ _ Hext2) in Hload.
  cbn in Hload. specialize (Hload Hf eq_refl Hl Hc).
  destruct (loadFeatureClasses (indexes bundle) sc2 (with_childTree q1 (Some tree2)))
    as [r1' | e1 |];
    destruct (loadFeatureClasses (indexes bundle) sc2 (with_childTree q2 (Some tree2)))
      as [r2' | e2 |]; try contradiction; [| cbn; congruence | reflexivity].
  rewrite !bind_Return_l. destruct Hload as (Hf' & Ht' & Hl' & Hc').
  rewrite Hc'. destruct (_configIsComplete r2').
  - unfold setInitialVisibility. rewrite Hf'.
    destruct (filterKeys (JS.Object_keys (_featClasses r2')) sc2) as [[kept sc3] | e |];
      cbn; [| reflexivity | reflexivity].
    rewrite Hf', Ht', Hl'. reflexivity.
  - cbn. rewrite Hf', Ht', Hl'. reflexivity.
Qed.

End Outcome.

(** Asking for proxies before the load does not steer the load: whether
    the handler returns or which error it throws, the child tree, the
    feature classes and the calls made on the esri layer are the same as
    without the requests. *)
Theorem getChildProxy_does_not_steer_load
    (fuel : nat) (bundle : DynamicRecord.AttributeBundle) (r : DynamicRecord.t)
    (featureIdxs : list Z) :
  let requested :=
    fold_left (fun r featureIdx => (DynamicRecord.getChildProxy featureIdx r).2)
              featureIdxs r in
  LoadOutcome.loadOutcome (DynamicRecord.onLoad fuel bundle requested)
  = LoadOutcome.loadOutcome (DynamicRecord.onLoad fuel bundle r).
Proof.
  cbv zeta. apply onLoad_outcome.
  revert r. induction featureIdxs as [| z zs IH]; intros r; cbn [fold_left].
  - repeat split.
  - destruct (IH (DynamicRecord.getChildProxy z r).2) as (He & Hc & Hf & Hl).
    pose proof (getChildProxy_Extends z r) as Hext.
    split_and!.
    + rewrite He. apply (DynamicSpec.ext_entries _ _ Hext).
    + rewrite Hc. apply (DynamicSpec.ext_complete _ _ Hext).
    + rewrite Hf. apply (DynamicSpec.ext_featClasses _ _ Hext).
    + rewrite Hl. apply (DynamicSpec.ext_layer _ _ Hext).
Qed.

(** ** Fetches of different indexes *)

Section FetchOrder.

Import Config DynamicRecord.

(** What a fetch returns depends on the entry of its index only. *)
Lemma fetchSubConfig_local (id serverName : string) (sc sc' : gmap string SubConfig) :
  sc !! id = sc' !! id ->
  (fetchSubConfig id serverName sc).1 = (fetchSubConfig id serverName sc').1.
Proof.
  intros H. unfold fetchSubConfig. rewrite <- H.
  destruct (sc !! id) as [[c d] |]; [destruct d |]; reflexivity.
Qed.

End FetchOrder.

(** Fetches of two different indexes do not disturb each other: each
    returns the config it would have returned alone, and the table they
    leave is the same in either order. *)
Theorem fetchSubConfig_order_irrelevant
    (id1 id2 serverName1 serverName2 : string)
    (subConfigs : gmap string DynamicRecord.SubConfig) :
  id1 <> id2 ->
  let alone1 := DynamicRecord.fetchSubConfig id1 serverName1 subConfigs in
  let alone2 := DynamicRecord.fetchSubConfig id2 serverName2 subConfigs in
  let after1 := DynamicRecord.fetchSubConfig id2 serverName2 alone1.2 in
  let after2 := DynamicRecord.fetchSubConfig id1 serverName1 alone2.2 in
  after1.1 = alone2.1 /\ after2.1 = alone1.1 /\ after1.2 = after2.2.
Proof.
  intros Hne. cbv zeta.
  assert (H1 : (DynamicRecord.fetchSubConfig id2 serverName2
                  (DynamicRecord.fetchSubConfig id1 serverName1 subConfigs).2).1
               = (DynamicRecord.fetchSubConfig id2 serverName2 subConfigs).1).
  { apply fetchSubConfig_local, fetchSubConfig_other. congruence. }
  assert (H2 : (DynamicRecord.fetchSubConfig id1 serverName1
                  (DynamicRecord.fetchSubConfig id2 serverName2 subConfigs).2).1
               = (DynamicRecord.fetchSubConfig id1 serverName1 subConfigs).1).
  { apply fetchSubConfig_local, fetchSubConfig_other. exact Hne. }
  split_and!; [exact H1 | exact H2 |].
  apply map_eq. intros k.
  destruct (decide (k = id1)) as [-> | Hk1]; [| destruct (decide (k = id2)) as [-> | Hk2]].
  - rewrite fetchSubConfig_other by exact Hne.
    rewrite !fetchSubConfig_entry, H2. reflexivity.
  - rewrite (fetchSubConfig_other id1) by congruence.
    rewrite !fetchSubConfig_entry, H1. reflexivity.
  - rewrite !fetchSubConfig_other by assumption. reflexivity.
Qed.

Lemma fetchSubConfig_order_irrelevant_witness :
  let sc := DynamicRecord.collateSubConfigs
              [Config.mkEntry (JS.Int 1) (Some "Water") None None false None] false in
  let alone1 := DynamicRecord.fetchSubConfig "1" "Hydro" sc in
  let alone2 := DynamicRecord.fetchSubConfig "2" "Lakes" sc in
  let after1 := DynamicRecord.fetchSubConfig "2" "Lakes" alone1.2 in
  let after2 := DynamicRecord.fetchSubConfig "1" "Hydro" alone2.2 in
  after1.1 = alone2.1 /\ after2.1 = alone1.1 /\ after1.2 = after2.2.
Proof.
  apply (fetchSubConfig_order_irrelevant "1" "2" "Hydro" "Lakes"). discriminate.
Defined.

(** ** The names of the groups of the tree *)

Section GroupNames.

Import Config DynamicRecord DynamicSpec DynamicState DynamicChild.

Lemma TreeNode_nested_ind (P : TreeNode -> Prop) :
  (forall z, P (Leaf z)) ->
  (forall z name childs, Forall P childs -> P (Group z name childs)) ->
  forall node, P node.
Proof.
  intros Hleaf Hgroup.
  refine (fix IH (node : TreeNode) : P node :=
            match node with
            | Leaf z => Hleaf z
            | Group z name childs =>
                Hgroup z name childs
                  ((fix go (l : list TreeNode) : Forall P l :=
                      match l with
                      | [] => List.Forall_nil P
                      | c :: cs => @List.Forall_cons _ P c cs (IH c) (go cs)
                      end) childs)
            end).
Qed.

Lemma Forall2_elem_r {A B} (R : A -> B -> Prop) (l : list A) (k : list B) (y : B) :
  Forall2 R l k -> y ∈ k -> exists x, x ∈ l /\ R x y.
Proof.
  induction 1 as [| x y' l k HR _ IH]; intros Hy.
  - apply elem_of_nil in Hy. contradiction.
  - apply elem_of_cons in Hy as [-> | Hy].
    + exists x. split; [apply elem_of_cons; auto | exact HR].
    + destruct (IH Hy) as (x' & Hx' & HR'). exists x'.
      split; [apply elem_of_cons; auto | exact HR'].
Qed.

Lemma groups_nodeIds (node : TreeNode) (z : Z) (name : option string) :
  (z, name) ∈ groups node -> z ∈ nodeIds node.
Proof.
  revert z name. induction node as [z' | z' name' childs IH] using TreeNode_nested_ind;
    intros z name; cbn [groups nodeIds].
  - intros H. apply elem_of_nil in H. contradiction.
  - rewrite !elem_of_cons, !elem_of_flat_map.
    intros [[= -> _] | (child & Hchild & Hz)]; [auto | right].
    exists child. split; [exact Hchild |].
    rewrite Forall_forall in IH. eapply IH; eassumption.
Qed.

Lemma Mirrors_groups (infos : list LayerInfo) (sc : gmap string SubConfig) (node : TreeNode) :
  forall layerInfo,
    layerInfo ∈ infos ->
    Mirrors infos sc layerInfo node ->
    forall z name,
      (z, name) ∈ groups node ->
      exists li subC,
        li ∈ infos /\ id li = z /\ sc !! JS.toString z = Some subC
        /\ name = Config.name (config subC).
Proof.
  induction node as [z' | z' name' childs IH] using TreeNode_nested_ind;
    intros layerInfo Hin Hmir z name; cbn [groups].
  - intros H. apply elem_of_nil in H. contradiction.
  - inversion Hmir as [| li slids subC childs' Hsub Hne Hsc Hall]; subst.
    rewrite elem_of_cons, elem_of_flat_map.
    intros [[= -> ->] | (child & Hchild & Hz)].
    + exists layerInfo, subC. auto.
    + destruct (Forall2_elem_r _ _ _ _ Hall Hchild) as (slid & _ & childInfo & Hget & Hmir').
      rewrite Forall_forall in IH.
      apply (IH child Hchild childInfo); [| exact Hmir' | exact Hz].
      eapply array_get_elem, Hget.
Qed.

Lemma IdsArePositions_get (infos : list LayerInfo) (li : LayerInfo) :
  IdsArePositions infos -> li ∈ infos ->
  JS.array_get infos (JS.Int (id li)) = Some li.
Proof.
  intros Hids Hin. apply list_elem_of_lookup in Hin as [p Hp].
  rewrite (Hids _ _ Hp). unfold JS.array_get.
  rewrite decide_True by lia. rewrite Nat2Z.id. exact Hp.
Qed.

End GroupNames.

(** On a server that numbers its sub-layers by position, and with a config
    not marked complete, every group of the child tree, at any depth,
    carries the name a first fetch of its index gives with the server name
    that [getChildName] returns for the index: the configured name when
    there is a non-empty one, the server name otherwise. *)
Theorem tree_group_names
    (fuel : nat) (bundle : DynamicRecord.AttributeBundle) (r r' : DynamicRecord.t) :
  DynamicRecord._configIsComplete r = false ->
  DynamicState.IdsArePositions (DynamicRecord.layerInfos (DynamicRecord._layer r)) ->
  DynamicRecord.onLoad fuel bundle r = JS.Return r' ->
  exists tree,
    DynamicRecord.getChildTree r' = JS.Return tree
    /\ forall node z name,
        node ∈ tree -> (z, name) ∈ DynamicChild.groups node ->
        exists serverName,
          DynamicChild.getChildName (JS.Int z) r' = JS.Return serverName
          /\ name
             = Config.name
                 (DynamicRecord.fetchSubConfig (JS.toString z) serverName
                    (DynamicRecord.collateSubConfigs (DynamicRecord.layerEntries r) false)).1.
Proof.
  intros Hc Hids Hload. unfold DynamicRecord.onLoad in Hload.
  apply bind_Return in Hload as ([sc r0] & Hres & Hload).
  destruct (resolve_facts _ _ _ _ _ Hres) as ((tree & Htree & Hmir) & _ & _ & Hc0 & Hl0).
  rewrite Hc0, Hc in Hload. injection Hload as <-.
  pose proof (resolve_resolvedFrom _ _ _ _ _ Hres) as [_ Hfrom]. rewrite Hc in Hfrom.
  apply resolve_inv in Hres as (tree' & r1 & Hwalk & Hld).
  pose proof (processEntries_Marks _ _ _ _ _ Hwalk) as Hmarks. cbn [fst snd] in Hmarks.
  apply loadFeatureClasses_Loaded in Hld.
  assert (tree' = tree) as ->.
  { pose proof (DynamicSpec.ld_childTree _ _ Hld) as Ht. cbn in Ht. congruence. }
  exists tree. split; [unfold DynamicRecord.getChildTree; rewrite Htree; reflexivity |].
  intros node z name Hnode Hgroup.
  unfold DynamicSpec.MirrorsConfig in Hmir.
  destruct (Forall2_elem_r _ _ _ _ Hmir Hnode) as (le & _ & layerInfo & Hget & Hmirror).
  destruct (Mirrors_groups _ _ _ layerInfo (array_get_elem _ _ _ Hget) Hmirror z name Hgroup)
    as (li & subC & Hli & <- & Hsc & ->).
  pose proof (IdsArePositions_get _ _ Hids Hli) as Hname.
  exists (DynamicRecord.li_name li). split.
  - unfold DynamicChild.getChildName. rewrite Hl0, Hname. reflexivity.
  - assert (Hd : DynamicRecord.defaulted subC = true).
    { assert (Hm : DynamicSpec.marker sc (JS.toString (DynamicRecord.id li)) = true).
      { apply Hmarks. right. exists (DynamicRecord.id li). split; [| reflexivity].
        apply elem_of_flat_map. exists node. split; [exact Hnode |].
        eapply groups_nodeIds, Hgroup. }
      unfold DynamicSpec.marker in Hm. rewrite Hsc in Hm. exact Hm. }
    destruct (Hfrom _ _ Hsc) as [H0 | (_ & li' & Hli' & Hid & ->)].
    + apply collateSubConfigs_defaulted in H0 as [H0 _]. congruence.
    + apply toString_inj in Hid.
      pose proof (IdsArePositions_get _ _ Hids Hli') as Hname'.
      rewrite Hid, Hname in Hname'. injection Hname' as ->. reflexivity.
Qed.

Lemma tree_group_names_witness :
  exists r' tree,
    DynamicRecord.onLoad 5 exampleBundle exampleRecord = JS.Return r'
    /\ DynamicRecord.getChildTree r' = JS.Return tree
    /\ forall node z name,
        node ∈ tree -> (z, name) ∈ DynamicChild.groups node ->
        exists serverName,
          DynamicChild.getChildName (JS.Int z) r' = JS.Return serverName
          /\ name
             = Config.name
                 (DynamicRecord.fetchSubConfig (JS.toString z) serverName
                    (DynamicRecord.collateSubConfigs
                       (DynamicRecord.layerEntries exampleRecord) false)).1.
Proof.
  eexists.
  assert (Hrun : DynamicRecord.onLoad 5 exampleBundle exampleRecord = JS.Return _)
    by (vm_compute; reflexivity).
  assert (Hids : DynamicState.IdsArePositions
                   (DynamicRecord.layerInfos (DynamicRecord._layer exampleRecord))).
  { intros p layerInfo Hp. cbn in Hp.
    destruct p as [| [| [| [| [| p]]]]]; cbn in Hp; try discriminate;
      injection Hp as <-; reflexivity. }
  destruct (tree_group_names 5 exampleBundle exampleRecord _ eq_refl Hids Hrun)
    as (tree & Htree & Hnames).
  exists tree. split; [exact Hrun | split; [exact Htree | exact Hnames]].
Defined.

(** ** The child tree mirrors the hierarchy by id *)

Section TreeById.

Import Config DynamicRecord DynamicSpec DynamicState DynamicChild TreeSpec.

Lemma toString_not_NaN (z : Z) : JS.toString z <> "NaN".
Proof.
  intros H. pose proof (parseInt_toString z) as Hp. rewrite H in Hp.
  vm_compute in Hp. discriminate.
Qed.

Lemma key_hasIndex (le : LayerEntry) (z : Z) :
  JS.Number_toString (index le) = JS.toString z <-> hasIndex le z = true.
Proof.
  unfold hasIndex. destruct (index le) as [z' |]; cbn [JS.Number_toString].
  - rewrite Z.eqb_eq. split; [apply toString_inj | intros ->; reflexivity].
  - split; [| discriminate]. intros H. symmetry in H.
    apply toString_not_NaN in H. contradiction.
Qed.

(** The table built from the config holds, for a sub-layer, the config
    entry in force for it. *)
Lemma collateSubConfigs_lookup (entries : list LayerEntry) (complete : bool) (z : Z) :
  collateSubConfigs entries complete !! JS.toString z
  = (fun le => {| config := le; defaulted := complete |}) <$> configuredEntry entries z.
Proof.
  unfold collateSubConfigs.
  assert (H : forall es (acc : gmap string SubConfig),
    fold_left (fun subConfigs le =>
      <[JS.Number_toString (index le) := {| config := le; defaulted := complete |}]> subConfigs)
      es acc !! JS.toString z
    = match configuredEntry es z with
      | Some le => Some {| config := le; defaulted := complete |}
      | None => acc !! JS.toString z
      end).
  { induction es as [| e es IH]; intros acc; cbn [fold_left configuredEntry]; [reflexivity |].
    rewrite IH. destruct (configuredEntry es z); [reflexivity |].
    rewrite lookup_insert. destruct (hasIndex e z) eqn:Hh.
    - apply key_hasIndex in Hh. rewrite decide_True by exact Hh. reflexivity.
    - rewrite decide_False; [reflexivity |].
      intros Hk. apply key_hasIndex in Hk. congruence. }
  rewrite H, lookup_empty. destruct (configuredEntry entries z); reflexivity.
Qed.

(** The name a first fetch hands out is the name of the group. *)
Lemma fetchSubConfig_groupName (entries : list LayerEntry) (complete : bool) (z : Z)
    (serverName : string) :
  Config.name (fetchSubConfig (JS.toString z) serverName
                 (collateSubConfigs entries complete)).1
  = groupName complete entries z serverName.
Proof.
  unfold fetchSubConfig, groupName. rewrite collateSubConfigs_lookup.
  destruct (configuredEntry entries z) as [le |]; cbn; [| reflexivity].
  destruct complete; cbn; [reflexivity |].
  unfold applyDefaults. cbn.
  destruct (outfields le); cbn; destruct (JS.truthy (Config.name le)); reflexivity.
Qed.

Lemma array_get_id (infos : list LayerInfo) (n : JS.Number) (li : LayerInfo) :
  IdsArePositions infos -> JS.array_get infos n = Some li ->
  li ∈ infos /\ n = JS.Int (id li).
Proof.
  intros Hids Hget. split; [eapply array_get_elem, Hget |].
  unfold JS.array_get in Hget. destruct n as [z |]; [| discriminate].
  destruct (decide (0 <= z)%Z); [| discriminate].
  rewrite (Hids _ _ Hget). f_equal. lia.
Qed.

Lemma Forall2_impl_Forall_r {A B} (R R' : A -> B -> Prop) (P : B -> Prop)
    (l : list A) (k : list B) :
  Forall2 R l k -> Forall P k -> (forall x y, R x y -> P y -> R' x y) -> Forall2 R' l k.
Proof.
  intros H. induction H as [| x y l k HR _ IH]; intros HP Himp; constructor.
  - apply Forall_cons in HP as [HPy _]. apply Himp; assumption.
  - apply Forall_cons in HP as [_ HPk]. apply IH; assumption.
Qed.

Variable infos : list LayerInfo.
Variable entries : list LayerEntry.
Variable complete : bool.
Variable sc : gmap string SubConfig.

Hypothesis Hids : IdsArePositions infos.
Hypothesis Hfrom : ResolvedFrom (collateSubConfigs entries complete) infos sc.

Lemma resolved_groupName (li : LayerInfo) (subC : SubConfig) :
  li ∈ infos ->
  sc !! JS.toString (id li) = Some subC ->
  defaulted subC = true ->
  Config.name (config subC) = groupName complete entries (id li) (li_name li).
Proof.
  intros Hli Hsc Hd. destruct Hfrom as [_ Hsome].
  destruct (Hsome _ _ Hsc) as [H0 | (_ & li' & Hli' & Hid & Hcfg)].
  - rewrite collateSubConfigs_lookup in H0. unfold groupName.
    destruct (configuredEntry entries (id li)) as [le |]; [| discriminate].
    cbn in H0. injection H0 as <-. cbn in Hd |- *. rewrite Hd. reflexivity.
  - rewrite Hcfg. apply toString_inj in Hid.
    pose proof (IdsArePositions_get _ _ Hids Hli') as Hget'.
    pose proof (IdsArePositions_get _ _ Hids Hli) as Hget.
    rewrite Hid, Hget in Hget'. injection Hget' as ->.
    apply fetchSubConfig_groupName.
Qed.

Lemma Mirrors_by_id (node : TreeNode) :
  forall layerInfo,
    layerInfo ∈ infos ->
    Mirrors infos sc layerInfo node ->
    (forall z, z ∈ nodeIds node -> marker sc (JS.toString z) = true) ->
    MirrorsById infos complete entries layerInfo node.
Proof.
  induction node as [z' | z' name' childs IH] using TreeNode_nested_ind;
    intros layerInfo Hli Hmir Hmark.
  - inversion Hmir; subst. constructor. assumption.
  - inversion Hmir as [| li slids subC childs' Hsub Hne Hsc Hall]; subst.
    assert (Hd : defaulted subC = true).
    { specialize (Hmark (id layerInfo)). unfold marker in Hmark. rewrite Hsc in Hmark.
      apply Hmark. cbn [nodeIds]. apply elem_of_cons. auto. }
    rewrite (resolved_groupName layerInfo subC Hli Hsc Hd).
    apply (by_id_group _ _ _ layerInfo slids childs Hsub Hne).
    apply (Forall2_impl_Forall_r _ _
             (fun child =>
                (forall li, li ∈ infos -> Mirrors infos sc li child ->
                            (forall z, z ∈ nodeIds child -> marker sc (JS.toString z) = true) ->
                            MirrorsById infos complete entries li child)
                /\ forall z, z ∈ nodeIds child -> marker sc (JS.toString z) = true)
             _ _ Hall).
    + apply Forall_forall. intros child Hchild. split.
      * rewrite Forall_forall in IH. apply IH, Hchild.
      * intros z Hz. apply Hmark. cbn [nodeIds]. apply elem_of_cons. right.
        apply elem_of_flat_map. eauto.
    + intros slid child (childInfo & Hget & Hmir') [IHchild Hmarked].
      destruct (array_get_id _ _ _ Hids Hget) as [Hin Hslid].
      injection Hslid as ->.
      exists childInfo. split_and!; [exact Hin | reflexivity |].
      apply IHchild; assumption.
Qed.

Lemma MirrorsConfig_by_id (tree : list TreeNode) :
  MirrorsConfig infos sc entries tree ->
  (forall z, z ∈ flat_map nodeIds tree -> marker sc (JS.toString z) = true) ->
  MirrorsConfigById infos complete entries tree.
Proof.
  unfold MirrorsConfig, MirrorsConfigById. intros Hmir Hmark.
  apply (Forall2_impl_Forall_r _ _
           (fun node => forall z, z ∈ nodeIds node -> marker sc (JS.toString z) = true)
           _ _ Hmir).
  - apply Forall_forall. intros node Hnode z Hz. apply Hmark.
    apply elem_of_flat_map. eauto.
  - intros le node (layerInfo & Hget & Hmir') Hmarked.
    destruct (array_get_id _ _ _ Hids Hget) as [Hin Hidx].
    exists layerInfo. split_and!; [exact Hin | exact Hidx |].
    apply Mirrors_by_id; assumption.
Qed.

End TreeById.

Section TreeByIdLoad.

Import Config DynamicRecord DynamicSpec DynamicState DynamicChild TreeSpec.

Lemma resolve_by_id (fuel : nat) (bundle : AttributeBundle) (r : t)
    (sc : gmap string SubConfig) (r' : t) :
  IdsArePositions (layerInfos (_layer r)) ->
  resolve fuel bundle r = JS.Return (sc, r') ->
  exists tree,
    _childTree r' = Some tree
    /\ MirrorsConfigById (layerInfos (_layer r)) (_configIsComplete r) (layerEntries r) tree.
Proof.
  intros Hids Hres.
  destruct (resolve_facts _ _ _ _ _ Hres) as ((tree & Htree & Hmir) & _).
  pose proof (resolve_resolvedFrom _ _ _ _ _ Hres) as Hfrom.
  apply resolve_inv in Hres as (tree' & r1 & Hwalk & Hld).
  pose proof (processEntries_Marks _ _ _ _ _ Hwalk) as Hmarks. cbn [fst snd] in Hmarks.
  apply loadFeatureClasses_Loaded in Hld.
  assert (tree' = tree) as ->.
  { pose proof (ld_childTree _ _ Hld) as Ht. cbn in Ht. congruence. }
  exists tree. split; [exact Htree |].
  apply (MirrorsConfig_by_id _ _ _ sc Hids Hfrom tree Hmir).
  intros z Hz. apply Hmarks. right. eauto.
Qed.

Lemma exampleRecord_IdsArePositions : IdsArePositions (layerInfos (_layer exampleRecord)).
Proof.
  intros p layerInfo Hp. cbn in Hp.
  destruct p as [| [| [| [| [| p]]]]]; cbn in Hp; try discriminate;
    injection Hp as <-; reflexivity.
Qed.

End TreeByIdLoad.

(** C8, as stated, fails: on the hierarchy of the claim taken as the list
    the server reports, [{id:1, subLayerIds:[2,3]}, {id:2}, {id:3,
    subLayerIds:[4]}, {id:4}], with index 1 configured, the handler looks
    up [layerInfos[1]], which is the node with id 2, and the tree it builds
    is the single leaf 2, not a group 1 holding the leaf 2 and the group 3
    with the leaf 4. *)
Lemma childTree_literal_hierarchy_counterexample :
  let infos :=
    [ DynamicRecord.mkLayerInfo 1 "Water" (Some [2; 3]%Z);
      DynamicRecord.mkLayerInfo 2 "Lakes" None;
      DynamicRecord.mkLayerInfo 3 "Rivers" (Some [4]%Z);
      DynamicRecord.mkLayerInfo 4 "Streams" None ] in
  let le := Config.mkEntry (JS.Int 1) None None None false None in
  let r := DynamicRecord.constructor [le] (DynamicRecord.mkEsriLayer infos true []) false in
  exists r',
    DynamicRecord.onLoad 4 (DynamicRecord.mkBundle ["2"; "4"]) r = JS.Return r'
    /\ DynamicRecord._childTree r' = Some [DynamicRecord.Leaf 2]
    /\ (forall name1 name3,
          DynamicRecord._childTree r'
          <> Some [DynamicRecord.Group 1 name1
                     [DynamicRecord.Leaf 2;
                      DynamicRecord.Group 3 name3 [DynamicRecord.Leaf 4]]])
    /\ ~ TreeSpec.MirrorsConfigById infos false [le] [DynamicRecord.Leaf 2].
Proof.
  cbv zeta. eexists. split; [vm_compute; reflexivity |].
  split; [reflexivity |]. split; [intros name1 name3; discriminate |].
  unfold TreeSpec.MirrorsConfigById. cbn [List.filter Config.stateOnly negb].
  intros H. apply Forall2_cons_1 in H as [(layerInfo & Hin & Hidx & Hmir) _].
  cbn in Hidx. injection Hidx as Hidx.
  inversion Hmir as [li Hsub Heq |]; subst.
  repeat (apply elem_of_cons in Hin as [-> | Hin];
          [cbn in Hidx, Hsub; try discriminate; destruct Hsub; discriminate |]).
  apply elem_of_nil in Hin. contradiction.
Qed.

(** C8, amended: on a server that numbers its sub-layers by their position
    in [layerInfos], when the load handler returns (or reaches the end of
    the loop over the attribute indexes) the child tree has one node per
    config entry that is not [stateOnly], in the order of the config, and
    each node mirrors the server node whose id is the index of the entry: a
    server node with sub-layer ids is a group with its id, its name, and
    the mirrors of the nodes carrying its sub-layer ids, in server order; a
    server node without sub-layer ids is a leaf with its id. The name of a
    group is the server name when the config has no entry for it, the
    configured name as it stands when the config is marked complete, and
    otherwise the configured name when non-empty, else the server name. On
    a hierarchy whose sub-layer ids point further down the server's list,
    with the walked entries on the server, the tree gets built with any
    budget that covers the list (when the config is not marked complete, or
    every entry has a state), and with a config not marked complete the
    handler returns. For the hierarchy 1 > (2, 3 > 4) reported at the
    positions 1 to 4 of the list, behind a node 0, with index 1 configured,
    the tree is one group (1) holding the leaf 2 and the group 3, which
    holds the leaf 4. *)
Theorem childTree_mirrors_hierarchy :
  (forall (fuel : nat) (bundle : DynamicRecord.AttributeBundle) (r r' : DynamicRecord.t),
      DynamicState.IdsArePositions (DynamicRecord.layerInfos (DynamicRecord._layer r)) ->
      (DynamicRecord.onLoad fuel bundle r = JS.Return r'
       \/ exists sc, DynamicRecord.resolve fuel bundle r = JS.Return (sc, r')) ->
      exists tree,
        DynamicRecord._childTree r' = Some tree
        /\ TreeSpec.MirrorsConfigById
             (DynamicRecord.layerInfos (DynamicRecord._layer r))
             (DynamicRecord._configIsComplete r)
             (DynamicRecord.layerEntries r) tree)
  /\ (forall (fuel : nat) (bundle : DynamicRecord.AttributeBundle) (r : DynamicRecord.t),
        length (DynamicRecord.layerInfos (DynamicRecord._layer r)) <= fuel ->
        DynamicSpec.Hierarchy (DynamicRecord.layerInfos (DynamicRecord._layer r)) ->
        DynamicSpec.ConfigOnServer (DynamicRecord.layerEntries r)
          (DynamicRecord.layerInfos (DynamicRecord._layer r)) ->
        DynamicRecord._configIsComplete r = false
        \/ (forall le, le ∈ DynamicRecord.layerEntries r -> is_Some (Config.state le)) ->
        exists sc r',
          DynamicRecord.resolve fuel bundle r = JS.Return (sc, r')
          /\ (DynamicRecord._configIsComplete r = false ->
              DynamicRecord.onLoad fuel bundle r = JS.Return r'))
  /\ (let infos :=
        [ DynamicRecord.mkLayerInfo 0 "Base" None;
          DynamicRecord.mkLayerInfo 1 "Water" (Some [2; 3]%Z);
          DynamicRecord.mkLayerInfo 2 "Lakes" None;
          DynamicRecord.mkLayerInfo 3 "Rivers" (Some [4]%Z);
          DynamicRecord.mkLayerInfo 4 "Streams" None ] in
      let le := Config.mkEntry (JS.Int 1) None None None false None in
      let r := DynamicRecord.constructor [le] (DynamicRecord.mkEsriLayer infos true []) false in
      DynamicState.IdsArePositions infos
      /\ exists r',
          DynamicRecord.onLoad 5 (DynamicRecord.mkBundle ["2"; "4"]) r = JS.Return r'
          /\ DynamicRecord._childTree r'
             = Some [DynamicRecord.Group 1 (Some "Water")
                       [DynamicRecord.Leaf 2;
                        DynamicRecord.Group 3 (Some "Rivers") [DynamicRecord.Leaf 4]]]).
Proof.
  split_and!.
  - intros fuel bundle r r' Hids Hrun.
    assert (Hres : exists sc r0,
               DynamicRecord.resolve fuel bundle r = JS.Return (sc, r0)
               /\ DynamicRecord._childTree r' = DynamicRecord._childTree r0).
    { destruct Hrun as [Hload | [sc Hres]].
      - apply onLoad_inv in Hload as (sc & r0 & Hres & _ & _ & _ & Ht & _). eauto.
      - exists sc, r'. auto. }
    destruct Hres as (sc & r0 & Hres & Ht).
    destruct (resolve_by_id _ _ _ _ _ Hids Hres) as (tree & Htree & Hmir).
    exists tree. split; [congruence | exact Hmir].
  - intros fuel bundle r Hfuel Hh Hcfg Hc.
    destruct (resolve_returns fuel bundle r Hfuel Hh Hcfg Hc) as (sc & r' & Hres).
    exists sc, r'. split; [exact Hres |].
    intros Hfalse. unfold DynamicRecord.onLoad. rewrite Hres, bind_Return_l.
    destruct (resolve_facts _ _ _ _ _ Hres) as (_ & _ & _ & Hc' & _).
    rewrite Hc', Hfalse. reflexivity.
  - cbv zeta. split; [apply exampleRecord_IdsArePositions |].
    eexists. split; vm_compute; reflexivity.
Qed.

(** C8 on the sample hierarchy with configured names: index 1 is
    configured as "Hydrology", and a [stateOnly] entry names index 3
    "Waterways". *)
Lemma childTree_mirrors_hierarchy_witness :
  let entries :=
    [ Config.mkEntry (JS.Int 1) (Some "Hydrology") None None false None;
      Config.mkEntry (JS.Int 3) (Some "Waterways") None None true None ] in
  let r := DynamicRecord.constructor entries (DynamicRecord._layer exampleRecord) false in
  exists r',
    DynamicRecord.onLoad 5 exampleBundle r = JS.Return r'
    /\ DynamicRecord._childTree r'
       = Some [DynamicRecord.Group 1 (Some "Hydrology")
                 [DynamicRecord.Leaf 2;
                  DynamicRecord.Group 3 (Some "Waterways") [DynamicRecord.Leaf 4]]]
    /\ exists tree,
        DynamicRecord._childTree r' = Some tree
        /\ TreeSpec.MirrorsConfigById
             (DynamicRecord.layerInfos (DynamicRecord._layer r))
             (DynamicRecord._configIsComplete r)
             (DynamicRecord.layerEntries r) tree.
Proof.
  cbv zeta. eexists. split; [vm_compute; reflexivity |].
  split; [reflexivity |].
  apply (proj1 childTree_mirrors_hierarchy 5 exampleBundle
           (DynamicRecord.constructor
              [ Config.mkEntry (JS.Int 1) (Some "Hydrology") None None false None;
                Config.mkEntry (JS.Int 3) (Some "Waterways") None None true None ]
              (DynamicRecord._layer exampleRecord) false)).
  - apply exampleRecord_IdsArePositions.
  - left. vm_compute. reflexivity.
Defined.
